(** * IEEE-converter: the upload handler of [app.py], embedded and verified

    The development follows [app.py] function by function.  Python values
    are modelled as follows.

    - [str] and [bytes] are [string] (byte strings; the operations on text
      are those of Python on ASCII);
    - a [pathlib.Path] is the list of its components ([Path]); every path
      the handler builds is absolute, so the root is the empty list;
    - the file system is a finite map from paths to nodes ([FS]), a node
      being a regular file, a directory or a symbolic link.  An entry is
      looked up under the path as it is written: a link is followed when it
      is the entry itself, as Python does, and is not searched for on the
      way to an entry.  Permissions, owners and times are left out;
    - effects are threaded through the state-and-exception monad [Py], whose
      state is the disk and the log of the tools that have been run;
    - the collaborators the handler only calls (werkzeug's
      [secure_filename], the zip decoder, [subprocess.run], [mkdtemp],
      the text of library-made exception messages) are the fields of the
      class [Platform], so every theorem holds for all their behaviours.

    The first part is the model, the second part the statements and their
    proofs, claim by claim; further properties of the functions of
    [app.py] follow. *)

From Stdlib Require Import String Ascii ZArith List Lia.
From stdpp Require Import base option list strings gmap fin_maps.

Local Open Scope string_scope.
Local Open Scope list_scope.

(** ** Strings *)

Module Str.

Definition chars (s : string) : list ascii := list_ascii_of_string s.
Definition of_chars (l : list ascii) : string := string_of_list_ascii l.

Definition dot : ascii := "."%char.
Definition slash : ascii := "/"%char.

(** [c in s] for a one-character [c]. *)
Definition contains (c : ascii) (s : string) : bool :=
  existsb (Ascii.eqb c) (chars s).

(** [s.split(sep)] for a one-character separator: always at least one
    field, empty fields are kept. *)
Fixpoint split_chars (sep : ascii) (cur : list ascii) (l : list ascii)
  : list string :=
  match l with
  | [] => [of_chars (rev cur)]
  | c :: l' =>
      if Ascii.eqb c sep
      then of_chars (rev cur) :: split_chars sep [] l'
      else split_chars sep (c :: cur) l'
  end.

Definition split (sep : ascii) (s : string) : list string :=
  split_chars sep [] (chars s).

(** [sep.join(l)]. *)
Fixpoint join (sep : string) (l : list string) : string :=
  match l with
  | [] => ""
  | [x] => x
  | x :: l' => x +:+ sep +:+ join sep l'
  end.

(** The characters after the last occurrence of [sep], when there is
    one: [s.rsplit(sep, 1)[1]]. *)
Fixpoint after_last (sep : ascii) (l : list ascii) : option (list ascii) :=
  match l with
  | [] => None
  | c :: l' =>
      match after_last sep l' with
      | Some t => Some t
      | None => if Ascii.eqb c sep then Some l' else None
      end
  end.

(** [str.lower] on the ASCII letters. *)
Definition lower_char (c : ascii) : ascii :=
  let n := nat_of_ascii c in
  if (65 <=? n)%nat && (n <=? 90)%nat then ascii_of_nat (n + 32) else c.

Definition lower (s : string) : string := of_chars (map lower_char (chars s)).

Definition starts_with (p s : string) : bool := String.prefix p s.

Definition ends_with (p s : string) : bool :=
  String.prefix (of_chars (rev (chars p))) (of_chars (rev (chars s))).

(** [str.isspace] on the ASCII range: tab, line feed, vertical tab, form
    feed, carriage return, the four separators 28..31 and the space. *)
Definition is_space (c : ascii) : bool :=
  let n := nat_of_ascii c in
  ((9 <=? n)%nat && (n <=? 13)%nat) || ((28 <=? n)%nat && (n <=? 32)%nat).

Fixpoint lstrip_chars (l : list ascii) : list ascii :=
  match l with
  | c :: l' => if is_space c then lstrip_chars l' else l
  | [] => []
  end.

(** [s.strip()]. *)
Definition strip (s : string) : string :=
  of_chars (rev (lstrip_chars (rev (lstrip_chars (chars s))))).

Fixpoint drop_prefix (p l : list ascii) : option (list ascii) :=
  match p, l with
  | [], _ => Some l
  | a :: p', b :: l' => if Ascii.eqb a b then drop_prefix p' l' else None
  | _ :: _, [] => None
  end.

(** [s.replace(old, new)] for a non-empty [old]: occurrences are replaced
    from left to right and do not overlap.  [fuel] bounds the scan by the
    length of the text. *)
Fixpoint replace_chars (fuel : nat) (old new l : list ascii) : list ascii :=
  match fuel with
  | O => l
  | S n =>
      match l with
      | [] => []
      | c :: l' =>
          match drop_prefix old l with
          | Some rest => new ++ replace_chars n old new rest
          | None => c :: replace_chars n old new l'
          end
      end
  end.

Definition replace (old new s : string) : string :=
  of_chars (replace_chars (length (chars s)) (chars old) (chars new) (chars s)).

End Str.

(** ** Paths

    A [pathlib.Path] is the list of its components below the root.  The
    component [".."] is kept by [pathlib] (only [Path.resolve] removes
    it); empty components and ["."] are dropped when a string is parsed. *)

Abbreviation Path := (list string) (only parsing).

Module PathLib.

Definition is_absolute (s : string) : bool := Str.starts_with "/" s.

Definition parse_parts (s : string) : list string :=
  filter (fun x => x <> "" /\ x <> ".") (Str.split Str.slash s).

(** [p / s]: an absolute right operand replaces the left one. *)
Definition joinpath (p : Path) (s : string) : Path :=
  if is_absolute s then parse_parts s else p ++ parse_parts s.

(** [p.name] and [p.parent]. *)
Definition name (p : Path) : string := List.last p "".
Definition parent (p : Path) : Path := removelast p.

(** [PurePath.suffix]: the part of the name from its last dot, when that
    dot is neither the first nor the last character of the name. *)
Definition suffix_of_name (n : string) : string :=
  let l := Str.chars n in
  match Str.after_last Str.dot l with
  | Some t =>
      if (S (length t) <? length l)%nat && negb (length t =? 0)%nat
      then Str.of_chars (Str.dot :: t)
      else ""
  | None => ""
  end.

Definition suffix (p : Path) : string := suffix_of_name (name p).

(** [str(p)] for an absolute path, and for a relative one. *)
Definition str (p : Path) : string := "/" +:+ Str.join "/" p.
Definition rel_str (p : list string) : string := Str.join "/" p.

(** [p.relative_to(base)] succeeds exactly when the components of [base]
    begin those of [p]. *)
Fixpoint is_relative_to (p base : Path) : bool :=
  match base, p with
  | [], _ => true
  | b :: base', c :: p' => if String.eqb b c then is_relative_to p' base' else false
  | _ :: _, [] => false
  end.

End PathLib.

Infix "//" := PathLib.joinpath (at level 40, left associativity).

(** ** The file system *)

Inductive node :=
| File (data : string)
| Dir
| Symlink (target : Path).

#[global] Instance node_eq_dec : EqDecision node.
Proof. solve_decision. Defined.

Abbreviation FS := (gmap (list string) node) (only parsing).

Inductive errno := ENOENT | EEXIST | ENOTDIR | EISDIR | ELOOP | ESAME.

(** The exceptions the handler can meet.  [OSError] stands for the
    exceptions the operating-system layer raises ([FileNotFoundError],
    [FileExistsError], [NotADirectoryError], [IsADirectoryError] and
    [shutil.SameFileError] are all subclasses of it); [FileNotFoundError]
    is the one the handler raises itself, with a message. *)
Inductive exn :=
| OSError (code : errno) (path : Path)
| FileNotFoundError (msg : string)
| ValueError (msg : string)
| CalledProcessError (returncode : Z) (cmd : list string) (stdout stderr : string)
| BadZipFile.

Inductive Outcome (A : Type) :=
| Ok (a : A)
| Raise (e : exn).
Arguments Ok {A} a.
Arguments Raise {A} e.

Module Os.

(** The root always is a directory. *)
Definition node_at (fs : FS) (p : Path) : option node :=
  match p with
  | [] => Some Dir
  | _ => fs !! p
  end.

(** Follow the links at the end of a path, at most [hops] of them (the
    kernel gives up after 40). *)
Fixpoint follow (hops : nat) (fs : FS) (p : Path) : Outcome Path :=
  match node_at fs p with
  | Some (Symlink t) =>
      match hops with
      | O => Raise (OSError ELOOP p)
      | S h => follow h fs t
      end
  | _ => Ok p
  end.

Definition max_hops : nat := 40.

(** [os.path.exists] / [Path.exists]: follows links, false on error. *)
Definition exists_ (fs : FS) (p : Path) : bool :=
  match follow max_hops fs p with
  | Ok q => match node_at fs q with Some _ => true | None => false end
  | Raise _ => false
  end.

(** [os.path.isdir] / [Path.is_dir]. *)
Definition is_dir (fs : FS) (p : Path) : bool :=
  match follow max_hops fs p with
  | Ok q => match node_at fs q with Some Dir => true | _ => false end
  | Raise _ => false
  end.

(** Creating an entry needs its parent to be a directory. *)
Definition check_parent (fs : FS) (p : Path) : Outcome unit :=
  match node_at fs (PathLib.parent p) with
  | Some Dir => Ok tt
  | Some _ => Raise (OSError ENOTDIR p)
  | None => Raise (OSError ENOENT p)
  end.

(** [open(p, "rb").read()]. *)
Definition read_file (fs : FS) (p : Path) : Outcome string :=
  match follow max_hops fs p with
  | Raise e => Raise e
  | Ok q =>
      match node_at fs q with
      | Some (File d) => Ok d
      | Some Dir => Raise (OSError EISDIR p)
      | _ => Raise (OSError ENOENT p)
      end
  end.

(** [open(p, "wb").write(d)]: creates the file or replaces its content. *)
Definition write_file (p : Path) (d : string) (fs : FS) : Outcome FS :=
  match follow max_hops fs p with
  | Raise e => Raise e
  | Ok q =>
      match node_at fs q with
      | Some (File _) => Ok (<[q := File d]> fs)
      | Some _ => Raise (OSError EISDIR p)
      | None =>
          match check_parent fs q with
          | Ok _ => Ok (<[q := File d]> fs)
          | Raise e => Raise e
          end
      end
  end.

(** [os.mkdir]. *)
Definition mkdir (p : Path) (fs : FS) : Outcome FS :=
  match node_at fs p with
  | Some _ => Raise (OSError EEXIST p)
  | None =>
      match check_parent fs p with
      | Ok _ => Ok (<[p := Dir]> fs)
      | Raise e => Raise e
      end
  end.

(** [Path.mkdir(parents=True, exist_ok=True)] and
    [os.makedirs(exist_ok=True)]: the missing directories are made from
    the top; an entry that is there and is not a directory is an error. *)
Fixpoint mkdirs_from (base : Path) (rest : list string) (fs : FS) : Outcome FS :=
  match rest with
  | [] => Ok fs
  | c :: rest' =>
      let p := base ++ [c] in
      match node_at fs p with
      | None => mkdirs_from p rest' (<[p := Dir]> fs)
      | Some Dir => mkdirs_from p rest' fs
      | Some (File _) =>
          Raise (OSError (match rest' with [] => EEXIST | _ => ENOTDIR end) p)
      | Some (Symlink _) =>
          match rest' with
          | [] => if is_dir fs p then Ok fs else Raise (OSError EEXIST p)
          | _ => Raise (OSError ENOTDIR p)
          end
      end
  end.

Definition makedirs (p : Path) (fs : FS) : Outcome FS := mkdirs_from [] p fs.

(** [Path.unlink(missing_ok)]: removes a file or a link, never follows. *)
Definition unlink (missing_ok : bool) (p : Path) (fs : FS) : Outcome FS :=
  match node_at fs p with
  | None => if missing_ok then Ok fs else Raise (OSError ENOENT p)
  | Some Dir => Raise (OSError EISDIR p)
  | Some _ => Ok (delete p fs)
  end.

(** [link.symlink_to(target)]. *)
Definition symlink_to (link target : Path) (fs : FS) : Outcome FS :=
  match node_at fs link with
  | Some _ => Raise (OSError EEXIST link)
  | None =>
      match check_parent fs link with
      | Ok _ => Ok (<[link := Symlink target]> fs)
      | Raise e => Raise e
      end
  end.

(** The names of the entries directly inside [d]. *)
Definition children (fs : FS) (d : Path) : list string :=
  PathLib.name <$>
    filter (fun p : list string => PathLib.parent p = d /\ p <> [])
           (map_to_list fs).*1.

(** [os.listdir]. *)
Definition listdir (fs : FS) (d : Path) : Outcome (list string) :=
  match follow max_hops fs d with
  | Raise e => Raise e
  | Ok q =>
      match node_at fs q with
      | Some Dir => Ok (children fs q)
      | Some _ => Raise (OSError ENOTDIR d)
      | None => Raise (OSError ENOENT d)
      end
  end.

(** [shutil.rmtree]: the entry and everything below it. *)
Definition rmtree (p : Path) (fs : FS) : FS :=
  filter (fun kv : list string * node => ~ p `prefix_of` kv.1) fs.

(** [shutil.copy(src, dst)]. *)
Definition copy (src dst : Path) (fs : FS) : Outcome FS :=
  let dst' := if is_dir fs dst then dst ++ [PathLib.name src] else dst in
  match follow max_hops fs src, follow max_hops fs dst' with
  | Ok s, Ok t =>
      if bool_decide (s = t /\ is_Some (node_at fs s))
      then Raise (OSError ESAME src)
      else match read_file fs src with
           | Ok d => write_file dst' d fs
           | Raise e => Raise e
           end
  | _, _ =>
      match read_file fs src with
      | Ok d => write_file dst' d fs
      | Raise e => Raise e
      end
  end.

End Os.

(** ** The world, the platform and the monad of the handler *)

Record ZipInfo := { zi_filename : string; zi_data : string }.

Record Invocation := {
  inv_cmd : list string;
  inv_cwd : Path;
  inv_env : gmap string string
}.

Record Completed := { returncode : Z; stdout : string; stderr : string }.

(** A tool invocation with what came of it: the completed process, or the
    exception when the process could not be started. *)
Record Call := { call_inv : Invocation; call_result : Outcome Completed }.

(** What a request can change or observe: the file system and the
    external tools that have been run, oldest first. *)
Record World := { w_fs : FS; w_calls : list Call }.

Definition set_fs (w : World) (fs : FS) : World :=
  {| w_fs := fs; w_calls := w_calls w |}.

(** The collaborators of the handler.  [subprocess_run] is
    [subprocess.run(..., capture_output=True, text=True)] before its
    [check]: the tool may change the file system in any way, and either
    the process completes or it could not be started. *)
Class Platform := {
  APP_ROOT : Path;
  environ : gmap string string;
  secure_filename : string -> string;
  zip_infolist : string -> option (list ZipInfo);
  subprocess_run : Invocation -> World -> Outcome Completed * FS;
  gettempdir : Path;
  mkdtemp_name : World -> string;
  str_OSError : errno -> Path -> string;
  str_CalledProcessError : Z -> list string -> string
}.

Definition Py (A : Type) : Type := World -> Outcome A * World.

Definition ret {A} (a : A) : Py A := fun w => (Ok a, w).

Definition bind {A B} (m : Py A) (k : A -> Py B) : Py B :=
  fun w =>
    match m w with
    | (Ok a, w') => k a w'
    | (Raise e, w') => (Raise e, w')
    end.

Definition raise {A} (e : exn) : Py A := fun w => (Raise e, w).

Declare Scope py_scope.
Delimit Scope py_scope with py.
Bind Scope py_scope with Py.
Notation "x <- m ;; k" := (bind m (fun x => k))
  (at level 100, m at next level, k at level 200, right associativity) : py_scope.
Notation "m ;; k" := (bind m (fun _ => k))
  (at level 100, k at level 200, right associativity) : py_scope.
Local Open Scope py_scope.

(** [try: body finally: fin]: [fin] runs on every exit of [body]; an
    exception of [fin] replaces the outcome of [body]. *)
Definition try_finally {A} (body : Py A) (fin : Py unit) : Py A :=
  fun w =>
    match body w with
    | (r, w1) =>
        match fin w1 with
        | (Ok _, w2) => (r, w2)
        | (Raise e, w2) => (Raise e, w2)
        end
    end.

(** [try: body except classes as exc: handler]. *)
Definition try_except {A} (body : Py A) (caught : exn -> bool) (handler : exn -> Py A) : Py A :=
  fun w =>
    match body w with
    | (Ok a, w1) => (Ok a, w1)
    | (Raise e, w1) => if caught e then handler e w1 else (Raise e, w1)
    end.

(** [for x in l: body]. *)
Fixpoint for_ {A} (l : list A) (body : A -> Py unit) : Py unit :=
  match l with
  | [] => ret tt
  | x :: l' => body x ;; for_ l' body
  end.

(** A file-system operation that changes the tree, and one that only
    looks at it. *)
Definition fs_do (op : FS -> Outcome FS) : Py unit :=
  fun w =>
    match op (w_fs w) with
    | Ok fs' => (Ok tt, set_fs w fs')
    | Raise e => (Raise e, w)
    end.

Definition fs_get {A} (op : FS -> Outcome A) : Py A :=
  fun w =>
    match op (w_fs w) with
    | Ok a => (Ok a, w)
    | Raise e => (Raise e, w)
    end.

Definition fs_test (op : FS -> bool) : Py bool := fun w => (Ok (op (w_fs w)), w).

(** [Path.resolve()]: [".."] steps back, a link is replaced by its target
    (at most [hops] times, after which links are left as they are; a loop
    of links, which [Path.resolve] reports with an exception of its own,
    is outside the model).  Components that do not exist are kept. *)
Fixpoint resolve_from (hops : nat) (fs : FS) : Path -> list string -> Path :=
  fix go (cur : Path) (rest : list string) {struct rest} : Path :=
    match rest with
    | [] => cur
    | c :: rest' =>
        if String.eqb c ".." then go (removelast cur) rest'
        else
          match Os.node_at fs (cur ++ [c]), hops with
          | Some (Symlink t), S h => resolve_from h fs [] (t ++ rest')
          | _, _ => go (cur ++ [c]) rest'
          end
    end.

Definition resolve (fs : FS) (p : Path) : Path := resolve_from Os.max_hops fs [] p.

(** ** The requests and the responses *)

(** An uploaded file ([werkzeug.FileStorage]); it is falsy exactly when its
    file name is empty. *)
Record FileStorage := { filename : string; stream : string }.

Record Request := {
  req_method : string;
  req_files : list (string * FileStorage)
}.

(** [request.files.get(key)]: the first file of that field. *)
Fixpoint files_get (files : list (string * FileStorage)) (key : string)
  : option FileStorage :=
  match files with
  | [] => None
  | (k, f) :: files' => if String.eqb k key then Some f else files_get files' key
  end.

Inductive Response :=
| render_template (template : string) (error : option string) (log : option string)
| send_file (body : string) (mimetype : string) (as_attachment : bool)
            (download_name : string).

(** ** [app.py] *)

Definition ASSETS : list string :=
  [ "ieee/ieee-conference.tex";
    "ieee/IEEEtran.cls";
    "ieee/IEEEtran.bst";
    "ieee/ieee.csl";
    "ieee/pandoc-csl-fix.tex" ].

Definition ALLOWED_MD : list string := ["md"].
Definition ALLOWED_BIB : list string := ["bib"].
Definition ALLOWED_ZIP : list string := ["zip"].

Definition _allowed (filename : string) (exts : list string) : bool :=
  Str.contains Str.dot filename &&
  match Str.after_last Str.dot (Str.chars filename) with
  | Some ext => bool_decide (Str.lower (Str.of_chars ext) ∈ exts)
  | None => false
  end.

(** [ZipFile.extractall], one member at a time as [ZipFile._extract_member]
    does on POSIX: the name loses its empty, ["."] and [".."] components
    (a name of which nothing is left is refused, unless it is a
    directory's), the directories above the target are made when they are
    missing, a name that ends in a slash makes a directory and any other
    name a file with the member's bytes, over what was there. *)
Module Zip.

Definition arcname_parts (name : string) : list string :=
  filter (fun x => x <> "" /\ x <> "." /\ x <> "..") (Str.split Str.slash name).

Definition is_dir (m : ZipInfo) : bool := Str.ends_with "/" (zi_filename m).

Definition target (dest : Path) (m : ZipInfo) : Path :=
  dest ++ arcname_parts (zi_filename m).

Definition extract_member (dest : Path) (m : ZipInfo) (fs : FS) : Outcome FS :=
  let t := target dest m in
  if bool_decide (arcname_parts (zi_filename m) = []) && negb (is_dir m)
  then Raise (ValueError "Empty filename.")
  else
    let upper := PathLib.parent t in
    match (if bool_decide (upper <> []) && negb (Os.exists_ fs upper)
           then Os.makedirs upper fs else Ok fs) with
    | Raise e => Raise e
    | Ok fs1 =>
        if is_dir m
        then if Os.is_dir fs1 t then Ok fs1 else Os.mkdir t fs1
        else Os.write_file t (zi_data m) fs1
    end.

Definition extractall (members : list ZipInfo) (dest : Path) : Py unit :=
  for_ members (fun m => fs_do (extract_member dest m)).

End Zip.

Section App.

Context {P : Platform}.

(** [zipfile.ZipFile(zip_path)], as far as [infolist()] and the members'
    bytes go. *)
Definition ZipFile (zip_path : Path) : Py (list ZipInfo) :=
  bytes <- fs_get (fun fs => Os.read_file fs zip_path) ;;
  match zip_infolist bytes with
  | Some members => ret members
  | None => raise BadZipFile
  end.

Definition _copy_assets (dest : Path) : Py unit :=
  for_ ASSETS (fun name =>
    let src := APP_ROOT // name in
    src_exists <- fs_test (fun fs => Os.exists_ fs src) ;;
    if negb src_exists
    then raise (FileNotFoundError ("Missing required asset: " +:+ name))
    else
      let target := dest // name in
      fs_do (Os.makedirs (PathLib.parent target)) ;;
      fs_do (Os.copy src target)).

Definition link_entry (src_dir work_dir : Path) (links : list Path) (name : string)
  : Py (list Path) :=
  let entry := src_dir ++ [name] in
  if bool_decide (PathLib.suffix entry ∈ [".md"; ".bib"])
  then ret links
  else
    let target := work_dir // PathLib.name entry in
    target_exists <- fs_test (fun fs => Os.exists_ fs target) ;;
    if (target_exists : bool)
    then ret links
    else
      fs_do (Os.symlink_to target entry) ;;
      ret (links ++ [target]).

Fixpoint link_entries (src_dir work_dir : Path) (links : list Path)
  (names : list string) : Py (list Path) :=
  match names with
  | [] => ret links
  | name :: names' =>
      links' <- link_entry src_dir work_dir links name ;;
      link_entries src_dir work_dir links' names'
  end.

Definition _link_paper_assets (src_dir work_dir : Path) : Py (list Path) :=
  let links : list Path := [] in
  src_exists <- fs_test (fun fs => Os.exists_ fs src_dir) ;;
  if negb src_exists
  then ret links
  else
    names <- fs_get (fun fs => Os.listdir fs src_dir) ;;
    link_entries src_dir work_dir links names.

Definition _run (cmd : list string) (cwd : Path) (env : gmap string string)
  : Py unit :=
  fun w =>
    let inv := {| inv_cmd := cmd; inv_cwd := cwd; inv_env := env |} in
    match subprocess_run inv w with
    | (r, fs') =>
        let w' := {| w_fs := fs';
                     w_calls := w_calls w ++ [{| call_inv := inv; call_result := r |}] |} in
        match r with
        | Raise e => (Raise e, w')
        | Ok c =>
            if (returncode c =? 0)%Z
            then (Ok tt, w')
            else (Raise (CalledProcessError (returncode c) cmd (stdout c) (stderr c)), w')
        end
    end.

(** [d.glob("*" + ext)]: the entries of [d] whose name ends in [ext];
    nothing when [d] cannot be listed. *)
Definition glob_star (d : Path) (ext : string) : Py (list Path) :=
  fun w =>
    match Os.listdir (w_fs w) d with
    | Ok names => (Ok (map (fun n => d ++ [n]) (filter (fun n => Str.ends_with ext n = true) names)), w)
    | Raise _ => (Ok [], w)
    end.

Definition env_get (env : gmap string string) (key : string) : string :=
  default "" (env !! key).

Definition pdflatex_cmd (out_rel : list string) : list string :=
  [ "pdflatex";
    "-interaction=nonstopmode";
    "-halt-on-error";
    "-output-directory";
    PathLib.rel_str out_rel;
    PathLib.rel_str (out_rel ++ ["paper.tex"]) ].

Definition pandoc_cmd (paper_dir : Path) (out_rel : list string) : list string :=
  [ "pandoc";
    PathLib.str (paper_dir // "paper.md");
    "--template";
    PathLib.rel_str (["ieee"] ++ ["ieee-conference.tex"]);
    "--natbib";
    "-s";
    "-o";
    PathLib.rel_str (out_rel ++ ["paper.tex"]) ].

Definition bibtex_cmd (out_rel : list string) : list string :=
  [ "bibtex"; PathLib.rel_str (out_rel ++ ["paper"]) ].

Definition conversion_env (work paper_dir : Path) : gmap string string :=
  let out_dir := work ++ ["outputs"] in
  let ieee_dir := work // "ieee" in
  let env := environ in
  let env := <["TEXINPUTS" :=
    PathLib.str ieee_dir +:+ ":" +:+ env_get env "TEXINPUTS" +:+ ":"]> env in
  let env := <["BIBINPUTS" :=
    PathLib.str paper_dir +:+ ":" +:+ PathLib.str out_dir +:+ ":"
    +:+ env_get env "BIBINPUTS" +:+ ":"]> env in
  let env := <["BSTINPUTS" :=
    PathLib.str ieee_dir +:+ ":" +:+ PathLib.str paper_dir +:+ ":"
    +:+ PathLib.str out_dir +:+ ":" +:+ env_get env "BSTINPUTS" +:+ ":"]> env in
  env.

Definition _run_conversion (work paper_dir : Path) : Py unit :=
  let out_rel := ["outputs"] in
  let out_dir := work ++ out_rel in
  fs_do (Os.makedirs out_dir) ;;
  let env := conversion_env work paper_dir in
  _run (pandoc_cmd paper_dir out_rel) work env ;;
  let tex_path := out_dir // "paper.tex" in
  text <- fs_get (fun fs => Os.read_file fs tex_path) ;;
  fs_do (Os.write_file tex_path (Str.replace "\citep" "\cite" text)) ;;
  for_ ["aux"; "bbl"; "blg"; "out"; "log"; "pdf"] (fun ext =>
    fs_do (Os.unlink true (out_dir // ("paper." +:+ ext)))) ;;
  bibs <- glob_star paper_dir ".bib" ;;
  for_ bibs (fun bib => fs_do (Os.copy bib (out_dir // PathLib.name bib))) ;;
  _run (pdflatex_cmd out_rel) work env ;;
  _run (bibtex_cmd out_rel) work env ;;
  _run (pdflatex_cmd out_rel) work env ;;
  _run (pdflatex_cmd out_rel) work env.

Definition unsafe_path_message : string := "Zip file contains an unsafe path.".

Definition check_member (dest dest_resolved : Path) (member : ZipInfo) : Py unit :=
  member_path <- fs_get (fun fs => Ok (resolve fs (dest // zi_filename member))) ;;
  if PathLib.is_relative_to member_path dest_resolved
  then ret tt
  else raise (ValueError unsafe_path_message).

Definition _safe_extract_zip (zip_path dest : Path) : Py unit :=
  dest_resolved <- fs_get (fun fs => Ok (resolve fs dest)) ;;
  members <- ZipFile zip_path ;;
  for_ members (check_member dest dest_resolved) ;;
  Zip.extractall members dest.

(** [str(exc)]. *)
Definition str_exn (e : exn) : string :=
  match e with
  | OSError code path => str_OSError code path
  | FileNotFoundError msg => msg
  | ValueError msg => msg
  | CalledProcessError rc cmd _ _ => str_CalledProcessError rc cmd
  | BadZipFile => "File is not a zip file"
  end.

(** The classes of [except (OSError, subprocess.CalledProcessError,
    ValueError)]. *)
Definition handled (e : exn) : bool :=
  match e with
  | BadZipFile => false
  | _ => true
  end.

Definition error_log (e : exn) : string :=
  match e with
  | CalledProcessError _ _ out err =>
      out +:+ (if String.eqb err "" then "" else String "010" "" +:+ err)
  | _ => ""
  end.

(** [with tempfile.TemporaryDirectory(prefix=...) as tmpdir: body]: the
    directory is made in the directory for temporary files, under the
    prefix followed by characters of the platform's choice, and it is
    removed with all it holds when the block is left, however it is left.
    A name that is taken is an error here, where [mkdtemp] would draw
    another one. *)
Definition mkdtemp_path (prefix : string) (w : World) : Path :=
  gettempdir ++ [prefix +:+ mkdtemp_name w].

Definition with_TemporaryDirectory {A} (prefix : string) (body : Path -> Py A) : Py A :=
  fun w =>
    let tmpdir := mkdtemp_path prefix w in
    match Os.mkdir tmpdir (w_fs w) with
    | Raise e => (Raise e, w)
    | Ok fs1 =>
        match body tmpdir (set_fs w fs1) with
        | (r, w2) => (r, set_fs w2 (Os.rmtree tmpdir (w_fs w2)))
        end
    end.

Definition is_missing (f : option FileStorage) : bool :=
  match f with
  | None => true
  | Some f => String.eqb (filename f) ""
  end.

Definition upload (f : option FileStorage) : FileStorage :=
  default {| filename := ""; stream := "" |} f.

(** [file.save(dst)]. *)
Definition save (f : FileStorage) (dst : Path) : Py unit :=
  fs_do (Os.write_file dst (stream f)).

Definition remove_links (links : list Path) : Py unit :=
  for_ links (fun link => fs_do (Os.unlink true link)).

(** The statements of [index] between the saving of the manuscript and
    the figure archive: lines 184 to 189. *)
Definition bib_name_of (bib_file : FileStorage) : string :=
  if String.eqb (secure_filename (filename bib_file)) ""
  then "library.bib" else secure_filename (filename bib_file).

Definition stage_bibliography (paper_dir : Path) (bib_file : FileStorage) : Py unit :=
  let bib_name := bib_name_of bib_file in
  let bib_path := paper_dir // bib_name in
  save bib_file bib_path ;;
  if negb (String.eqb bib_name "library.bib")
  then fs_do (Os.copy bib_path (paper_dir // "library.bib"))
  else ret tt.

(** The statements of [index] after the pipeline: lines 202 to 212. *)
Definition send_artifact (work : Path) : Py Response :=
  let pdf_path := work // "outputs" // "paper.pdf" in
  pdf_exists <- fs_test (fun fs => Os.exists_ fs pdf_path) ;;
  if negb pdf_exists
  then raise (FileNotFoundError "PDF was not generated.")
  else
    pdf_bytes <- fs_get (fun fs => Os.read_file fs pdf_path) ;;
    ret (send_file pdf_bytes "application/pdf" true "paper.pdf").

(** The pipeline between the making and the removal of the links: lines
    195 to 200. *)
Definition linked_conversion (work paper_dir : Path) : Py unit :=
  links <- _link_paper_assets paper_dir work ;;
  try_finally (_run_conversion work paper_dir) (remove_links links).

(** The body of the [try] of [index]. *)
Definition convert (work paper_dir : Path) (md_file bib_file fig_zip : FileStorage)
  : Py Response :=
  _copy_assets work ;;
  let md_path := paper_dir // "paper.md" in
  save md_file md_path ;;
  stage_bibliography paper_dir bib_file ;;
  let zip_path := work // "figures.zip" in
  save fig_zip zip_path ;;
  _safe_extract_zip zip_path paper_dir ;;
  linked_conversion work paper_dir ;;
  send_artifact work.

Definition report (exc : exn) : Py Response :=
  let log := error_log exc in
  ret (render_template "index.html" (Some (str_exn exc)) (Some (Str.strip log))).

(** The [with] block of [index]. *)
Definition workspace (md_file bib_file fig_zip : FileStorage) : Py Response :=
  with_TemporaryDirectory "ieee-convert-" (fun tmpdir =>
    let work := tmpdir in
    let paper_dir := work // "paperFiles" in
    fs_do (Os.makedirs paper_dir) ;;
    try_except (convert work paper_dir md_file bib_file fig_zip) handled report).

Definition index (request : Request) : Py Response :=
  if String.eqb (req_method request) "GET"
  then ret (render_template "index.html" None None)
  else
    let md_file := files_get (req_files request) "md_file" in
    let bib_file := files_get (req_files request) "bib_file" in
    let fig_zip := files_get (req_files request) "fig_zip" in
    if is_missing md_file
    then ret (render_template "index.html" (Some "Missing .md file.") None)
    else if is_missing bib_file
    then ret (render_template "index.html" (Some "Missing .bib file.") None)
    else if is_missing fig_zip
    then ret (render_template "index.html" (Some "Missing figures .zip file.") None)
    else if negb (_allowed (filename (upload md_file)) ALLOWED_MD)
    then ret (render_template "index.html" (Some "Markdown file must be .md.") None)
    else if negb (_allowed (filename (upload bib_file)) ALLOWED_BIB)
    then ret (render_template "index.html" (Some "Bibliography file must be .bib.") None)
    else if negb (_allowed (filename (upload fig_zip)) ALLOWED_ZIP)
    then ret (render_template "index.html" (Some "Figures upload must be a .zip.") None)
    else workspace (upload md_file) (upload bib_file) (upload fig_zip).

(** The five invocations, all in the workspace root and with the same
    environment. *)
Definition pipeline (work paper_dir : Path) : list Invocation :=
  map (fun cmd => {| inv_cmd := cmd; inv_cwd := work;
                     inv_env := conversion_env work paper_dir |})
      [ pandoc_cmd paper_dir ["outputs"];
        pdflatex_cmd ["outputs"];
        bibtex_cmd ["outputs"];
        pdflatex_cmd ["outputs"];
        pdflatex_cmd ["outputs"] ].

End App.

(** ** A concrete platform

    A small stand-in for the collaborators, on which the handler can be
    run: archives are written [name=bytes;name=bytes;...], the tools write
    the files the real ones are run for, and one of them can be made to
    fail. *)
Module Demo.

Definition keep (c : ascii) : bool :=
  let n := nat_of_ascii c in
  ((48 <=? n)%nat && (n <=? 57)%nat) || ((65 <=? n)%nat && (n <=? 90)%nat)
  || ((97 <=? n)%nat && (n <=? 122)%nat)
  || Ascii.eqb c "_" || Ascii.eqb c "." || Ascii.eqb c "-".

Definition is_dot_or_underscore (c : ascii) : bool :=
  Ascii.eqb c "." || Ascii.eqb c "_".

Fixpoint lstrip_by (f : ascii -> bool) (l : list ascii) : list ascii :=
  match l with
  | c :: l' => if f c then lstrip_by f l' else l
  | [] => []
  end.

(** werkzeug's [secure_filename] on ASCII names: separators become
    spaces, the words are joined with underscores, the characters
    outside [[A-Za-z0-9_.-]] are dropped, and dots and underscores are
    stripped from both ends. *)
Definition sanitize (s : string) : string :=
  let spaced := map (fun c => if Ascii.eqb c Str.slash || Str.is_space c
                              then " "%char else c) (Str.chars s) in
  let words := filter (fun x => x <> "") (Str.split " " (Str.of_chars spaced)) in
  let cleaned := List.filter keep (Str.chars (Str.join "_" words)) in
  Str.of_chars (rev (lstrip_by is_dot_or_underscore
                       (rev (lstrip_by is_dot_or_underscore cleaned)))).

Definition unzip_field (field : string) : ZipInfo :=
  match Str.split "=" field with
  | n :: d :: _ => {| zi_filename := n; zi_data := d |}
  | _ => {| zi_filename := field; zi_data := "" |}
  end.

Definition unzip (bytes : string) : option (list ZipInfo) :=
  if Str.starts_with "PK:" bytes
  then Some (map unzip_field
               (filter (fun x => x <> "")
                  (Str.split ";" (substring 3 (String.length bytes) bytes))))
  else None.

Definition tool_writes (pdf : bool) (inv : Invocation) (fs : FS) : FS :=
  match inv_cmd inv with
  | "pandoc" :: _ =>
      <[inv_cwd inv ++ ["outputs"; "paper.tex"] := File "\citep{key}"]> fs
  | "pdflatex" :: _ =>
      if pdf
      then <[inv_cwd inv ++ ["outputs"; "paper.pdf"] := File "%PDF-1.5"]> fs
      else fs
  | _ => fs
  end.

(** The tool named [failing], if any, exits with status 1 and writes
    nothing; the others exit with status 0, and the compiler writes the
    artifact when [pdf] is set. *)
Definition run (failing : option string) (pdf : bool) (inv : Invocation) (w : World)
  : Outcome Completed * FS :=
  let tool := hd "" (inv_cmd inv) in
  if bool_decide (failing = Some tool)
  then (Ok {| returncode := 1; stdout := tool +:+ ": stdout";
              stderr := tool +:+ ": stderr" |}, w_fs w)
  else (Ok {| returncode := 0; stdout := ""; stderr := "" |},
        tool_writes pdf inv (w_fs w)).

Definition platform_with (failing : option string) (pdf : bool) : Platform := {|
  APP_ROOT := ["srv"; "app"];
  environ := {[ "PATH" := "/usr/bin" ]};
  secure_filename := sanitize;
  zip_infolist := unzip;
  subprocess_run := run failing pdf;
  gettempdir := ["tmp"];
  mkdtemp_name := fun _ => "k3x9";
  str_OSError := fun _ p => "OSError: " +:+ PathLib.str p;
  str_CalledProcessError := fun _ cmd =>
    "Command " +:+ hd "" cmd +:+ " returned non-zero exit status."
|}.

Definition platform (failing : option string) : Platform :=
  platform_with failing true.

(** A server with the five assets installed and an empty [/tmp]. *)
Definition disk : FS :=
  list_to_map
    ([ (["tmp"], Dir); (["srv"], Dir); (["srv"; "app"], Dir);
       (["srv"; "app"; "ieee"], Dir) ]
     ++ map (fun a => (["srv"; "app"] // a, File ("asset " +:+ a))) ASSETS).

Definition world : World := {| w_fs := disk; w_calls := [] |}.

Definition post (md bib zip : option FileStorage) : Request :=
  {| req_method := "POST";
     req_files :=
       omap (fun kf : string * option FileStorage =>
               match kf.2 with Some f => Some (kf.1, f) | None => None end)
            [("md_file", md); ("bib_file", bib); ("fig_zip", zip)] |}.

Definition md : FileStorage := {| filename := "paper.md"; stream := "# Title" |}.
Definition bib : FileStorage := {| filename := "my refs.bib"; stream := "@article{key}" |}.
Definition figs : FileStorage :=
  {| filename := "figures.zip"; stream := "PK:plots/a.png=PNG1;b.png=PNG2;" |}.

Definition workdir : Path := ["tmp"; "ieee-convert-k3x9"].

End Demo.

(** ** The vocabulary of the statements *)

(** The test of [_safe_extract_zip] on one member: its resolved destination
    is the resolved destination directory or lies below it. *)
Definition member_safe (fs : FS) (dest : Path) (m : ZipInfo) : bool :=
  PathLib.is_relative_to (resolve fs (dest // zi_filename m)) (resolve fs dest).

(** A computation is quiet when it starts no tool. *)
Definition quiet {A} (m : Py A) : Prop := forall w, w_calls (m w).2 = w_calls w.

Create HintDb quiet.

(** The call completed, with status zero. *)
Definition exits_zero (c : Call) : Prop :=
  exists cp, call_result c = Ok cp /\ returncode cp = 0%Z.

(** The exception [_run] raises for a call, if any: the call completed with
    another status than zero, or it could not be started. *)
Definition failure_of (c : Call) : option exn :=
  match call_result c with
  | Ok cp =>
      if (returncode cp =? 0)%Z then None
      else Some (CalledProcessError (returncode cp) (inv_cmd (call_inv c))
                   (stdout cp) (stderr cp))
  | Raise e => Some e
  end.

(** The calls a fail-fast run through [invs] can leave behind, with its
    outcome: every call but the last one exited with status zero; the run
    ends normally only after all of [invs]; a call that fails is the last
    one and its exception is the outcome; the run may also stop between two
    tools for a reason of its own. *)
Inductive trace : list Invocation -> Outcome unit -> list Call -> Prop :=
| trace_done : trace [] (Ok tt) []
| trace_stop invs e : trace invs (Raise e) []
| trace_zero inv invs cp r new :
    returncode cp = 0%Z ->
    trace invs r new ->
    trace (inv :: invs) r ({| call_inv := inv; call_result := Ok cp |} :: new)
| trace_fail inv invs c e :
    call_inv c = inv ->
    failure_of c = Some e ->
    trace (inv :: invs) (Raise e) [c].

(** Every run of [m] adds to the log calls that make a [trace] of [invs]. *)
Definition traces (m : Py unit) (invs : list Invocation) : Prop :=
  forall w, exists new,
    w_calls (m w).2 = w_calls w ++ new /\ trace invs (m w).1 new.

(** The guards of [index] that come before the workspace. *)
Definition accepted (request : Request) : bool :=
  let md_file := files_get (req_files request) "md_file" in
  let bib_file := files_get (req_files request) "bib_file" in
  let fig_zip := files_get (req_files request) "fig_zip" in
  negb (String.eqb (req_method request) "GET")
  && negb (is_missing md_file) && negb (is_missing bib_file)
  && negb (is_missing fig_zip)
  && _allowed (filename (upload md_file)) ALLOWED_MD
  && _allowed (filename (upload bib_file)) ALLOWED_BIB
  && _allowed (filename (upload fig_zip)) ALLOWED_ZIP.

(** A name that [pathlib] takes as one component. *)
Definition plain_name (s : string) : bool :=
  negb (PathLib.is_absolute s) && bool_decide (PathLib.parse_parts s = [s]).

(** Nothing is at [p], or a regular file is. *)
Definition file_or_absent (fs : FS) (p : Path) : bool :=
  match Os.node_at fs p with
  | None | Some (File _) => true
  | _ => false
  end.

(** The entries [_link_paper_assets] leaves out because of their name. *)
Definition manuscript_or_bibliography (n : string) : Prop :=
  PathLib.suffix_of_name n ∈ [".md"; ".bib"].

(** Nothing is at [p], or a directory is. *)
Definition dir_or_absent (fs : FS) (p : Path) : Prop :=
  match Os.node_at fs p with
  | None | Some Dir => True
  | _ => False
  end.

(** [fs'] is [fs] with some missing directories above [t] made. *)
Definition grown (fs fs' : FS) (t : Path) : Prop :=
  forall p,
    Os.node_at fs' p = Os.node_at fs p
    \/ (Os.node_at fs p = None /\ Os.node_at fs' p = Some Dir /\ p `prefix_of` t).

(** The archives [extractall] gets through: the destination is a directory
    that holds no link; every member names something; on disk and in the
    archive, nothing is a file where a member needs a directory, and
    nothing is a directory where a member is a file. *)
Record extractable (fs : FS) (dest : Path) (members : list ZipInfo) : Prop := {
  ex_dest : forall q, q `prefix_of` dest -> Os.node_at fs q = Some Dir;
  ex_nolink : forall p t, dest `prefix_of` p -> Os.node_at fs p <> Some (Symlink t);
  ex_named : forall m, m ∈ members ->
    Zip.is_dir m = true \/ Zip.arcname_parts (zi_filename m) <> [];
  ex_above : forall m q d, m ∈ members ->
    q `prefix_of` Zip.target dest m -> q <> Zip.target dest m ->
    Os.node_at fs q <> Some (File d);
  ex_file : forall m, m ∈ members -> Zip.is_dir m = false ->
    Os.node_at fs (Zip.target dest m) <> Some Dir;
  ex_dir : forall m d, m ∈ members -> Zip.is_dir m = true ->
    Os.node_at fs (Zip.target dest m) <> Some (File d);
  ex_pairs : forall m m', m ∈ members -> m' ∈ members -> Zip.is_dir m' = false ->
    Zip.target dest m' `prefix_of` Zip.target dest m ->
    Zip.target dest m' = Zip.target dest m /\ Zip.is_dir m = false
}.

(** What a member leaves at its target. *)
Definition extracted (m : ZipInfo) : node :=
  if Zip.is_dir m then Dir else File (zi_data m).

(** A prefix of a path is one of its initial segments. *)
Fixpoint inits (l : Path) : list Path :=
  [] :: match l with
        | [] => []
        | x :: l' => map (cons x) (inits l')
        end.

(** The kinds of nodes, as tests. *)
Definition is_link (x : node) : bool :=
  match x with Symlink _ => true | _ => false end.

Definition is_file (x : option node) : bool :=
  match x with Some (File _) => true | _ => false end.

(** [extractable], decided by computation. *)
Definition member_check (fs : FS) (dest : Path) (members : list ZipInfo) (m : ZipInfo)
  : bool :=
  let t := Zip.target dest m in
  (Zip.is_dir m || negb (bool_decide (Zip.arcname_parts (zi_filename m) = [])))
  && forallb (fun q => bool_decide (q = t) || negb (is_file (Os.node_at fs q))) (inits t)
  && (if Zip.is_dir m then negb (is_file (Os.node_at fs t))
      else negb (bool_decide (Os.node_at fs t = Some Dir)))
  && forallb (fun m' =>
                Zip.is_dir m'
                || negb (bool_decide (Zip.target dest m' `prefix_of` t))
                || (bool_decide (Zip.target dest m' = t) && negb (Zip.is_dir m)))
             members.

Definition extractable_check (fs : FS) (dest : Path) (members : list ZipInfo) : bool :=
  forallb (fun q => bool_decide (Os.node_at fs q = Some Dir)) (inits dest)
  && bool_decide (map_Forall (fun p x => dest `prefix_of` p -> is_link x = false) fs)
  && forallb (member_check fs dest members) members.

(** The workspace holds no link, and its manuscript directory is a
    directory in which nothing is a directory. *)
Record staging (work : Path) (fs : FS) : Prop := {
  st_dir : Os.node_at fs (work ++ ["paperFiles"]) = Some Dir;
  st_flat : forall n, Os.node_at fs (work ++ ["paperFiles"; n]) <> Some Dir;
  st_nolink : forall p t, work `prefix_of` p -> Os.node_at fs p <> Some (Symlink t)
}.

(** Two paths of different lengths are different. *)
Ltac length_absurd H :=
  apply (f_equal (@length string)) in H;
  repeat rewrite length_app in H; simpl in H; lia.

(** A path is not an initial segment of another: decided by computation. *)
Ltac not_prefix :=
  match goal with
  | |- ?p `prefix_of` ?t -> False =>
      apply (bool_decide_eq_false_1 (p `prefix_of` t)); vm_compute; reflexivity
  | |- ~ ?p `prefix_of` ?t =>
      apply (bool_decide_eq_false_1 (p `prefix_of` t)); vm_compute; reflexivity
  end.

(** The body of the loop of [_copy_assets], for the statements about one
    asset. *)
Section Loops.

Context {P : Platform}.

Definition copy_asset (dest : Path) (name : string) : Py unit :=
  let src := APP_ROOT // name in
  src_exists <- fs_test (fun fs => Os.exists_ fs src) ;;
  if negb src_exists
  then raise (FileNotFoundError ("Missing required asset: " +:+ name))
  else
    let target := dest // name in
    fs_do (Os.makedirs (PathLib.parent target)) ;;
    fs_do (Os.copy src target).

End Loops.


(** Every run of [m] adds to the log the calls of a fail-fast run through
    [invs], and all of [invs] have exited with status zero when it ends
    normally. *)
Definition starts {A} (m : Py A) (invs : list Invocation) : Prop :=
  forall w, exists new,
    w_calls (m w).2 = w_calls w ++ new
    /\ (exists r, trace invs r new)
    /\ (forall a, (m w).1 = Ok a -> map call_inv new = invs /\ Forall exits_zero new).

(** A path of the workspace: [work] followed by components none of which
    begins with a slash. *)
Definition inside (work p : Path) : Prop :=
  exists rest, p = work ++ rest /\ Forall (fun c => PathLib.is_absolute c = false) rest.

(** A disk that differs from [fs0] in the workspace only, where every
    entry has a path of the workspace and every link points at one. *)
Record confined (work : Path) (fs0 fs : FS) : Prop := {
  cf_outside : forall p, ~ work `prefix_of` p -> Os.node_at fs p = Os.node_at fs0 p;
  cf_inside : forall p x, work `prefix_of` p -> Os.node_at fs p = Some x ->
    inside work p /\ forall t, x = Symlink t -> inside work t
}.

(** A computation that keeps a property of the disk, however it ends. *)
Definition keeps {A : Type} (I : FS -> Prop) (m : Py A) : Prop :=
  forall w, I (w_fs w) -> I (w_fs (m w).2).

Create HintDb keeps.

(** The statements of [_run_conversion] between pandoc and the first run
    of the compiler: lines 89 to 97. *)
Definition before_latex (work paper_dir : Path) : Py unit :=
  let out_dir := work ++ ["outputs"] in
  let tex_path := out_dir // "paper.tex" in
  text <- fs_get (fun fs => Os.read_file fs tex_path) ;;
  fs_do (Os.write_file tex_path (Str.replace "\citep" "\cite" text)) ;;
  for_ ["aux"; "bbl"; "blg"; "out"; "log"; "pdf"] (fun ext =>
    fs_do (Os.unlink true (out_dir // ("paper." +:+ ext)))) ;;
  bibs <- glob_star paper_dir ".bib" ;;
  for_ bibs (fun bib => fs_do (Os.copy bib (out_dir // PathLib.name bib))).

(** ** Concrete worlds to run the handler on *)

(** Two trees compared by computation. *)
Definition same_disk (a b : FS) : bool := bool_decide (a = b).

(** A workspace in which the uploads have been staged and the figure
    archive [archive] waits to be extracted. *)
Definition staged_disk (archive : string) : FS :=
  <[Demo.workdir ++ ["figures.zip"] := File archive]>
    (<[Demo.workdir ++ ["paperFiles"; "library.bib"] := File "@article{key}"]>
       (<[Demo.workdir ++ ["paperFiles"; "paper.md"] := File "# Title"]>
          (<[Demo.workdir ++ ["paperFiles"] := Dir]>
             (<[Demo.workdir := Dir]> Demo.disk)))).

Definition staged_world (archive : string) : World :=
  {| w_fs := staged_disk archive; w_calls := [] |}.

(** The staged workspace after the figure archive has been extracted. *)
Definition extracted_disk : FS :=
  <[Demo.workdir ++ ["paperFiles"; "b.png"] := File "PNG2"]>
    (<[Demo.workdir ++ ["paperFiles"; "plots"; "a.png"] := File "PNG1"]>
       (<[Demo.workdir ++ ["paperFiles"; "plots"] := Dir]>
          (<[Demo.workdir ++ ["ieee"] := Dir]>
             (staged_disk "PK:plots/a.png=PNG1;b.png=PNG2;")))).

Definition extracted_world : World := {| w_fs := extracted_disk; w_calls := [] |}.

(** The workspace when the manuscript has been saved and the bibliography
    has not. *)
Definition manuscript_world : World :=
  {| w_fs := <[Demo.workdir ++ ["paperFiles"; "paper.md"] := File "# Title"]>
               (<[Demo.workdir ++ ["paperFiles"] := Dir]>
                  (<[Demo.workdir := Dir]> Demo.disk));
     w_calls := [] |}.

(** A platform whose sanitizer keeps no character at all. *)
Definition blank_platform : Platform := {|
  APP_ROOT := ["srv"; "app"];
  environ := ∅;
  secure_filename := fun _ => "";
  zip_infolist := Demo.unzip;
  subprocess_run := Demo.run None true;
  gettempdir := ["tmp"];
  mkdtemp_name := fun _ => "k3x9";
  str_OSError := fun _ p => PathLib.str p;
  str_CalledProcessError := fun _ cmd => hd "" cmd
|}.

(** A manuscript directory with a figure, the manuscript, a bibliography,
    a hidden file called [.bib] and a file called [ieee], which is also the
    name of the asset directory at the workspace root. *)
Definition linking_world : World :=
  {| w_fs :=
       <[Demo.workdir ++ ["paperFiles"; "ieee"] := File "notes"]>
         (<[Demo.workdir ++ ["paperFiles"; ".bib"] := File "@misc{hidden}"]>
            (<[Demo.workdir ++ ["paperFiles"; "fig.png"] := File "PNG"]>
               (<[Demo.workdir ++ ["ieee"] := Dir]>
                  (staged_disk "PK:"))));
     w_calls := [] |}.



(** * Verification *)

(** ** The model at work *)

Example split_ex : Str.split Str.slash "a//b/./c/" = ["a"; ""; "b"; "."; "c"; ""].
Proof. reflexivity. Qed.

Example strip_ex : Str.strip (String "010" " out" +:+ String "010" "") = "out".
Proof. reflexivity. Qed.

Example replace_ex :
  Str.replace "\citep" "\cite" "a \citep{x} \citepp \cite{y}" = "a \cite{x} \citep \cite{y}".
Proof. reflexivity. Qed.

Example joinpath_rel : ["tmp"; "w"] // "figs/../a.png" = ["tmp"; "w"; "figs"; ".."; "a.png"].
Proof. reflexivity. Qed.

Example joinpath_abs : ["tmp"; "w"] // "/etc/passwd" = ["etc"; "passwd"].
Proof. reflexivity. Qed.

Example suffix_md : PathLib.suffix_of_name "paper.md" = ".md".
Proof. reflexivity. Qed.

Example suffix_hidden : PathLib.suffix_of_name ".md" = "".
Proof. reflexivity. Qed.

Example suffix_two : PathLib.suffix_of_name "a.tar.bib" = ".bib".
Proof. reflexivity. Qed.

Example resolve_dotdot :
  resolve ∅ (["tmp"; "w"; "paperFiles"] // "figs/../../evil.txt") = ["tmp"; "w"; "evil.txt"].
Proof. reflexivity. Qed.

Example resolve_link :
  resolve {[ ["tmp"; "l"] := Symlink ["etc"] ]} ["tmp"; "l"; "passwd"] = ["etc"; "passwd"].
Proof. vm_compute. reflexivity. Qed.

Example allowed_upper : _allowed "Refs.v2.BIB" ALLOWED_BIB = true.
Proof. reflexivity. Qed.

Example allowed_none : _allowed "bib" ALLOWED_BIB = false.
Proof. reflexivity. Qed.

Example demo_secure_filename :
  map Demo.sanitize ["my refs.bib"; "../../etc/passwd.bib"; "__.bib"; "..."]
  = ["my_refs.bib"; "etc_passwd.bib"; "bib"; ""].
Proof. vm_compute. reflexivity. Qed.

Example demo_unzip :
  Demo.unzip "PK:plots/a.png=PNG1;b.png=PNG2;"
  = Some [ {| zi_filename := "plots/a.png"; zi_data := "PNG1" |};
           {| zi_filename := "b.png"; zi_data := "PNG2" |} ].
Proof. vm_compute. reflexivity. Qed.

(** The whole request on the concrete platform: the artifact comes back
    and the five tools have run in order. *)
Example demo_success :
  let '(r, w) := @index (Demo.platform None)
                   (Demo.post (Some Demo.md) (Some Demo.bib) (Some Demo.figs)) Demo.world in
  r = Ok (send_file "%PDF-1.5" "application/pdf" true "paper.pdf")
  /\ map (fun c => hd "" (inv_cmd (call_inv c))) (w_calls w)
     = ["pandoc"; "pdflatex"; "bibtex"; "pdflatex"; "pdflatex"]
  /\ same_disk (w_fs w) Demo.disk = true.
Proof. vm_compute. repeat split; reflexivity. Qed.

(** ** The monad *)

Lemma bind_ok {A B} (m : Py A) (k : A -> Py B) w a w' :
  m w = (Ok a, w') -> bind m k w = k a w'.
Proof. intros H. unfold bind. rewrite H. reflexivity. Qed.

Lemma bind_raise {A B} (m : Py A) (k : A -> Py B) w e w' :
  m w = (Raise e, w') -> bind m k w = (Raise e, w').
Proof. intros H. unfold bind. rewrite H. reflexivity. Qed.

Lemma for_app {A} (l1 l2 : list A) (body : A -> Py unit) w :
  for_ (l1 ++ l2) body w
  = match for_ l1 body w with
    | (Ok _, w') => for_ l2 body w'
    | (Raise e, w') => (Raise e, w')
    end.
Proof.
  revert w. induction l1 as [|x l1 IH]; intros w; simpl.
  - reflexivity.
  - unfold bind. destruct (body x w) as [[[]|e] w']; [apply IH | reflexivity].
Qed.

(** ** C9: the missing-upload messages *)

Section Validation.

Context {P : Platform}.

(** C9. A request that is not a GET and lacks an upload (the field is
    absent or its file name is empty) is answered with the message that
    names the first upload that is missing, in the order manuscript,
    bibliography, figure archive; so each upload that is missing alone
    gets its own message.  Nothing is changed on disk. *)
Theorem missing_upload_messages (request : Request) (w : World) :
  String.eqb (req_method request) "GET" = false ->
  let md_file := files_get (req_files request) "md_file" in
  let bib_file := files_get (req_files request) "bib_file" in
  let fig_zip := files_get (req_files request) "fig_zip" in
  (is_missing md_file = true ->
   index request w
   = (Ok (render_template "index.html" (Some "Missing .md file.") None), w))
  /\ (is_missing md_file = false -> is_missing bib_file = true ->
      index request w
      = (Ok (render_template "index.html" (Some "Missing .bib file.") None), w))
  /\ (is_missing md_file = false -> is_missing bib_file = false ->
      is_missing fig_zip = true ->
      index request w
      = (Ok (render_template "index.html" (Some "Missing figures .zip file.") None), w)).
Proof.
  intros Hpost md_file bib_file fig_zip. unfold index. rewrite Hpost.
  fold md_file bib_file fig_zip.
  repeat split.
  - intros ->. reflexivity.
  - intros -> ->. reflexivity.
  - intros -> -> ->. reflexivity.
Qed.

End Validation.

Lemma missing_upload_messages_witness :
  let P := Demo.platform None in
  index (Demo.post None (Some Demo.bib) (Some Demo.figs)) Demo.world
  = (Ok (render_template "index.html" (Some "Missing .md file.") None), Demo.world)
  /\ index (Demo.post (Some Demo.md) None (Some Demo.figs)) Demo.world
     = (Ok (render_template "index.html" (Some "Missing .bib file.") None), Demo.world)
  /\ index (Demo.post (Some Demo.md) (Some Demo.bib)
              (Some {| filename := ""; stream := "PK:" |})) Demo.world
     = (Ok (render_template "index.html" (Some "Missing figures .zip file.") None),
        Demo.world).
Proof.
  intros P. split; [|split].
  - apply (missing_upload_messages
             (Demo.post None (Some Demo.bib) (Some Demo.figs)) Demo.world);
      reflexivity.
  - apply (missing_upload_messages
             (Demo.post (Some Demo.md) None (Some Demo.figs)) Demo.world);
      reflexivity.
  - apply (missing_upload_messages
             (Demo.post (Some Demo.md) (Some Demo.bib)
                (Some {| filename := ""; stream := "PK:" |})) Demo.world);
      reflexivity.
Defined.

(** ** C1: an archive with an unsafe entry is rejected whole *)

Section SafeExtract.

Context {P : Platform}.

Lemma check_member_safe dest m w :
  member_safe (w_fs w) dest m = true ->
  check_member dest (resolve (w_fs w) dest) m w = (Ok tt, w).
Proof.
  intros H. unfold check_member, bind, fs_get. simpl.
  unfold member_safe in H. rewrite H. reflexivity.
Qed.

Lemma check_member_unsafe dest m w :
  member_safe (w_fs w) dest m = false ->
  check_member dest (resolve (w_fs w) dest) m w
  = (Raise (ValueError unsafe_path_message), w).
Proof.
  intros H. unfold check_member, bind, fs_get. simpl.
  unfold member_safe in H. rewrite H. reflexivity.
Qed.

(** The checking loop never writes: it ends in the world it started in,
    normally when every member is safe and with the error at the first
    member that is not. *)
Lemma check_loop dest members w :
  for_ members (check_member dest (resolve (w_fs w) dest)) w
  = (if forallb (member_safe (w_fs w) dest) members
     then Ok tt else Raise (ValueError unsafe_path_message), w).
Proof.
  induction members as [|m members IH]; simpl; [reflexivity|].
  destruct (member_safe (w_fs w) dest m) eqn:Hm; simpl.
  - erewrite bind_ok by (apply check_member_safe; exact Hm). exact IH.
  - erewrite bind_raise by (apply check_member_unsafe; exact Hm). reflexivity.
Qed.

Lemma safe_extract_unfold zip_path dest w bytes members :
  Os.read_file (w_fs w) zip_path = Ok bytes ->
  zip_infolist bytes = Some members ->
  _safe_extract_zip zip_path dest w
  = if forallb (member_safe (w_fs w) dest) members
    then Zip.extractall members dest w
    else (Raise (ValueError unsafe_path_message), w).
Proof.
  intros Hread Hzip. unfold _safe_extract_zip.
  unfold bind at 1. unfold fs_get at 1. simpl.
  unfold bind at 1. unfold ZipFile, bind at 1, fs_get. rewrite Hread, Hzip.
  unfold ret at 1. unfold bind. rewrite check_loop.
  destruct (forallb _ _); reflexivity.
Qed.

(** C1. When the archive at [zip_path] has an entry whose resolved
    destination is not inside the resolved destination directory,
    [_safe_extract_zip] raises the unsafe-path [ValueError] and leaves
    the world exactly as it found it: every entry is checked before any
    is extracted, so no file of the archive is written. *)
Theorem unsafe_archive_rejected zip_path dest w bytes members m :
  Os.read_file (w_fs w) zip_path = Ok bytes ->
  zip_infolist bytes = Some members ->
  m ∈ members ->
  PathLib.is_relative_to (resolve (w_fs w) (dest // zi_filename m))
                         (resolve (w_fs w) dest) = false ->
  _safe_extract_zip zip_path dest w
  = (Raise (ValueError "Zip file contains an unsafe path."), w).
Proof.
  intros Hread Hzip Hin Hout.
  rewrite (safe_extract_unfold _ _ _ _ _ Hread Hzip).
  destruct (forallb _ _) eqn:Hall; [|reflexivity].
  rewrite forallb_forall in Hall.
  apply list_elem_of_In in Hin. specialize (Hall m Hin).
  unfold member_safe in Hall. congruence.
Qed.

End SafeExtract.

Lemma unsafe_archive_rejected_witness :
  @_safe_extract_zip (Demo.platform None)
    (Demo.workdir ++ ["figures.zip"]) (Demo.workdir ++ ["paperFiles"])
    (staged_world "PK:ok.png=fine;../evil.txt=nope;")
  = (Raise (ValueError "Zip file contains an unsafe path."),
     staged_world "PK:ok.png=fine;../evil.txt=nope;").
Proof.
  apply (@unsafe_archive_rejected (Demo.platform None) _ _ _
           "PK:ok.png=fine;../evil.txt=nope;"
           [ {| zi_filename := "ok.png"; zi_data := "fine" |};
             {| zi_filename := "../evil.txt"; zi_data := "nope" |} ]
           {| zi_filename := "../evil.txt"; zi_data := "nope" |}).
  - vm_compute. reflexivity.
  - vm_compute. reflexivity.
  - apply list_elem_of_In. simpl. right. left. reflexivity.
  - vm_compute. reflexivity.
Defined.

(** The request of [test_zip_path_traversal_rejected]: the answer carries
    the message, and the disk is what it was before the request. *)
Example demo_traversal :
  let '(r, w) :=
    @index (Demo.platform None)
      (Demo.post (Some Demo.md) (Some Demo.bib)
         (Some {| filename := "figures.zip"; stream := "PK:../evil.txt=nope;" |}))
      Demo.world in
  r = Ok (render_template "index.html" (Some "Zip file contains an unsafe path.")
            (Some ""))
  /\ same_disk (w_fs w) Demo.disk = true.
Proof. vm_compute. split; reflexivity. Qed.

(** ** C4: the pipeline runs its five tools in order and stops at the first failure *)

Lemma quiet_ret {A} (a : A) : quiet (ret a).
Proof. intros w. reflexivity. Qed.

Lemma quiet_raise {A} (e : exn) : quiet (@raise A e).
Proof. intros w. reflexivity. Qed.

Lemma quiet_bind {A B} (m : Py A) (k : A -> Py B) :
  quiet m -> (forall a, quiet (k a)) -> quiet (bind m k).
Proof.
  intros Hm Hk w. unfold bind. specialize (Hm w).
  destruct (m w) as [[a|e] w1]; simpl in *.
  - rewrite (Hk a w1). exact Hm.
  - exact Hm.
Qed.

Lemma quiet_fs_do op : quiet (fs_do op).
Proof. intros w. unfold fs_do. destruct (op (w_fs w)); reflexivity. Qed.

Lemma quiet_fs_get {A} (op : FS -> Outcome A) : quiet (fs_get op).
Proof. intros w. unfold fs_get. destruct (op (w_fs w)); reflexivity. Qed.

Lemma quiet_fs_test op : quiet (fs_test op).
Proof. intros w. reflexivity. Qed.

Lemma quiet_for {A} (l : list A) (body : A -> Py unit) :
  (forall x, quiet (body x)) -> quiet (for_ l body).
Proof.
  intros Hbody. induction l as [|x l IH]; simpl.
  - apply quiet_ret.
  - apply quiet_bind; [apply Hbody | intros _; exact IH].
Qed.

Lemma quiet_try_finally {A} (body : Py A) (fin : Py unit) :
  quiet body -> quiet fin -> quiet (try_finally body fin).
Proof.
  intros Hb Hf w. unfold try_finally. specialize (Hb w).
  destruct (body w) as [r w1]. specialize (Hf w1).
  destruct (fin w1) as [[[]|e] w2]; simpl in *; congruence.
Qed.

#[local] Hint Resolve quiet_ret quiet_raise quiet_fs_do quiet_fs_get quiet_fs_test : quiet.

Lemma traces_quiet_bind {A} (q : Py A) (k : A -> Py unit) invs :
  quiet q -> (forall a, traces (k a) invs) -> traces (bind q k) invs.
Proof.
  intros Hq Hk w. unfold bind. specialize (Hq w).
  destruct (q w) as [[a|e] w1]; simpl in *.
  - destruct (Hk a w1) as (new & Hcalls & Htrace).
    exists new. rewrite Hcalls, Hq. split; [reflexivity | exact Htrace].
  - exists []. rewrite Hq, app_nil_r. split; [reflexivity | constructor].
Qed.

Section Pipeline.

Context {P : Platform}.

Lemma traces_run_bind cmd cwd env (rest : Py unit) invs :
  traces rest invs ->
  traces (_run cmd cwd env ;; rest)
         ({| inv_cmd := cmd; inv_cwd := cwd; inv_env := env |} :: invs).
Proof.
  intros Hrest w. unfold bind, _run.
  destruct (subprocess_run _ w) as [[cp|e] fs'].
  - destruct (returncode cp =? 0)%Z eqn:Hrc.
    + match goal with |- context [rest ?w1] => destruct (Hrest w1) as (new & Hcalls & Htrace) end.
      eexists. rewrite Hcalls. simpl. rewrite <- app_assoc. split; [reflexivity|].
      simpl. apply trace_zero; [apply Z.eqb_eq; exact Hrc | exact Htrace].
    + eexists. split; [reflexivity|]. simpl.
      apply trace_fail; [reflexivity|]. unfold failure_of. simpl. rewrite Hrc. reflexivity.
  - eexists. split; [reflexivity|]. simpl. apply trace_fail; reflexivity.
Qed.

Lemma traces_run cmd cwd env :
  traces (_run cmd cwd env) [{| inv_cmd := cmd; inv_cwd := cwd; inv_env := env |}].
Proof.
  intros w.
  destruct (traces_run_bind cmd cwd env (ret tt) []
              (fun w => ex_intro _ [] (conj (eq_sym (app_nil_r _)) trace_done)) w)
    as (new & Hcalls & Htrace).
  exists new. revert Hcalls Htrace. unfold bind, ret.
  destruct (_run cmd cwd env w) as [[[]|e] w1]; simpl; auto.
Qed.

Lemma quiet_glob_star d ext : quiet (glob_star d ext).
Proof. intros w. unfold glob_star. destruct (Os.listdir (w_fs w) d); reflexivity. Qed.

Lemma run_conversion_traces work paper_dir :
  traces (_run_conversion work paper_dir) (pipeline work paper_dir).
Proof.
  unfold _run_conversion, pipeline. cbn [map].
  apply traces_quiet_bind; [auto with quiet | intros _].
  apply traces_run_bind.
  apply traces_quiet_bind; [auto with quiet | intros text].
  apply traces_quiet_bind; [auto with quiet | intros _].
  apply traces_quiet_bind; [apply quiet_for; auto with quiet | intros _].
  apply traces_quiet_bind; [apply quiet_glob_star | intros bibs].
  apply traces_quiet_bind; [apply quiet_for; auto with quiet | intros _].
  apply traces_run_bind, traces_run_bind, traces_run_bind, traces_run.
Qed.

End Pipeline.

Lemma exits_zero_no_failure c : exits_zero c -> failure_of c = None.
Proof.
  intros (cp & Hres & Hrc). unfold failure_of. rewrite Hres, Hrc. reflexivity.
Qed.

Lemma trace_prefix invs r new :
  trace invs r new ->
  (length new <= length invs)%nat /\ map call_inv new = take (length new) invs.
Proof.
  induction 1 as [| |inv invs cp r new Hrc _ [IHlen IHmap]|inv invs c e Hinv _]; simpl.
  - split; [lia | reflexivity].
  - split; [lia | reflexivity].
  - split; [lia | rewrite IHmap; reflexivity].
  - split; [lia | rewrite Hinv; reflexivity].
Qed.

Lemma trace_ok invs new :
  trace invs (Ok tt) new -> map call_inv new = invs /\ Forall exits_zero new.
Proof.
  intros H. remember (Ok tt) as r eqn:Hr.
  induction H as [| |inv invs cp r new Hrc _ IH|]; try discriminate.
  - split; constructor.
  - destruct (IH Hr) as [Hmap Hall]. split.
    + simpl. rewrite Hmap. reflexivity.
    + constructor; [exists cp; split; [reflexivity | exact Hrc] | exact Hall].
Qed.

Lemma trace_last invs r new pre c :
  trace invs r new ->
  new = pre ++ [c] ->
  Forall exits_zero pre /\ forall e, failure_of c = Some e -> r = Raise e.
Proof.
  intros H. revert pre.
  induction H as [| |inv invs cp r new Hrc Htr IH|inv invs c0 e0 Hinv Hfail]; intros pre Heq.
  - destruct pre; discriminate.
  - destruct pre; discriminate.
  - destruct pre as [|c1 pre]; simpl in Heq.
    + injection Heq as <- ->. split; [constructor|].
      intros e. unfold failure_of. simpl. rewrite Hrc. discriminate.
    + injection Heq as <- ->. destruct (IH pre eq_refl) as [Hall Hlast]. split.
      * constructor; [exists cp; split; [reflexivity | exact Hrc] | exact Hall].
      * exact Hlast.
  - destruct pre as [|c1 pre]; simpl in Heq.
    + injection Heq as <-. split; [constructor|]. intros e He. congruence.
    + destruct pre; discriminate.
Qed.

Section PipelineClaim.

Context {P : Platform}.



End PipelineClaim.

(** The request with a failing bibliography tool: three tools have run,
    the answer carries the two streams of the third, and the workspace is
    gone. *)
Example demo_tool_failure :
  let '(r, w) := @index (Demo.platform (Some "bibtex"))
                   (Demo.post (Some Demo.md) (Some Demo.bib) (Some Demo.figs)) Demo.world in
  r = Ok (render_template "index.html"
            (Some "Command bibtex returned non-zero exit status.")
            (Some ("bibtex: stdout" +:+ String "010" "" +:+ "bibtex: stderr")))
  /\ map (fun c => hd "" (inv_cmd (call_inv c))) (w_calls w)
     = ["pandoc"; "pdflatex"; "bibtex"]
  /\ same_disk (w_fs w) Demo.disk = true.
Proof. vm_compute. repeat split; reflexivity. Qed.

(** ** C8: the links are removed after the pipeline, whatever its outcome *)

Lemma unlink_present fs l :
  Os.node_at fs l <> Some Dir ->
  Os.unlink true l fs = Ok (delete l fs).
Proof.
  intros Hnd. unfold Os.unlink.
  destruct (Os.node_at fs l) as [[d| |t]|] eqn:Hl; try reflexivity; [congruence|].
  destruct l as [|c l]; [discriminate|]. simpl in Hl.
  rewrite delete_id by exact Hl. reflexivity.
Qed.

Lemma remove_links_spec links w :
  (forall l, l ∈ links -> Os.node_at (w_fs w) l <> Some Dir) ->
  exists fs',
    remove_links links w = (Ok tt, set_fs w fs')
    /\ (forall l, l ∈ links -> fs' !! l = None)
    /\ (forall p, p ∉ links -> fs' !! p = w_fs w !! p).
Proof.
  revert w. induction links as [|x links IH]; intros w Hnd.
  - exists (w_fs w). destruct w. split; [reflexivity|]. split; [|reflexivity].
    intros l Hl. inversion Hl.
  - assert (Hx : x <> []).
    { intros ->. apply (Hnd []); [left | reflexivity]. }
    destruct (IH (set_fs w (delete x (w_fs w)))) as (fs' & Hrun & Hgone & Hkeep).
    { intros l Hl. simpl. destruct l as [|c l]; simpl.
      - intros _. apply (Hnd []); [right; exact Hl | reflexivity].
      - destruct (decide (x = c :: l)) as [->|Hne].
        + rewrite lookup_delete_eq. discriminate.
        + rewrite lookup_delete_ne by exact Hne.
          apply (Hnd (c :: l)). right. exact Hl. }
    exists fs'. split; [|split].
    + unfold remove_links in *. simpl. unfold bind at 1, fs_do at 1.
      rewrite unlink_present by (apply Hnd; left). exact Hrun.
    + intros l Hl. destruct (decide (l ∈ links)) as [Hin|Hnin]; [apply Hgone; exact Hin|].
      apply elem_of_cons in Hl as [->|Hl]; [|contradiction].
      rewrite Hkeep by exact Hnin. simpl. apply lookup_delete_eq.
    + intros p Hp. apply not_elem_of_cons in Hp as [Hpx Hp].
      rewrite Hkeep by exact Hp. simpl. apply lookup_delete_ne. congruence.
Qed.

Section Links.

Context {P : Platform}.

(** C8. Let [links] be the links [_link_paper_assets] has made.  Whether
    the pipeline then ends normally or with an exception, the block of
    lines 195 to 200 ends with the outcome of the pipeline and with every
    one of the links gone, nothing else on disk being touched (the
    workspace itself is still there: the links are removed by the
    [finally], not by the removal of the workspace).  The removal is an
    [unlink], so it is assumed that the tools have not put a directory
    where a link was. *)
Theorem links_removed work paper_dir w links :
  (_link_paper_assets paper_dir work w).1 = Ok links ->
  let w0 := (_link_paper_assets paper_dir work w).2 in
  let r1 := (_run_conversion work paper_dir w0).1 in
  let w1 := (_run_conversion work paper_dir w0).2 in
  (forall l, l ∈ links -> Os.node_at (w_fs w1) l <> Some Dir) ->
  exists fs2,
    linked_conversion work paper_dir w = (r1, set_fs w1 fs2)
    /\ (forall l, l ∈ links -> fs2 !! l = None)
    /\ (forall p, p ∉ links -> fs2 !! p = w_fs w1 !! p).
Proof.
  intros Hlinks w0 r1 w1 Hnd.
  destruct (remove_links_spec links w1 Hnd) as (fs2 & Hrun & Hgone & Hkeep).
  exists fs2. split; [|split; assumption].
  unfold linked_conversion, bind. subst w0 r1 w1.
  destruct (_link_paper_assets paper_dir work w) as [r0 w0]. simpl in *. subst r0.
  unfold try_finally.
  destruct (_run_conversion work paper_dir w0) as [r1 w1]. simpl in *.
  rewrite Hrun. reflexivity.
Qed.

End Links.

Lemma links_removed_witness :
  let P := Demo.platform (Some "pdflatex") in
  let work := Demo.workdir in
  let paper_dir := Demo.workdir ++ ["paperFiles"] in
  let links := [work ++ ["plots"]; work ++ ["b.png"]] in
  let w0 := (_link_paper_assets paper_dir work extracted_world).2 in
  exists fs2,
    linked_conversion work paper_dir extracted_world
    = ((_run_conversion work paper_dir w0).1,
       set_fs (_run_conversion work paper_dir w0).2 fs2)
    /\ (forall l, l ∈ links -> fs2 !! l = None)
    /\ (forall p, p ∉ links ->
        fs2 !! p = w_fs (_run_conversion work paper_dir w0).2 !! p).
Proof.
  intros P work paper_dir links w0.
  apply (@links_removed P work paper_dir extracted_world links).
  - vm_compute. reflexivity.
  - intros l Hl. apply list_elem_of_In in Hl. simpl in Hl.
    destruct Hl as [<-|[<-|[]]]; vm_compute; discriminate.
Defined.

(** On that workspace the first compile pass fails: the outcome is its
    exception, and no link is left although the tools after it never ran. *)
Example demo_links_removed_on_failure :
  let P := Demo.platform (Some "pdflatex") in
  let '(r, w) := linked_conversion Demo.workdir (Demo.workdir ++ ["paperFiles"])
                   extracted_world in
  r = Raise (CalledProcessError 1 (pdflatex_cmd ["outputs"])
               "pdflatex: stdout" "pdflatex: stderr")
  /\ map (fun p => w_fs w !! p) [Demo.workdir ++ ["plots"]; Demo.workdir ++ ["b.png"]]
     = [None; None]
  /\ w_fs w !! Demo.workdir = Some Dir.
Proof. vm_compute. repeat split; reflexivity. Qed.

(** ** C3: the workspace is gone when the request completes *)

Lemma rmtree_below p q fs : p `prefix_of` q -> Os.rmtree p fs !! q = None.
Proof.
  intros Hpre. unfold Os.rmtree. apply map_lookup_filter_None. right.
  intros x _ Hnot. apply Hnot. exact Hpre.
Qed.

Lemma rmtree_elsewhere p q fs : ~ p `prefix_of` q -> Os.rmtree p fs !! q = fs !! q.
Proof.
  intros Hpre. unfold Os.rmtree.
  destruct (fs !! q) as [x|] eqn:Hq.
  - apply map_lookup_filter_Some. split; [exact Hq | exact Hpre].
  - apply map_lookup_filter_None. left. exact Hq.
Qed.

Lemma absent_not_exists fs p : p <> [] -> fs !! p = None -> Os.exists_ fs p = false.
Proof.
  intros Hp Hnone. unfold Os.exists_, Os.max_hops. simpl.
  destruct p as [|c p]; [congruence|]. simpl. rewrite Hnone. simpl. rewrite Hnone.
  reflexivity.
Qed.

Section Workspace.

Context {P : Platform}.

Lemma index_accepted request w :
  accepted request = true ->
  index request w
  = workspace (upload (files_get (req_files request) "md_file"))
              (upload (files_get (req_files request) "bib_file"))
              (upload (files_get (req_files request) "fig_zip")) w.
Proof.
  unfold accepted, index. intros H.
  repeat (apply andb_prop in H as [H ?]).
  repeat match goal with
         | Hb : negb ?b = true |- _ => apply negb_true_iff in Hb; rewrite Hb
         | Hb : _allowed _ _ = true |- _ => rewrite Hb
         end.
  reflexivity.
Qed.

Lemma with_TemporaryDirectory_cleans {A} prefix (body : Path -> Py A) w fs1 :
  Os.mkdir (mkdtemp_path prefix w) (w_fs w) = Ok fs1 ->
  forall p, mkdtemp_path prefix w `prefix_of` p ->
    w_fs (with_TemporaryDirectory prefix body w).2 !! p = None.
Proof.
  intros Hmk p Hp. unfold with_TemporaryDirectory. rewrite Hmk.
  destruct (body _ _) as [r w2]. simpl. apply rmtree_below. exact Hp.
Qed.

(** C3. Take a request that passes the guards of [index] and for which the
    workspace directory could be made.  When [index] returns (with a
    response or with an exception that it does not handle, so on every
    exit: success, a missing asset, an unsafe archive, a tool that fails,
    a missing artifact) nothing is left on disk at the path of the
    workspace or below it, whatever the tools did. *)
Theorem workspace_removed request w fs1 :
  accepted request = true ->
  let tmpdir := mkdtemp_path "ieee-convert-" w in
  Os.mkdir tmpdir (w_fs w) = Ok fs1 ->
  let w' := (index request w).2 in
  (forall p, tmpdir `prefix_of` p -> w_fs w' !! p = None)
  /\ Os.exists_ (w_fs w') tmpdir = false.
Proof.
  intros Hacc tmpdir Hmk w'.
  assert (Hgone : forall p, tmpdir `prefix_of` p -> w_fs w' !! p = None).
  { intros p Hp. subst w'. rewrite (index_accepted _ _ Hacc). unfold workspace.
    eapply with_TemporaryDirectory_cleans; [exact Hmk | exact Hp]. }
  split; [exact Hgone|].
  apply absent_not_exists.
  - unfold tmpdir, mkdtemp_path. intros Heq. apply app_eq_nil in Heq as [_ Heq]. discriminate.
  - apply Hgone. reflexivity.
Qed.

End Workspace.

Lemma workspace_removed_witness :
  let P := Demo.platform (Some "bibtex") in
  let w' := (index (Demo.post (Some Demo.md) (Some Demo.bib) (Some Demo.figs))
               Demo.world).2 in
  (forall p, Demo.workdir `prefix_of` p -> w_fs w' !! p = None)
  /\ Os.exists_ (w_fs w') Demo.workdir = false.
Proof.
  intros P.
  apply (@workspace_removed P
           (Demo.post (Some Demo.md) (Some Demo.bib) (Some Demo.figs))
           Demo.world (<[Demo.workdir := Dir]> Demo.disk)).
  - vm_compute. reflexivity.
  - unfold Os.mkdir. reflexivity.
Defined.

(** The other exits of the request: a tool chain that exits with status
    zero and writes no artifact, an asset that is not installed, and an
    upload that is not an archive, which [index] does not handle.  Each
    time the disk is what it was before the request. *)
Example demo_artifact_missing :
  let '(r, w) := @index (Demo.platform_with None false)
                   (Demo.post (Some Demo.md) (Some Demo.bib) (Some Demo.figs)) Demo.world in
  r = Ok (render_template "index.html" (Some "PDF was not generated.") (Some ""))
  /\ length (w_calls w) = 5%nat
  /\ same_disk (w_fs w) Demo.disk = true.
Proof. vm_compute. repeat split; reflexivity. Qed.

Example demo_missing_asset :
  let disk := delete (["srv"; "app"] // "ieee/ieee.csl") Demo.disk in
  let '(r, w) := @index (Demo.platform None)
                   (Demo.post (Some Demo.md) (Some Demo.bib) (Some Demo.figs))
                   {| w_fs := disk; w_calls := [] |} in
  r = Ok (render_template "index.html" (Some "Missing required asset: ieee/ieee.csl")
            (Some ""))
  /\ w_calls w = []
  /\ same_disk (w_fs w) disk = true.
Proof. vm_compute. repeat split; reflexivity. Qed.

Example demo_not_an_archive :
  let '(r, w) := @index (Demo.platform None)
                   (Demo.post (Some Demo.md) (Some Demo.bib)
                      (Some {| filename := "figures.zip"; stream := "GIF89a" |}))
                   Demo.world in
  r = Raise BadZipFile /\ same_disk (w_fs w) Demo.disk = true.
Proof. vm_compute. repeat split; reflexivity. Qed.

(** ** C5: the artifact is checked for, then read and sent *)

Lemma read_file_exists fs p b : Os.read_file fs p = Ok b -> Os.exists_ fs p = true.
Proof.
  unfold Os.read_file, Os.exists_.
  destruct (Os.follow Os.max_hops fs p) as [q|e]; [|discriminate].
  destruct (Os.node_at fs q) as [[d| |t]|]; try discriminate. reflexivity.
Qed.

Lemma quiet_link_entries src_dir work_dir names :
  forall links, quiet (link_entries src_dir work_dir links names).
Proof.
  induction names as [|n names IH]; intros links; simpl.
  - apply quiet_ret.
  - apply quiet_bind; [|intros links'; apply IH].
    unfold link_entry. case_bool_decide; [apply quiet_ret|].
    apply quiet_bind; [apply quiet_fs_test|]. intros [|]; [apply quiet_ret|].
    apply quiet_bind; [apply quiet_fs_do | intros _; apply quiet_ret].
Qed.

Lemma quiet_link_paper_assets src_dir work_dir :
  quiet (_link_paper_assets src_dir work_dir).
Proof.
  unfold _link_paper_assets.
  apply quiet_bind; [apply quiet_fs_test|]. intros [|]; simpl; [|apply quiet_ret].
  apply quiet_bind; [apply quiet_fs_get | intros names; apply quiet_link_entries].
Qed.

Lemma quiet_remove_links links : quiet (remove_links links).
Proof. apply quiet_for. intros l. apply quiet_fs_do. Qed.

Section Artifact.

Context {P : Platform}.

(** When the block of the pipeline ends normally, the five tools have run
    and each has exited with status zero. *)
Lemma linked_conversion_ok work paper_dir w w1 :
  linked_conversion work paper_dir w = (Ok tt, w1) ->
  exists new,
    w_calls w1 = w_calls w ++ new
    /\ map call_inv new = pipeline work paper_dir
    /\ Forall exits_zero new.
Proof.
  unfold linked_conversion, bind. intros H.
  pose proof (quiet_link_paper_assets paper_dir work w) as Hq0.
  destruct (_link_paper_assets paper_dir work w) as [[links|e] w0]; [|discriminate].
  simpl in Hq0. unfold try_finally in H.
  destruct (run_conversion_traces work paper_dir w0) as (new & Hcalls & Htrace).
  destruct (_run_conversion work paper_dir w0) as [r wr]. simpl in *.
  pose proof (quiet_remove_links links wr) as Hq1.
  destruct (remove_links links wr) as [[[]|e] w2]; [|discriminate].
  injection H as -> ->. simpl in Hq1.
  exists new. rewrite Hq1, Hcalls, Hq0. split; [reflexivity|].
  apply trace_ok. exact Htrace.
Qed.

(** C5. Suppose the block of the pipeline has ended normally, so that
    every tool has exited with status zero.  If the artifact
    [outputs/paper.pdf] does not exist, what follows raises the
    [FileNotFoundError] of the handler, which is not a
    [CalledProcessError] and is reported with its own message and an
    empty log; if the artifact is a file, its bytes are the body of the
    response, sent as an attachment named [paper.pdf] of type
    [application/pdf]. *)
Theorem artifact_checked work paper_dir w w1 :
  linked_conversion work paper_dir w = (Ok tt, w1) ->
  let pdf_path := work // "outputs" // "paper.pdf" in
  let missing := FileNotFoundError "PDF was not generated." in
  (exists new, w_calls w1 = w_calls w ++ new
               /\ map call_inv new = pipeline work paper_dir
               /\ Forall exits_zero new)
  /\ (Os.exists_ (w_fs w1) pdf_path = false ->
      (linked_conversion work paper_dir ;; send_artifact work) w = (Raise missing, w1)
      /\ (forall rc cmd out err, missing <> CalledProcessError rc cmd out err)
      /\ handled missing = true
      /\ report missing w1
         = (Ok (render_template "index.html" (Some "PDF was not generated.") (Some "")),
            w1))
  /\ (forall bytes, Os.read_file (w_fs w1) pdf_path = Ok bytes ->
      (linked_conversion work paper_dir ;; send_artifact work) w
      = (Ok (send_file bytes "application/pdf" true "paper.pdf"), w1)).
Proof.
  intros Hrun pdf_path missing.
  split; [eapply linked_conversion_ok; exact Hrun|]. split.
  - intros Hno. split; [|split; [|split]].
    + erewrite bind_ok by exact Hrun.
      unfold send_artifact, bind, fs_test. fold pdf_path. rewrite Hno. reflexivity.
    + intros rc cmd out err. discriminate.
    + reflexivity.
    + reflexivity.
  - intros bytes Hread. erewrite bind_ok by exact Hrun.
    unfold send_artifact, bind, fs_test, fs_get. fold pdf_path.
    rewrite (read_file_exists _ _ _ Hread). simpl. rewrite Hread. reflexivity.
Qed.

End Artifact.

Lemma artifact_checked_witness :
  let P := Demo.platform None in
  let work := Demo.workdir in
  let paper_dir := Demo.workdir ++ ["paperFiles"] in
  let w1 := (linked_conversion work paper_dir extracted_world).2 in
  (linked_conversion work paper_dir ;; send_artifact work)%py extracted_world
  = (Ok (send_file "%PDF-1.5" "application/pdf" true "paper.pdf"), w1).
Proof.
  intros P work paper_dir w1.
  apply (@artifact_checked P work paper_dir extracted_world w1).
  - unfold w1. destruct (linked_conversion work paper_dir extracted_world) as [r w] eqn:E.
    assert (Hr : r = (linked_conversion work paper_dir extracted_world).1)
      by (rewrite E; reflexivity).
    rewrite Hr. f_equal.
  - vm_compute. reflexivity.
Defined.

(** ** C6 and C10: the bibliography and its copy under the fallback name *)

Lemma joinpath_plain p s : plain_name s = true -> p // s = p ++ [s].
Proof.
  unfold plain_name, PathLib.joinpath. intros H.
  apply andb_prop in H as [Habs Hparts].
  apply negb_true_iff in Habs. rewrite Habs.
  apply bool_decide_eq_true in Hparts. rewrite Hparts. reflexivity.
Qed.

Lemma parent_snoc (p : Path) n : PathLib.parent (p ++ [n]) = p.
Proof. apply removelast_last. Qed.

Lemma name_snoc (p : Path) n : PathLib.name (p ++ [n]) = n.
Proof. apply last_last. Qed.

Lemma snoc_not_nil (p : Path) n : p ++ [n] <> [].
Proof. intros H. apply app_eq_nil in H as [_ H]. discriminate. Qed.

Lemma node_at_snoc (fs : FS) (p : Path) n : Os.node_at fs (p ++ [n]) = fs !! (p ++ [n]).
Proof. destruct p; reflexivity. Qed.

Lemma follow_file_or_absent fs p :
  file_or_absent fs p = true -> Os.follow Os.max_hops fs p = Ok p.
Proof.
  unfold file_or_absent, Os.max_hops. simpl.
  destruct (Os.node_at fs p) as [[d| |t]|]; try discriminate; reflexivity.
Qed.

Lemma write_file_new (fs : FS) dir n s :
  Os.node_at fs dir = Some Dir ->
  file_or_absent fs (dir ++ [n]) = true ->
  Os.write_file (dir ++ [n]) s fs = Ok (<[dir ++ [n] := File s]> fs).
Proof.
  intros Hdir Hfree. unfold Os.write_file.
  rewrite (follow_file_or_absent _ _ Hfree).
  unfold file_or_absent in Hfree.
  destruct (Os.node_at fs (dir ++ [n])) as [[d| |t]|]; try discriminate; [reflexivity|].
  unfold Os.check_parent. rewrite parent_snoc, Hdir. reflexivity.
Qed.

Lemma node_at_insert_ne (fs : FS) p q x :
  p <> q -> Os.node_at (<[p := x]> fs) q = Os.node_at fs q.
Proof.
  intros Hne. destruct q as [|c q]; [reflexivity|]. simpl.
  apply lookup_insert_ne. exact Hne.
Qed.

Lemma node_at_insert_eq (fs : FS) p x :
  p <> [] -> Os.node_at (<[p := x]> fs) p = Some x.
Proof.
  intros Hne. destruct p as [|c p]; [congruence|]. simpl. apply lookup_insert_eq.
Qed.

Lemma copy_file (fs : FS) dir a b s :
  a <> b ->
  Os.node_at fs dir = Some Dir ->
  fs !! (dir ++ [a]) = Some (File s) ->
  file_or_absent fs (dir ++ [b]) = true ->
  Os.copy (dir ++ [a]) (dir ++ [b]) fs = Ok (<[dir ++ [b] := File s]> fs).
Proof.
  intros Hab Hdir Ha Hb. unfold Os.copy.
  assert (Hnd : Os.is_dir fs (dir ++ [b]) = false).
  { unfold Os.is_dir. rewrite (follow_file_or_absent _ _ Hb).
    unfold file_or_absent in Hb.
    destruct (Os.node_at fs (dir ++ [b])) as [[d| |t]|]; try discriminate; reflexivity. }
  rewrite Hnd.
  assert (Hfa : file_or_absent fs (dir ++ [a]) = true).
  { unfold file_or_absent. rewrite node_at_snoc, Ha. reflexivity. }
  rewrite (follow_file_or_absent _ _ Hfa), (follow_file_or_absent _ _ Hb).
  rewrite bool_decide_eq_false_2.
  2:{ intros [Heq _]. apply app_inj_tail in Heq as [_ Heq]. contradiction. }
  unfold Os.read_file. rewrite (follow_file_or_absent _ _ Hfa), node_at_snoc, Ha.
  apply write_file_new; assumption.
Qed.

Section Bibliography.

Context {P : Platform}.

Lemma stage_bibliography_run paper_dir bib_file w :
  Os.node_at (w_fs w) paper_dir = Some Dir ->
  plain_name (bib_name_of bib_file) = true ->
  file_or_absent (w_fs w) (paper_dir ++ [bib_name_of bib_file]) = true ->
  file_or_absent (w_fs w) (paper_dir ++ ["library.bib"]) = true ->
  stage_bibliography paper_dir bib_file w
  = (Ok tt,
     set_fs w
       (if String.eqb (bib_name_of bib_file) "library.bib"
        then <[paper_dir ++ ["library.bib"] := File (stream bib_file)]> (w_fs w)
        else <[paper_dir ++ ["library.bib"] := File (stream bib_file)]>
               (<[paper_dir ++ [bib_name_of bib_file] := File (stream bib_file)]>
                  (w_fs w)))).
Proof.
  intros Hdir Hplain Hbib Hlib. unfold stage_bibliography.
  rewrite (joinpath_plain _ _ Hplain).
  assert (Hlibname : paper_dir // "library.bib" = paper_dir ++ ["library.bib"])
    by (apply joinpath_plain; reflexivity).
  rewrite Hlibname.
  unfold bind, save, fs_do.
  rewrite (write_file_new _ _ _ _ Hdir Hbib). simpl.
  destruct (String.eqb (bib_name_of bib_file) "library.bib") eqn:Hname; simpl.
  - apply String.eqb_eq in Hname. rewrite Hname. reflexivity.
  - apply String.eqb_neq in Hname.
    rewrite (copy_file _ paper_dir (bib_name_of bib_file) "library.bib" (stream bib_file)).
    + reflexivity.
    + exact Hname.
    + rewrite node_at_insert_ne; [exact Hdir|].
      intros Heq. rewrite <- Heq in Hdir. rewrite node_at_snoc in Hdir.
      unfold file_or_absent in Hbib. rewrite node_at_snoc, Hdir in Hbib. discriminate.
    + apply lookup_insert_eq.
    + unfold file_or_absent. rewrite node_at_insert_ne; [exact Hlib|].
      intros Heq. apply app_inj_tail in Heq as [_ Heq]. contradiction.
Qed.


(** C10. Under the same conditions on the manuscript directory: when the
    file name of the bibliography sanitizes to the empty string, staging
    is exactly one write, of the upload under [library.bib]; and whatever
    the sanitized name is, after staging [library.bib] is a file with the
    bytes of the upload. *)
Theorem fallback_bibliography paper_dir bib_file w :
  Os.node_at (w_fs w) paper_dir = Some Dir ->
  plain_name (bib_name_of bib_file) = true ->
  file_or_absent (w_fs w) (paper_dir ++ [bib_name_of bib_file]) = true ->
  file_or_absent (w_fs w) (paper_dir ++ ["library.bib"]) = true ->
  (secure_filename (filename bib_file) = "" ->
   stage_bibliography paper_dir bib_file w
   = (Ok tt, set_fs w (<[paper_dir // "library.bib" := File (stream bib_file)]> (w_fs w))))
  /\ exists fs',
       stage_bibliography paper_dir bib_file w = (Ok tt, set_fs w fs')
       /\ fs' !! (paper_dir // "library.bib") = Some (File (stream bib_file)).
Proof.
  intros Hdir Hplain Hbib Hlib.
  assert (Hlibname : paper_dir // "library.bib" = paper_dir ++ ["library.bib"])
    by (apply joinpath_plain; reflexivity).
  rewrite Hlibname.
  rewrite (stage_bibliography_run _ _ _ Hdir Hplain Hbib Hlib).
  split.
  - intros Hempty. unfold bib_name_of. rewrite Hempty. reflexivity.
  - eexists. split; [reflexivity|].
    destruct (String.eqb _ _); apply lookup_insert_eq.
Qed.

End Bibliography.


Example demo_bib_name : @bib_name_of (Demo.platform None) Demo.bib = "my_refs.bib".
Proof. vm_compute. reflexivity. Qed.

Lemma fallback_bibliography_witness :
  let paper_dir := Demo.workdir ++ ["paperFiles"] in
  @stage_bibliography blank_platform paper_dir Demo.bib manuscript_world
  = (Ok tt, set_fs manuscript_world
              (<[paper_dir // "library.bib" := File "@article{key}"]>
                 (w_fs manuscript_world)))
  /\ exists fs',
       @stage_bibliography (Demo.platform None) paper_dir Demo.bib manuscript_world
       = (Ok tt, set_fs manuscript_world fs')
       /\ fs' !! (paper_dir // "library.bib") = Some (File "@article{key}").
Proof.
  intros paper_dir. split.
  - apply (@fallback_bibliography blank_platform paper_dir Demo.bib manuscript_world);
      vm_compute; reflexivity.
  - apply (@fallback_bibliography (Demo.platform None) paper_dir Demo.bib
             manuscript_world); vm_compute; reflexivity.
Defined.

(** ** C7: the links made at the workspace root *)

Lemma path_snoc (p : Path) : p <> [] -> p = PathLib.parent p ++ [PathLib.name p].
Proof. intros Hp. apply app_removelast_last. exact Hp. Qed.

Lemma elem_of_children (fs : FS) d n :
  n ∈ Os.children fs d <-> is_Some (fs !! (d ++ [n])).
Proof.
  unfold Os.children. rewrite list_elem_of_fmap. split.
  - intros (p & -> & Hp). apply list_elem_of_filter in Hp as [[<- Hne] Hin].
    rewrite <- (path_snoc p Hne).
    apply list_elem_of_fmap in Hin as ([k x] & -> & Hkx).
    apply elem_of_map_to_list in Hkx. simpl. rewrite Hkx. eauto.
  - intros [x Hx]. exists (d ++ [n]). split; [symmetry; apply name_snoc|].
    apply list_elem_of_filter. split.
    + split; [apply parent_snoc | apply snoc_not_nil].
    + apply list_elem_of_fmap. exists (d ++ [n], x). split; [reflexivity|].
      apply elem_of_map_to_list. exact Hx.
Qed.

Lemma NoDup_children (fs : FS) d : NoDup (Os.children fs d).
Proof.
  unfold Os.children. apply NoDup_fmap_2_strong.
  - intros p q Hp Hq Hname.
    apply list_elem_of_filter in Hp as [[Hpd Hpne] _].
    apply list_elem_of_filter in Hq as [[Hqd Hqne] _].
    rewrite (path_snoc p Hpne), (path_snoc q Hqne), Hpd, Hqd, Hname. reflexivity.
  - apply NoDup_filter, NoDup_fst_map_to_list.
Qed.

Lemma follow_not_link fs p :
  (forall t, Os.node_at fs p <> Some (Symlink t)) ->
  Os.follow Os.max_hops fs p = Ok p.
Proof.
  intros H. unfold Os.max_hops. simpl.
  destruct (Os.node_at fs p) as [[d| |t]|]; try reflexivity.
  exfalso. apply (H t). reflexivity.
Qed.

Lemma exists_not_link fs p :
  (forall t, Os.node_at fs p <> Some (Symlink t)) ->
  Os.exists_ fs p = bool_decide (is_Some (Os.node_at fs p)).
Proof.
  intros H. unfold Os.exists_. rewrite (follow_not_link _ _ H).
  destruct (Os.node_at fs p) as [x|].
  - symmetry. apply bool_decide_eq_true. eauto.
  - symmetry. apply bool_decide_eq_false. intros [x Hx]. discriminate.
Qed.

Lemma exists_dir fs d : Os.node_at fs d = Some Dir -> Os.exists_ fs d = true.
Proof.
  intros Hd. rewrite exists_not_link by (intros t; rewrite Hd; discriminate).
  apply bool_decide_eq_true. rewrite Hd. eauto.
Qed.

Lemma listdir_dir fs d :
  Os.node_at fs d = Some Dir -> Os.listdir fs d = Ok (Os.children fs d).
Proof.
  intros Hd. unfold Os.listdir.
  rewrite follow_not_link by (intros t; rewrite Hd; discriminate).
  rewrite Hd. reflexivity.
Qed.

Lemma link_entries_spec src_dir work_dir names :
  forall links w,
    NoDup names ->
    Os.node_at (w_fs w) work_dir = Some Dir ->
    (forall n, n ∈ names -> plain_name n = true) ->
    (forall n t, n ∈ names -> w_fs w !! (work_dir ++ [n]) <> Some (Symlink t)) ->
    exists new fs',
      link_entries src_dir work_dir links names w = (Ok (links ++ new), set_fs w fs')
      /\ (forall l, l ∈ new <->
            exists n, n ∈ names /\ l = work_dir ++ [n]
                      /\ ~ manuscript_or_bibliography n
                      /\ w_fs w !! (work_dir ++ [n]) = None)
      /\ (forall n, work_dir ++ [n] ∈ new ->
            fs' !! (work_dir ++ [n]) = Some (Symlink (src_dir ++ [n])))
      /\ (forall p, p ∉ new -> fs' !! p = w_fs w !! p).
Proof.
  induction names as [|n names IH]; intros links w Hnd Hwork Hplain Hnolink.
  - exists [], (w_fs w). simpl. rewrite app_nil_r. destruct w. split; [reflexivity|].
    split; [|split].
    + intros l. split; [intros H; inversion H|].
      intros (n & Hn & _). inversion Hn.
    + intros n H. inversion H.
    + reflexivity.
  - apply NoDup_cons in Hnd as [Hn Hnd].
    assert (Hplain' : forall n', n' ∈ names -> plain_name n' = true)
      by (intros n' H; apply Hplain; right; exact H).
    assert (Hskip :
      (manuscript_or_bibliography n \/ w_fs w !! (work_dir ++ [n]) <> None) ->
      link_entry src_dir work_dir links n w = (Ok links, w) ->
      exists new fs',
        link_entries src_dir work_dir links (n :: names) w
        = (Ok (links ++ new), set_fs w fs')
        /\ (forall l, l ∈ new <->
              exists n0, n0 ∈ n :: names /\ l = work_dir ++ [n0]
                         /\ ~ manuscript_or_bibliography n0
                         /\ w_fs w !! (work_dir ++ [n0]) = None)
        /\ (forall n0, work_dir ++ [n0] ∈ new ->
              fs' !! (work_dir ++ [n0]) = Some (Symlink (src_dir ++ [n0])))
        /\ (forall p, p ∉ new -> fs' !! p = w_fs w !! p)).
    { intros Hwhy Hstep.
      destruct (IH links w Hnd Hwork Hplain') as (new & fs' & Hrun & Hiff & Hlink & Hkeep).
      { intros n' t H. apply Hnolink. right. exact H. }
      exists new, fs'. split; [|split; [|split; assumption]].
      - simpl. erewrite bind_ok by exact Hstep. exact Hrun.
      - intros l. rewrite Hiff. split.
        + intros (n0 & Hn0 & Hrest). exists n0. split; [right; exact Hn0 | exact Hrest].
        + intros (n0 & Hn0 & Hl & Hsuf & Hnone).
          apply elem_of_cons in Hn0 as [->|Hn0].
          * destruct Hwhy as [Hwhy|Hwhy]; contradiction.
          * exists n0. auto. }
    destruct (decide (manuscript_or_bibliography n)) as [Hsuf|Hsuf].
    { apply Hskip; [left; exact Hsuf|].
      unfold link_entry, PathLib.suffix. rewrite name_snoc.
      rewrite bool_decide_eq_true_2 by exact Hsuf. reflexivity. }
    assert (Htarget : work_dir // n = work_dir ++ [n]).
    { apply joinpath_plain, Hplain. left. }
    assert (Hexists : Os.exists_ (w_fs w) (work_dir ++ [n])
                      = bool_decide (is_Some (w_fs w !! (work_dir ++ [n])))).
    { rewrite exists_not_link; rewrite node_at_snoc; [reflexivity|].
      intros t. apply Hnolink. left. }
    destruct (w_fs w !! (work_dir ++ [n])) as [x|] eqn:Hat.
    { apply Hskip; [right; discriminate|].
      unfold link_entry, PathLib.suffix. rewrite name_snoc.
      rewrite bool_decide_eq_false_2 by exact Hsuf.
      rewrite Htarget. unfold bind, fs_test. rewrite Hexists.
      rewrite bool_decide_eq_true_2 by eauto. reflexivity. }
    set (fs1 := <[work_dir ++ [n] := Symlink (src_dir ++ [n])]> (w_fs w)).
    assert (Hstep : link_entry src_dir work_dir links n w
                    = (Ok (links ++ [work_dir ++ [n]]), set_fs w fs1)).
    { unfold link_entry, PathLib.suffix. rewrite name_snoc.
      rewrite bool_decide_eq_false_2 by exact Hsuf.
      rewrite Htarget. unfold bind, fs_test. rewrite Hexists.
      rewrite bool_decide_eq_false_2 by (intros [? ?]; discriminate).
      unfold fs_do, Os.symlink_to, Os.check_parent.
      rewrite node_at_snoc, Hat, parent_snoc, Hwork. reflexivity. }
    assert (Hother : forall n', n' ∈ names ->
              fs1 !! (work_dir ++ [n']) = w_fs w !! (work_dir ++ [n'])).
    { intros n' Hn'. unfold fs1. apply lookup_insert_ne.
      intros Heq. apply app_inj_tail in Heq as [_ ->]. contradiction. }
    destruct (IH (links ++ [work_dir ++ [n]]) (set_fs w fs1) Hnd)
      as (new & fs' & Hrun & Hiff & Hlink & Hkeep).
    { simpl. unfold fs1. rewrite node_at_insert_ne; [exact Hwork|].
      intros Heq. rewrite <- Heq, node_at_snoc, Hat in Hwork. discriminate. }
    { exact Hplain'. }
    { intros n' t Hn'. simpl. rewrite (Hother n' Hn'). apply Hnolink. right. exact Hn'. }
    simpl in Hiff, Hkeep.
    assert (Hfresh : work_dir ++ [n] ∉ new).
    { intros Hin. apply Hiff in Hin as (n0 & Hn0 & Heq & _).
      apply app_inj_tail in Heq as [_ ->]. contradiction. }
    exists ((work_dir ++ [n]) :: new), fs'. split; [|split; [|split]].
    + simpl. erewrite bind_ok by exact Hstep. rewrite Hrun.
      rewrite <- app_assoc. destruct w; reflexivity.
    + intros l. rewrite elem_of_cons, Hiff. split.
      * intros [->|(n0 & Hn0 & Hl & Hs & Hnone)].
        -- exists n. repeat split; [left | exact Hsuf | exact Hat].
        -- exists n0. rewrite (Hother n0 Hn0) in Hnone.
           repeat split; [right; exact Hn0 | exact Hl | exact Hs | exact Hnone].
      * intros (n0 & Hn0 & Hl & Hs & Hnone).
        apply elem_of_cons in Hn0 as [->|Hn0]; [left; exact Hl|].
        right. exists n0. rewrite (Hother n0 Hn0). auto.
    + intros n0 Hin. apply elem_of_cons in Hin as [Heq|Hin].
      * apply app_inj_tail in Heq as [_ ->].
        rewrite (Hkeep _ Hfresh). unfold fs1. apply lookup_insert_eq.
      * apply Hlink. exact Hin.
    + intros p Hp. apply not_elem_of_cons in Hp as [Hpn Hp].
      rewrite (Hkeep p Hp). unfold fs1. apply lookup_insert_ne. congruence.
Qed.

(** C7, as the code has it.  In a manuscript directory whose entries have
    proper names and a workspace root that holds no link under one of
    those names: an entry whose [pathlib] suffix is [.md] or [.bib] gets no
    link; any other entry gets, at the workspace root and under its own
    name, a link that points at it, unless something of that name is there
    already, and then the entry is passed over; the links returned are
    exactly those made, and nothing else on disk changes, so what was there
    is not overwritten. *)
Theorem staged_links src_dir work_dir w :
  Os.node_at (w_fs w) src_dir = Some Dir ->
  Os.node_at (w_fs w) work_dir = Some Dir ->
  (forall n, n ∈ Os.children (w_fs w) src_dir -> plain_name n = true) ->
  (forall n t, n ∈ Os.children (w_fs w) src_dir ->
               w_fs w !! (work_dir ++ [n]) <> Some (Symlink t)) ->
  exists links fs',
    _link_paper_assets src_dir work_dir w = (Ok links, set_fs w fs')
    /\ (forall n, n ∈ Os.children (w_fs w) src_dir ->
          PathLib.suffix (src_dir ++ [n]) ∈ [".md"; ".bib"] ->
          work_dir // n ∉ links)
    /\ (forall n, n ∈ Os.children (w_fs w) src_dir ->
          PathLib.suffix (src_dir ++ [n]) ∉ [".md"; ".bib"] ->
          w_fs w !! (work_dir // n) = None ->
          work_dir // n ∈ links
          /\ fs' !! (work_dir // n) = Some (Symlink (src_dir ++ [n])))
    /\ (forall n, n ∈ Os.children (w_fs w) src_dir ->
          is_Some (w_fs w !! (work_dir // n)) ->
          work_dir // n ∉ links)
    /\ (forall l, l ∈ links ->
          exists n, n ∈ Os.children (w_fs w) src_dir /\ l = work_dir // n)
    /\ (forall p, p ∉ links -> fs' !! p = w_fs w !! p).
Proof.
  intros Hsrc Hwork Hplain Hnolink.
  destruct (link_entries_spec src_dir work_dir (Os.children (w_fs w) src_dir) [] w)
    as (new & fs' & Hrun & Hiff & Hlink & Hkeep);
    [apply NoDup_children | exact Hwork | exact Hplain | exact Hnolink |].
  simpl in Hrun.
  exists new, fs'. split; [|repeat split].
  - unfold _link_paper_assets, bind, fs_test, fs_get.
    rewrite (exists_dir _ _ Hsrc). cbn [negb].
    rewrite (listdir_dir _ _ Hsrc). exact Hrun.
  - intros n Hn Hsuf Hin. rewrite (joinpath_plain _ _ (Hplain n Hn)) in Hin.
    apply Hiff in Hin as (n0 & _ & Heq & Hno & _).
    apply app_inj_tail in Heq as [_ <-]. apply Hno.
    unfold PathLib.suffix in Hsuf. rewrite name_snoc in Hsuf. exact Hsuf.
  - match goal with Hn : n ∈ _, Hsuf : PathLib.suffix _ ∉ _, Hnone : _ !! _ = None |- _ =>
      rewrite (joinpath_plain _ _ (Hplain n Hn)) in Hnone |- *;
      unfold PathLib.suffix in Hsuf; rewrite name_snoc in Hsuf;
      apply Hiff; exists n; auto
    end.
  - match goal with Hn : n ∈ _, Hsuf : PathLib.suffix _ ∉ _, Hnone : _ !! _ = None |- _ =>
      rewrite (joinpath_plain _ _ (Hplain n Hn)) in Hnone |- *;
      unfold PathLib.suffix in Hsuf; rewrite name_snoc in Hsuf;
      apply Hlink, Hiff; exists n; auto
    end.
  - intros n Hn [x Hx] Hin. rewrite (joinpath_plain _ _ (Hplain n Hn)) in Hx, Hin.
    apply Hiff in Hin as (n0 & _ & Heq & _ & Hnone).
    apply app_inj_tail in Heq as [_ <-]. congruence.
  - intros l Hl. apply Hiff in Hl as (n & Hn & -> & _). exists n.
    rewrite (joinpath_plain _ _ (Hplain n Hn)). auto.
  - exact Hkeep.
Qed.

Lemma linking_world_children :
  Os.children (w_fs linking_world) (Demo.workdir ++ ["paperFiles"])
  = ["fig.png"; "ieee"; "paper.md"; ".bib"; "library.bib"].
Proof. vm_compute. reflexivity. Qed.

Lemma staged_links_witness :
  let src_dir := Demo.workdir ++ ["paperFiles"] in
  exists links fs',
    _link_paper_assets src_dir Demo.workdir linking_world
    = (Ok links, set_fs linking_world fs')
    /\ (Demo.workdir // "paper.md" ∉ links)
    /\ (Demo.workdir // "ieee" ∉ links)
    /\ fs' !! (Demo.workdir // "fig.png") = Some (Symlink (src_dir ++ ["fig.png"]))
    /\ fs' !! (Demo.workdir // "ieee") = Some Dir.
Proof.
  intros src_dir.
  destruct (staged_links src_dir Demo.workdir linking_world)
    as (links & fs' & Hrun & Hsuf & Hmade & Hthere & _ & Hkeep).
  - vm_compute. reflexivity.
  - vm_compute. reflexivity.
  - intros n Hn. unfold src_dir in Hn. rewrite linking_world_children in Hn.
    apply list_elem_of_In in Hn. simpl in Hn.
    repeat (destruct Hn as [<-|Hn]; [vm_compute; reflexivity|]). destruct Hn.
  - intros n t Hn. unfold src_dir in Hn. rewrite linking_world_children in Hn.
    apply list_elem_of_In in Hn. simpl in Hn.
    repeat (destruct Hn as [<-|Hn]; [vm_compute; discriminate|]). destruct Hn.
  - exists links, fs'. split; [exact Hrun|].
    assert (Hc : forall n, n ∈ ["fig.png"; "ieee"; "paper.md"; ".bib"; "library.bib"] ->
                 n ∈ Os.children (w_fs linking_world) src_dir).
    { intros n Hn. unfold src_dir. rewrite linking_world_children. exact Hn. }
    assert (Hieee : (Demo.workdir // "ieee") ∉ links).
    { apply Hthere; [apply Hc, list_elem_of_In; simpl; tauto | vm_compute; eauto]. }
    split; [|split; [|split]].
    + apply Hsuf; [apply Hc, list_elem_of_In; simpl; tauto | vm_compute; left].
    + exact Hieee.
    + apply Hmade; [apply Hc, list_elem_of_In; simpl; tauto | | vm_compute; reflexivity].
      vm_compute. intros Hin. apply list_elem_of_In in Hin. simpl in Hin.
      destruct Hin as [Hin|[Hin|[]]]; discriminate.
    + rewrite (Hkeep _ Hieee). vm_compute. reflexivity.
Defined.

(** The claim as the specification words it fails on the hidden file: its
    name ends in [.bib], its [pathlib] suffix is empty, and it is linked. *)
Lemma hidden_bibliography_linked :
  let src_dir := Demo.workdir ++ ["paperFiles"] in
  let result := _link_paper_assets src_dir Demo.workdir linking_world in
  w_fs linking_world !! (src_dir ++ [".bib"]) = Some (File "@misc{hidden}")
  /\ Str.ends_with ".bib" (PathLib.name (src_dir ++ [".bib"])) = true
  /\ PathLib.suffix (src_dir ++ [".bib"]) = ""
  /\ result.1 = Ok [Demo.workdir // "fig.png"; Demo.workdir // ".bib"]
  /\ w_fs result.2 !! (Demo.workdir // ".bib") = Some (Symlink (src_dir ++ [".bib"])).
Proof. vm_compute. repeat split; reflexivity. Qed.

(** ** C2: what the extraction leaves on disk *)

Lemma node_at_insert (fs : FS) k x p :
  k <> [] ->
  Os.node_at (<[k := x]> fs) p = if decide (k = p) then Some x else Os.node_at fs p.
Proof.
  intros Hk. destruct (decide (k = p)) as [<-|Hne].
  - apply node_at_insert_eq. exact Hk.
  - apply node_at_insert_ne. exact Hne.
Qed.

Lemma grown_refl fs t : grown fs fs t.
Proof. intros p. left. reflexivity. Qed.

Lemma mkdirs_from_spec rest :
  forall base fs,
    (forall q, q <> [] -> q `prefix_of` rest -> dir_or_absent fs (base ++ q)) ->
    exists fs',
      Os.mkdirs_from base rest fs = Ok fs'
      /\ (forall q, q <> [] -> q `prefix_of` rest -> Os.node_at fs' (base ++ q) = Some Dir)
      /\ grown fs fs' (base ++ rest).
Proof.
  induction rest as [|c rest IH]; intros base fs Hpre.
  - exists fs. split; [reflexivity|]. split; [|apply grown_refl].
    intros q Hq Hpref. apply prefix_nil_inv in Hpref. contradiction.
  - assert (Hc : dir_or_absent fs (base ++ [c])).
    { apply Hpre; [discriminate|]. exists rest. reflexivity. }
    assert (Hstep : exists fs1,
              Os.mkdirs_from base (c :: rest) fs = Os.mkdirs_from (base ++ [c]) rest fs1
              /\ Os.node_at fs1 (base ++ [c]) = Some Dir
              /\ (forall p, p <> base ++ [c] -> Os.node_at fs1 p = Os.node_at fs p)
              /\ (Os.node_at fs1 (base ++ [c]) = Os.node_at fs (base ++ [c])
                  \/ Os.node_at fs (base ++ [c]) = None)).
    { unfold dir_or_absent in Hc. simpl.
      destruct (Os.node_at fs (base ++ [c])) as [[d| |t]|] eqn:Hat; try contradiction.
      - exists fs. repeat split; auto.
      - exists (<[base ++ [c] := Dir]> fs). split; [reflexivity|]. split; [|split].
        + apply node_at_insert_eq, snoc_not_nil.
        + intros p Hp. apply node_at_insert_ne. congruence.
        + right. reflexivity. }
    destruct Hstep as (fs1 & Hunfold & Hdir & Hsame & Hwas).
    destruct (IH (base ++ [c]) fs1) as (fs' & Hrun & Hall & Hgrown).
    { intros q Hq Hpref. unfold dir_or_absent.
      rewrite Hsame.
      - rewrite <- app_assoc. apply Hpre; [discriminate|].
        simpl. apply prefix_cons. exact Hpref.
      - intros Heq. rewrite <- (app_nil_r (base ++ [c])) in Heq at 2.
        apply app_inv_head in Heq. contradiction. }
    exists fs'. split; [rewrite Hunfold; exact Hrun|]. split.
    + intros q Hq Hpref. destruct q as [|c' q]; [congruence|].
      apply prefix_cons_inv_1 in Hpref as Hcc. subst c'.
      apply prefix_cons_inv_2 in Hpref.
      destruct q as [|c2 q].
      * destruct (Hgrown (base ++ [c])) as [Heq|(Hnone & _)]; [|congruence].
        rewrite Heq. exact Hdir.
      * replace (base ++ c :: c2 :: q) with ((base ++ [c]) ++ c2 :: q)
          by (rewrite <- app_assoc; reflexivity).
        apply Hall; [discriminate | exact Hpref].
    + intros p. replace (base ++ c :: rest) with ((base ++ [c]) ++ rest)
        by (rewrite <- app_assoc; reflexivity).
      destruct (Hgrown p) as [Heq|(Hnone & Hnew & Hpref)].
      * destruct (decide (p = base ++ [c])) as [->|Hne].
        -- destruct Hwas as [Hwas|Hwas].
           ++ left. congruence.
           ++ right. split; [exact Hwas|]. split; [congruence|].
              apply prefix_app_r. reflexivity.
        -- left. rewrite Heq. apply Hsame. exact Hne.
      * right. split; [|split; assumption].
        destruct (decide (p = base ++ [c])) as [->|Hne]; [congruence|].
        rewrite <- (Hsame p Hne). exact Hnone.
Qed.

Lemma parent_prefix (p : Path) : PathLib.parent p `prefix_of` p.
Proof.
  destruct (decide (p = [])) as [->|Hp]; [reflexivity|].
  exists [PathLib.name p]. apply path_snoc. exact Hp.
Qed.

Lemma parent_strict (p : Path) : p <> [] -> ~ p `prefix_of` PathLib.parent p.
Proof.
  intros Hp Hpre. apply prefix_length in Hpre.
  rewrite (path_snoc p Hp) in Hpre at 1. rewrite length_app in Hpre. simpl in Hpre. lia.
Qed.

Lemma target_prefix dest m : dest `prefix_of` Zip.target dest m.
Proof. exists (Zip.arcname_parts (zi_filename m)). reflexivity. Qed.

Lemma above_target fs dest m members q :
  extractable fs dest members -> m ∈ members ->
  q `prefix_of` Zip.target dest m -> q <> Zip.target dest m ->
  dir_or_absent fs q.
Proof.
  intros Hex Hm Hpre Hne. unfold dir_or_absent.
  destruct (Os.node_at fs q) as [[d| |t]|] eqn:Hq; try exact I.
  - eapply (ex_above _ _ _ Hex); eassumption.
  - destruct (prefix_weak_total _ _ _ (target_prefix dest m) Hpre) as [Hd|Hd].
    + eapply (ex_nolink _ _ _ Hex); eassumption.
    + rewrite (ex_dest _ _ _ Hex q Hd) in Hq. discriminate.
Qed.

Lemma is_dir_of_node fs p :
  (forall t, Os.node_at fs p <> Some (Symlink t)) ->
  Os.is_dir fs p = match Os.node_at fs p with Some Dir => true | _ => false end.
Proof. intros H. unfold Os.is_dir. rewrite (follow_not_link _ _ H). reflexivity. Qed.

Lemma extract_member_shape fs dest m members :
  extractable fs dest (m :: members) ->
  exists fsm fs1,
    Zip.extract_member dest m fs = Ok fs1
    /\ grown fs fsm (PathLib.parent (Zip.target dest m))
    /\ Os.node_at fs1 (Zip.target dest m) = Some (extracted m)
    /\ (forall p, p <> Zip.target dest m -> Os.node_at fs1 p = Os.node_at fsm p).
Proof.
  intros Hex.
  assert (Hm : m ∈ m :: members) by left.
  set (t := Zip.target dest m).
  assert (Hnolink : forall l, Os.node_at fs t <> Some (Symlink l)).
  { intros l. apply (ex_nolink _ _ _ Hex). apply target_prefix. }
  unfold Zip.extract_member. fold t.
  destruct (decide (Zip.arcname_parts (zi_filename m) = [])) as [Hparts|Hparts].
  - (* the member names the destination itself *)
    assert (Hdir : Zip.is_dir m = true).
    { destruct (ex_named _ _ _ Hex m Hm) as [H|H]; [exact H | contradiction]. }
    assert (Ht : t = dest).
    { unfold t, Zip.target. rewrite Hparts. apply app_nil_r. }
    assert (Hdest : Os.node_at fs t = Some Dir).
    { rewrite Ht. apply (ex_dest _ _ _ Hex). reflexivity. }
    assert (Hup : Os.exists_ fs (PathLib.parent t) = true).
    { apply exists_dir, (ex_dest _ _ _ Hex). rewrite <- Ht. apply parent_prefix. }
    rewrite Hdir, Hup, bool_decide_eq_true_2 by exact Hparts.
    simpl. rewrite !andb_false_r.
    rewrite (is_dir_of_node _ _ Hnolink), Hdest.
    exists fs, fs. split; [reflexivity|]. split; [apply grown_refl|].
    split; [|reflexivity]. unfold extracted. rewrite Hdir. exact Hdest.
  - rewrite bool_decide_eq_false_2 by exact Hparts. simpl.
    assert (Htne : t <> []).
    { unfold t, Zip.target. intros Heq. apply app_eq_nil in Heq as [_ Heq]. contradiction. }
    assert (Hupper : forall q, q `prefix_of` PathLib.parent t -> dir_or_absent fs q).
    { intros q Hq. apply (above_target fs dest m (m :: members)); [exact Hex | exact Hm | |].
      - etransitivity; [exact Hq | apply parent_prefix].
      - intros ->. apply (parent_strict t Htne). exact Hq. }
    assert (Hmid : exists fsm,
              (if bool_decide (PathLib.parent t <> []) && negb (Os.exists_ fs (PathLib.parent t))
               then Os.makedirs (PathLib.parent t) fs else Ok fs) = Ok fsm
              /\ grown fs fsm (PathLib.parent t)
              /\ Os.node_at fsm (PathLib.parent t) = Some Dir).
    { destruct (bool_decide (PathLib.parent t <> []) && negb (Os.exists_ fs (PathLib.parent t)))
        eqn:Hcond.
      - apply andb_prop in Hcond as [Hne _]. apply bool_decide_eq_true in Hne.
        destruct (mkdirs_from_spec (PathLib.parent t) [] fs) as (fsm & Hrun & Hall & Hgrown).
        { intros q _ Hq. apply Hupper. exact Hq. }
        exists fsm. split; [exact Hrun|]. split; [exact Hgrown|].
        apply (Hall (PathLib.parent t)); [exact Hne | reflexivity].
      - exists fs. split; [reflexivity|]. split; [apply grown_refl|].
        apply andb_false_iff in Hcond as [Hnil|Hex'].
        + apply bool_decide_eq_false in Hnil.
          destruct (PathLib.parent t); [reflexivity | exfalso; apply Hnil; discriminate].
        + apply negb_false_iff in Hex'.
          specialize (Hupper (PathLib.parent t) (reflexivity _)).
          unfold dir_or_absent in Hupper.
          rewrite exists_not_link in Hex'.
          * apply bool_decide_eq_true in Hex' as [x Hx]. rewrite Hx in Hupper |- *.
            destruct x; try contradiction. reflexivity.
          * intros l Hl. rewrite Hl in Hupper. contradiction. }
    destruct Hmid as (fsm & -> & Hgrown & Hparent).
    assert (Hsame : Os.node_at fsm t = Os.node_at fs t).
    { destruct (Hgrown t) as [H|(_ & _ & Hpre)]; [exact H|].
      exfalso. apply (parent_strict t Htne). exact Hpre. }
    assert (Hnolink' : forall l, Os.node_at fsm t <> Some (Symlink l))
      by (intros l; rewrite Hsame; apply Hnolink).
    assert (Hinsert : forall x,
              Os.node_at (<[t := x]> fsm) t = Some x
              /\ forall p, p <> t -> Os.node_at (<[t := x]> fsm) p = Os.node_at fsm p).
    { intros x. split; [apply node_at_insert_eq; exact Htne|].
      intros p Hp. apply node_at_insert_ne. congruence. }
    unfold extracted.
    destruct (Zip.is_dir m) eqn:Hdir.
    + rewrite (is_dir_of_node _ _ Hnolink').
      destruct (Os.node_at fsm t) as [[d| |l]|] eqn:Hat.
      * exfalso. exact (ex_dir _ _ _ Hex m d Hm Hdir (eq_sym Hsame)).
      * exists fsm, fsm. repeat split; auto.
      * exfalso. apply (Hnolink' l). reflexivity.
      * unfold Os.mkdir, Os.check_parent. rewrite Hat, Hparent.
        exists fsm, (<[t := Dir]> fsm). split; [reflexivity|]. split; [exact Hgrown|].
        apply Hinsert.
    + assert (Hwrite : Os.write_file t (zi_data m) fsm = Ok (<[t := File (zi_data m)]> fsm)).
      { rewrite (path_snoc t Htne). apply write_file_new; [exact Hparent|].
        rewrite <- (path_snoc t Htne). unfold file_or_absent.
        destruct (Os.node_at fsm t) as [[d| |l]|] eqn:Hat; try reflexivity.
        - exfalso. exact (ex_file _ _ _ Hex m Hm Hdir (eq_sym Hsame)).
        - exfalso. apply (Hnolink' l). reflexivity. }
      rewrite Hwrite.
      exists fsm, (<[t := File (zi_data m)]> fsm). split; [reflexivity|].
      split; [exact Hgrown|]. apply Hinsert.
Qed.

Lemma extract_member_spec fs dest m members :
  extractable fs dest (m :: members) ->
  exists fs1,
    Zip.extract_member dest m fs = Ok fs1
    /\ extractable fs1 dest members
    /\ Os.node_at fs1 (Zip.target dest m) = Some (extracted m)
    /\ (forall p x, p <> Zip.target dest m ->
          Os.node_at fs p = Some x -> Os.node_at fs1 p = Some x)
    /\ (forall p, Os.node_at fs p = Some Dir -> Os.node_at fs1 p = Some Dir).
Proof.
  intros Hex.
  destruct (extract_member_shape fs dest m members Hex)
    as (fsm & fs1 & Hrun & Hgrown & Hat & Helse).
  assert (Hm : m ∈ m :: members) by left.
  set (t := Zip.target dest m) in *.
  (* what can be found at a path after the member has been extracted *)
  assert (Hcases : forall p,
            (p = t /\ Os.node_at fs1 p = Some (extracted m))
            \/ (p <> t /\ Os.node_at fs1 p = Os.node_at fs p)
            \/ (p <> t /\ Os.node_at fs p = None /\ Os.node_at fs1 p = Some Dir
                /\ p `prefix_of` t)).
  { intros p. destruct (decide (p = t)) as [->|Hne]; [left; auto|].
    right. rewrite (Helse p Hne).
    destruct (Hgrown p) as [Heq|(Hnone & Hnew & Hpre)]; [left; auto|].
    right. repeat split; auto. etransitivity; [exact Hpre | apply parent_prefix]. }
  assert (Hkeep : forall p x, p <> t -> Os.node_at fs p = Some x ->
                               Os.node_at fs1 p = Some x).
  { intros p x Hne Hp.
    destruct (Hcases p) as [[Heq _]|[[_ Heq]|(_ & Hnone & _)]]; congruence. }
  exists fs1. split; [exact Hrun|]. split; [|split; [exact Hat|split; [exact Hkeep|]]].
  - constructor.
    + intros q Hq. pose proof (ex_dest _ _ _ Hex q Hq) as Hd.
      destruct (Hcases q) as [[-> Heq]|[[_ Heq]|(_ & Hnone & _)]]; [|congruence|congruence].
      rewrite Heq. unfold extracted.
      destruct (Zip.is_dir m) eqn:Hdir; [reflexivity|].
      exfalso. exact (ex_file _ _ _ Hex m Hm Hdir Hd).
    + intros p l Hp Hlink.
      destruct (Hcases p) as [[_ Heq]|[[_ Heq]|(_ & _ & Heq & _)]].
      * rewrite Heq in Hlink. unfold extracted in Hlink.
        destruct (Zip.is_dir m); discriminate.
      * rewrite Heq in Hlink. exact (ex_nolink _ _ _ Hex p l Hp Hlink).
      * congruence.
    + intros m' Hm'. apply (ex_named _ _ _ Hex). right. exact Hm'.
    + intros m' q d Hm' Hq Hne Hfile.
      assert (Hm'' : m' ∈ m :: members) by (right; exact Hm').
      destruct (Hcases q) as [[-> Heq]|[[_ Heq]|(_ & _ & Heq & _)]].
      * rewrite Heq in Hfile. unfold extracted in Hfile.
        destruct (Zip.is_dir m) eqn:Hdir; [discriminate|].
        destruct (ex_pairs _ _ _ Hex m' m Hm'' Hm Hdir Hq) as [Heq' _].
        contradiction.
      * rewrite Heq in Hfile. exact (ex_above _ _ _ Hex m' q d Hm'' Hq Hne Hfile).
      * congruence.
    + intros m' Hm' Hdir' Hd.
      assert (Hm'' : m' ∈ m :: members) by (right; exact Hm').
      destruct (Hcases (Zip.target dest m')) as [[Heq Hx]|[[_ Heq]|(Hne & _ & _ & Hpre)]].
      * assert (Hpre : Zip.target dest m' `prefix_of` Zip.target dest m)
          by (fold t; rewrite Heq; reflexivity).
        destruct (ex_pairs _ _ _ Hex m m' Hm Hm'' Hdir' Hpre) as [_ Hdir].
        rewrite Hx in Hd. unfold extracted in Hd. rewrite Hdir in Hd. discriminate.
      * rewrite Heq in Hd. exact (ex_file _ _ _ Hex m' Hm'' Hdir' Hd).
      * destruct (ex_pairs _ _ _ Hex m m' Hm Hm'' Hdir' Hpre) as [Heq _].
        contradiction.
    + intros m' d Hm' Hdir' Hfile.
      assert (Hm'' : m' ∈ m :: members) by (right; exact Hm').
      destruct (Hcases (Zip.target dest m')) as [[Heq Hx]|[[_ Heq]|(_ & _ & Heq & _)]].
      * rewrite Hx in Hfile. unfold extracted in Hfile.
        destruct (Zip.is_dir m) eqn:Hdir; [discriminate|].
        assert (Hpre : Zip.target dest m `prefix_of` Zip.target dest m')
          by (fold t; rewrite Heq; reflexivity).
        destruct (ex_pairs _ _ _ Hex m' m Hm'' Hm Hdir Hpre) as [_ Hd'].
        congruence.
      * rewrite Heq in Hfile. exact (ex_dir _ _ _ Hex m' d Hm'' Hdir' Hfile).
      * congruence.
    + intros m1 m2 H1 H2. apply (ex_pairs _ _ _ Hex); right; assumption.
  - intros p Hd. destruct (decide (p = t)) as [->|Hne]; [|apply Hkeep; assumption].
    rewrite Hat. unfold extracted.
    destruct (Zip.is_dir m) eqn:Hdir; [reflexivity|].
    exfalso. exact (ex_file _ _ _ Hex m Hm Hdir Hd).
Qed.

(** Extraction of an extractable archive: it ends normally; every member's
    target holds what the last member of that target put there; a
    directory stays one; and every other entry of the disk is kept. *)
Lemma extractall_spec dest members :
  forall w,
    extractable (w_fs w) dest members ->
    exists fs',
      Zip.extractall members dest w = (Ok tt, set_fs w fs')
      /\ (forall pre m post, members = pre ++ m :: post ->
            (forall m', m' ∈ post -> Zip.target dest m' <> Zip.target dest m) ->
            Os.node_at fs' (Zip.target dest m) = Some (extracted m))
      /\ (forall p x, (forall m, m ∈ members -> p <> Zip.target dest m) ->
            Os.node_at (w_fs w) p = Some x -> Os.node_at fs' p = Some x)
      /\ (forall p, Os.node_at (w_fs w) p = Some Dir -> Os.node_at fs' p = Some Dir)
      /\ (forall m, m ∈ members -> Zip.is_dir m = true ->
            Os.node_at fs' (Zip.target dest m) = Some Dir).
Proof.
  induction members as [|m0 members IH]; intros w Hex.
  - exists (w_fs w). destruct w. split; [reflexivity|]. split; [|split; [|split]]; auto.
    + intros pre m post Heq. destruct pre; discriminate.
    + intros m Hm. inversion Hm.
  - destruct (extract_member_spec _ _ _ _ Hex) as (fs1 & Hrun & Hex1 & Hat & Hkeep & Hdirs).
    destruct (IH (set_fs w fs1) Hex1) as (fs' & Hall & Hlast & Hrest & Hdirs' & Hmade).
    simpl in Hrest, Hdirs'.
    exists fs'. split; [|split; [|split; [|split]]].
    + unfold Zip.extractall in *. simpl.
      unfold bind at 1, fs_do at 1. rewrite Hrun. rewrite Hall.
      destruct w; reflexivity.
    + intros pre m post Heq Hlater. destruct pre as [|m1 pre]; simpl in Heq.
      * injection Heq as -> ->.
        apply Hrest; [|exact Hat].
        intros m' Hm' Heq. exact (Hlater m' Hm' (eq_sym Heq)).
      * injection Heq as -> ->. eapply Hlast; [reflexivity | exact Hlater].
    + intros p x Hp Hx. apply Hrest.
      * intros m Hm. apply Hp. right. exact Hm.
      * apply Hkeep; [apply Hp; left | exact Hx].
    + intros p Hd. apply Hdirs', Hdirs, Hd.
    + intros m Hm Hdir. apply elem_of_cons in Hm as [->|Hm]; [|apply Hmade; assumption].
      apply Hdirs'. rewrite Hat. unfold extracted. rewrite Hdir. reflexivity.
Qed.

Section Extraction.

Context {P : Platform}.

(** C2, as the code has it.  When every entry of the archive resolves
    inside the destination, the check lets the archive through and the
    outcome is that of [extractall] on all its entries, in archive order.
    When moreover the archive is extractable (see [extractable]), the
    extraction ends normally; every entry that no later entry of the same
    target follows is on disk, a file entry with its bytes unchanged; every
    directory entry is a directory; and what was on disk at other paths is
    still there. *)
Theorem safe_archive_extracted zip_path dest w bytes members :
  Os.read_file (w_fs w) zip_path = Ok bytes ->
  zip_infolist bytes = Some members ->
  (forall m, m ∈ members ->
     PathLib.is_relative_to (resolve (w_fs w) (dest // zi_filename m))
                            (resolve (w_fs w) dest) = true) ->
  _safe_extract_zip zip_path dest w = Zip.extractall members dest w
  /\ (extractable (w_fs w) dest members ->
      exists fs',
        _safe_extract_zip zip_path dest w = (Ok tt, set_fs w fs')
        /\ (forall pre m post, members = pre ++ m :: post ->
              (forall m', m' ∈ post -> Zip.target dest m' <> Zip.target dest m) ->
              Os.node_at fs' (Zip.target dest m)
              = Some (if Zip.is_dir m then Dir else File (zi_data m)))
        /\ (forall m, m ∈ members -> Zip.is_dir m = true ->
              Os.node_at fs' (Zip.target dest m) = Some Dir)
        /\ (forall p x, (forall m, m ∈ members -> p <> Zip.target dest m) ->
              Os.node_at (w_fs w) p = Some x -> Os.node_at fs' p = Some x)).
Proof.
  intros Hread Hzip Hsafe.
  assert (Hpass : _safe_extract_zip zip_path dest w = Zip.extractall members dest w).
  { rewrite (safe_extract_unfold _ _ _ _ _ Hread Hzip).
    rewrite (proj2 (forallb_forall _ _)); [reflexivity|].
    intros m Hm. apply Hsafe, list_elem_of_In, Hm. }
  split; [exact Hpass|]. intros Hex.
  destruct (extractall_spec dest members w Hex) as (fs' & Hrun & Hlast & Hrest & _ & Hdirs).
  exists fs'. rewrite Hpass. auto.
Qed.

End Extraction.

Lemma elem_of_inits (q l : Path) : q `prefix_of` l -> q ∈ inits l.
Proof.
  revert q. induction l as [|x l IH]; intros q Hq.
  - apply prefix_nil_inv in Hq as ->. left.
  - destruct q as [|y q]; [left|]. right.
    apply prefix_cons_inv_1 in Hq as Hxy. subst y.
    apply prefix_cons_inv_2 in Hq.
    apply list_elem_of_fmap. exists q. split; [reflexivity | apply IH; exact Hq].
Qed.

Lemma member_check_parts fs dest members m :
  member_check fs dest members m = true ->
  (Zip.is_dir m || negb (bool_decide (Zip.arcname_parts (zi_filename m) = [])) = true)
  /\ (forall q, q `prefix_of` Zip.target dest m ->
        bool_decide (q = Zip.target dest m) || negb (is_file (Os.node_at fs q)) = true)
  /\ ((if Zip.is_dir m then negb (is_file (Os.node_at fs (Zip.target dest m)))
       else negb (bool_decide (Os.node_at fs (Zip.target dest m) = Some Dir))) = true)
  /\ (forall m', m' ∈ members ->
        Zip.is_dir m'
        || negb (bool_decide (Zip.target dest m' `prefix_of` Zip.target dest m))
        || (bool_decide (Zip.target dest m' = Zip.target dest m) && negb (Zip.is_dir m))
        = true).
Proof.
  unfold member_check. intros H.
  apply andb_prop in H as [H HD]. apply andb_prop in H as [H HC].
  apply andb_prop in H as [HA HB]. rewrite forallb_forall in HB, HD.
  split; [exact HA|]. split; [|split; [exact HC|]].
  - intros q Hq. apply HB, list_elem_of_In, elem_of_inits, Hq.
  - intros m' Hm'. apply HD, list_elem_of_In, Hm'.
Qed.

Lemma extractable_check_sound fs dest members :
  extractable_check fs dest members = true -> extractable fs dest members.
Proof.
  unfold extractable_check. intros H.
  apply andb_prop in H as [H Hmembers]. apply andb_prop in H as [Hdest Hlinks].
  rewrite forallb_forall in Hdest, Hmembers.
  apply bool_decide_eq_true in Hlinks.
  assert (Hm : forall m, m ∈ members -> member_check fs dest members m = true)
    by (intros m Hin; apply Hmembers, list_elem_of_In, Hin).
  constructor.
  - intros q Hq. apply elem_of_inits, list_elem_of_In, Hdest in Hq.
    apply bool_decide_eq_true in Hq. exact Hq.
  - intros p t Hp Hat. destruct p as [|c p]; [discriminate|]. simpl in Hat.
    specialize (Hlinks _ _ Hat Hp). discriminate.
  - intros m Hin. destruct (member_check_parts _ _ _ _ (Hm m Hin)) as (HA & _).
    apply orb_prop in HA as [HA|HA]; [left; exact HA|].
    right. apply negb_true_iff, bool_decide_eq_false in HA. exact HA.
  - intros m q d Hin Hq Hne Hat.
    destruct (member_check_parts _ _ _ _ (Hm m Hin)) as (_ & HB & _).
    specialize (HB q Hq). apply orb_prop in HB as [HB|HB].
    + apply bool_decide_eq_true in HB. contradiction.
    + rewrite Hat in HB. discriminate.
  - intros m Hin Hdir Hat.
    destruct (member_check_parts _ _ _ _ (Hm m Hin)) as (_ & _ & HC & _).
    rewrite Hdir in HC. apply negb_true_iff, bool_decide_eq_false in HC. contradiction.
  - intros m d Hin Hdir Hat.
    destruct (member_check_parts _ _ _ _ (Hm m Hin)) as (_ & _ & HC & _).
    rewrite Hdir, Hat in HC. discriminate.
  - intros m m' Hin Hin' Hdir' Hpre.
    destruct (member_check_parts _ _ _ _ (Hm m Hin)) as (_ & _ & _ & HD).
    specialize (HD m' Hin'). rewrite Hdir' in HD. simpl in HD.
    apply orb_prop in HD as [Hc|Hc].
    + apply negb_true_iff, bool_decide_eq_false in Hc. contradiction.
    + apply andb_prop in Hc as [Heq Hd]. apply bool_decide_eq_true in Heq.
      apply negb_true_iff in Hd. auto.
Qed.

Lemma safe_archive_extracted_witness :
  let P := Demo.platform None in
  let dest := Demo.workdir ++ ["paperFiles"] in
  let w := staged_world "PK:plots/a.png=PNG1;b.png=PNG2;" in
  exists fs',
    _safe_extract_zip (Demo.workdir ++ ["figures.zip"]) dest w = (Ok tt, set_fs w fs')
    /\ Os.node_at fs' (dest ++ ["plots"; "a.png"]) = Some (File "PNG1")
    /\ Os.node_at fs' (dest ++ ["b.png"]) = Some (File "PNG2")
    /\ Os.node_at fs' (dest ++ ["paper.md"]) = Some (File "# Title").
Proof.
  intros P dest w.
  set (m1 := {| zi_filename := "plots/a.png"; zi_data := "PNG1" |}).
  set (m2 := {| zi_filename := "b.png"; zi_data := "PNG2" |}).
  destruct (@safe_archive_extracted P (Demo.workdir ++ ["figures.zip"]) dest w
              "PK:plots/a.png=PNG1;b.png=PNG2;" [m1; m2]) as [_ Hex].
  - vm_compute. reflexivity.
  - vm_compute. reflexivity.
  - intros m Hm. apply list_elem_of_In in Hm. simpl in Hm.
    destruct Hm as [<-|[<-|[]]]; vm_compute; reflexivity.
  - destruct Hex as (fs' & Hrun & Hlast & _ & Hrest).
    { apply extractable_check_sound. vm_compute. reflexivity. }
    exists fs'. split; [exact Hrun|]. split; [|split].
    + apply (Hlast [] m1 [m2] eq_refl).
      intros m' Hm'. apply list_elem_of_In in Hm'. simpl in Hm'.
      destruct Hm' as [<-|[]]. vm_compute. discriminate.
    + apply (Hlast [m1] m2 [] eq_refl). intros m' Hm'. inversion Hm'.
    + apply Hrest; [|vm_compute; reflexivity].
      intros m Hm. apply list_elem_of_In in Hm. simpl in Hm.
      destruct Hm as [<-|[<-|[]]]; vm_compute; discriminate.
Defined.

(** The claim as the specification words it fails on two archives whose
    entries all resolve inside the destination.  In the first, two entries
    have the same name: the extraction ends normally, and the bytes of the
    first entry are not on disk.  In the second, an entry needs a directory
    where another entry is a file: the extraction does not end normally. *)
Lemma safe_archive_not_verbatim :
  let P := Demo.platform None in
  let dest := Demo.workdir ++ ["paperFiles"] in
  let zip_path := Demo.workdir ++ ["figures.zip"] in
  let twice := "PK:a.png=first;a.png=second;" in
  let clash := "PK:a=x;a/b=y;" in
  (zip_infolist twice = Some [ {| zi_filename := "a.png"; zi_data := "first" |};
                               {| zi_filename := "a.png"; zi_data := "second" |} ]
   /\ forallb (member_safe (staged_disk twice) dest) (default [] (zip_infolist twice)) = true
   /\ (_safe_extract_zip zip_path dest (staged_world twice)).1 = Ok tt
   /\ Os.read_file (w_fs (_safe_extract_zip zip_path dest (staged_world twice)).2)
        (dest // "a.png") = Ok "second")
  /\ (zip_infolist clash = Some [ {| zi_filename := "a"; zi_data := "x" |};
                                  {| zi_filename := "a/b"; zi_data := "y" |} ]
      /\ forallb (member_safe (staged_disk clash) dest) (default [] (zip_infolist clash)) = true
      /\ (_safe_extract_zip zip_path dest (staged_world clash)).1
         = Raise (OSError ENOTDIR (dest ++ ["a"; "b"]))).
Proof. vm_compute. repeat split; reflexivity. Qed.

(** ** The manuscript directory when the bibliography is staged

    The conditions of C6 and C10 on the manuscript directory hold in every
    request: the workspace is new, the assets go to its [ieee] directory,
    and the manuscript is the only file saved before the bibliography. *)

Lemma mkdirs_from_grown rest :
  forall base fs fs',
    Os.mkdirs_from base rest fs = Ok fs' -> grown fs fs' (base ++ rest).
Proof.
  induction rest as [|c rest IH]; intros base fs fs' Hrun; simpl in Hrun.
  - injection Hrun as <-. apply grown_refl.
  - replace (base ++ c :: rest) with ((base ++ [c]) ++ rest)
      by (rewrite <- app_assoc; reflexivity).
    destruct (Os.node_at fs (base ++ [c])) as [[d| |t]|] eqn:Hat.
    + discriminate.
    + apply IH. exact Hrun.
    + destruct rest; [|discriminate].
      destruct (Os.is_dir fs (base ++ [c])); [|discriminate].
      injection Hrun as <-. apply grown_refl.
    + apply IH in Hrun. intros p.
      destruct (Hrun p) as [Heq|(Hnone & Hnew & Hpre)].
      * destruct (decide (p = base ++ [c])) as [->|Hne].
        -- right. split; [exact Hat|]. split; [|apply prefix_app_r; reflexivity].
           rewrite Heq. apply node_at_insert_eq, snoc_not_nil.
        -- left. rewrite Heq. apply node_at_insert_ne. congruence.
      * right. split; [|split; assumption].
        destruct (decide (p = base ++ [c])) as [->|Hne].
        -- rewrite node_at_insert_eq in Hnone by apply snoc_not_nil. discriminate.
        -- rewrite node_at_insert_ne in Hnone by congruence. exact Hnone.
Qed.

Lemma write_file_result p d fs fs' :
  Os.write_file p d fs = Ok fs' ->
  (forall t, Os.node_at fs p <> Some (Symlink t)) ->
  fs' = <[p := File d]> fs /\ Os.node_at fs p <> Some Dir.
Proof.
  intros Hrun Hnolink. unfold Os.write_file in Hrun.
  rewrite (follow_not_link _ _ Hnolink) in Hrun.
  destruct (Os.node_at fs p) as [[d0| |t]|]; try discriminate.
  - injection Hrun as <-. split; [reflexivity | discriminate].
  - destruct (Os.check_parent fs p); [|discriminate].
    injection Hrun as <-. split; [reflexivity | discriminate].
Qed.

Lemma copy_result src dst fs fs' :
  Os.copy src dst fs = Ok fs' ->
  (forall p t, dst `prefix_of` p -> Os.node_at fs p <> Some (Symlink t)) ->
  exists p d, dst `prefix_of` p /\ fs' = <[p := File d]> fs
              /\ Os.node_at fs p <> Some Dir.
Proof.
  intros Hrun Hnolink. unfold Os.copy in Hrun.
  set (dst' := if Os.is_dir fs dst then dst ++ [PathLib.name src] else dst) in *.
  assert (Hpre : dst `prefix_of` dst').
  { unfold dst'. destruct (Os.is_dir fs dst); [apply prefix_app_r|]; reflexivity. }
  assert (Hwrite : exists d, Os.write_file dst' d fs = Ok fs').
  { destruct (Os.follow Os.max_hops fs src), (Os.follow Os.max_hops fs dst');
      try (destruct (bool_decide _); [discriminate|]);
      destruct (Os.read_file fs src) as [d|]; try discriminate; eauto. }
  destruct Hwrite as [d Hwrite].
  apply write_file_result in Hwrite as [-> Hnd]; [|intros t; apply Hnolink, Hpre].
  exists dst', d. auto.
Qed.

Lemma under_ieee_not_paper work rest p :
  p `prefix_of` work ++ "ieee" :: rest \/ (work ++ "ieee" :: rest) `prefix_of` p ->
  ~ (work ++ ["paperFiles"]) `prefix_of` p.
Proof.
  intros Hp [k Hk]. subst p. rewrite <- app_assoc in Hp. simpl in Hp.
  destruct Hp as [[k' Hp]|[k' Hp]].
  - rewrite <- !app_assoc in Hp. apply app_inv_head in Hp. discriminate.
  - rewrite <- !app_assoc in Hp. apply app_inv_head in Hp. discriminate.
Qed.

Lemma staging_grown work fs fs' rest :
  staging work fs -> grown fs fs' (work ++ "ieee" :: rest) -> staging work fs'.
Proof.
  intros Hst Hgrown. constructor.
  - destruct (Hgrown (work ++ ["paperFiles"])) as [->|(Hnone & _)];
      [apply (st_dir _ _ Hst)|].
    rewrite (st_dir _ _ Hst) in Hnone. discriminate.
  - intros n. destruct (Hgrown (work ++ ["paperFiles"; n])) as [->|(_ & _ & Hpre)];
      [apply (st_flat _ _ Hst)|].
    exfalso. apply (under_ieee_not_paper work rest (work ++ ["paperFiles"; n]));
      [left; exact Hpre|]. exists [n]. rewrite <- app_assoc. reflexivity.
  - intros p t Hp. destruct (Hgrown p) as [->|(_ & -> & _)];
      [apply (st_nolink _ _ Hst); exact Hp | discriminate].
Qed.

Lemma staging_file work fs p d :
  staging work fs -> p <> [] -> p <> work ++ ["paperFiles"] ->
  Os.node_at fs p <> Some Dir ->
  staging work (<[p := File d]> fs).
Proof.
  intros Hst Hp Hne Hnd. constructor.
  - rewrite node_at_insert_ne by exact Hne. apply (st_dir _ _ Hst).
  - intros n. rewrite node_at_insert by exact Hp. case_decide; [discriminate|].
    apply (st_flat _ _ Hst).
  - intros q t Hq. rewrite node_at_insert by exact Hp. case_decide; [discriminate|].
    apply (st_nolink _ _ Hst). exact Hq.
Qed.

Section Staging.

Context {P : Platform}.

Lemma copy_assets_staging work names :
  Forall (fun name => exists rest, work // name = work ++ "ieee" :: rest) names ->
  forall w w',
    staging work (w_fs w) ->
    for_ names (fun name =>
      let src := APP_ROOT // name in
      src_exists <- fs_test (fun fs => Os.exists_ fs src) ;;
      if negb src_exists
      then raise (FileNotFoundError ("Missing required asset: " +:+ name))
      else
        let target := work // name in
        fs_do (Os.makedirs (PathLib.parent target)) ;;
        fs_do (Os.copy src target)) w = (Ok tt, w') ->
    staging work (w_fs w').
Proof.
  induction 1 as [|name names [rest Hname] _ IH]; intros w w' Hst Hrun; simpl in Hrun.
  - injection Hrun as <-. exact Hst.
  - unfold bind at 1 in Hrun. unfold bind at 1, fs_test at 1 in Hrun.
    destruct (negb (Os.exists_ (w_fs w) (APP_ROOT // name))); [discriminate|].
    rewrite Hname in Hrun. unfold bind at 1, fs_do at 1 2 in Hrun.
    destruct (Os.makedirs _ (w_fs w)) as [fs1|] eqn:Hmk; [|discriminate].
    simpl in Hrun.
    destruct (Os.copy _ _ fs1) as [fs2|] eqn:Hcp; [|discriminate].
    apply (IH (set_fs (set_fs w fs1) fs2) w'); [|exact Hrun].
    simpl.
    assert (Hst1 : staging work fs1).
    { apply mkdirs_from_grown in Hmk. simpl in Hmk.
      apply (staging_grown work (w_fs w) fs1 rest Hst).
      intros p. destruct (Hmk p) as [Heq|(Hnone & Hnew & Hpre)]; [left; exact Heq|].
      right. repeat split; auto. etransitivity; [exact Hpre | apply parent_prefix]. }
    apply copy_result in Hcp as (p & d & Hpre & -> & Hnd).
    + apply staging_file; [exact Hst1 | | | exact Hnd].
      * intros ->. apply prefix_nil_inv in Hpre.
        apply app_eq_nil in Hpre as [_ Hpre]. discriminate.
      * intros ->. apply (under_ieee_not_paper work rest (work ++ ["paperFiles"]));
          [right; exact Hpre | reflexivity].
    + intros p t Hp. apply (st_nolink _ _ Hst1).
      etransitivity; [|exact Hp]. apply prefix_app_r. reflexivity.
Qed.

Lemma assets_under_ieee work :
  Forall (fun name => exists rest, work // name = work ++ "ieee" :: rest) ASSETS.
Proof. repeat constructor; eexists; reflexivity. Qed.

(** In a workspace that has just been made, once the assets have been
    copied and the manuscript has been saved, the manuscript directory is
    as C6 and C10 take it to be: it is a directory, and under every name
    there is a file in it or nothing. *)
Lemma manuscript_directory_when_staging work md_file w w1 w2 :
  Os.node_at (w_fs w) (work ++ ["paperFiles"]) = Some Dir ->
  (forall p, work `prefix_of` p -> p <> work -> p <> work ++ ["paperFiles"] ->
             w_fs w !! p = None) ->
  (forall t, Os.node_at (w_fs w) work <> Some (Symlink t)) ->
  _copy_assets work w = (Ok tt, w1) ->
  save md_file (work // "paperFiles" // "paper.md") w1 = (Ok tt, w2) ->
  Os.node_at (w_fs w2) (work // "paperFiles") = Some Dir
  /\ forall n, file_or_absent (w_fs w2) (work // "paperFiles" ++ [n]) = true.
Proof.
  intros Hdir Hnew Hwork Hassets Hsave.
  assert (Hst : staging work (w_fs w)).
  { constructor; [exact Hdir | |].
    - intros n.
      replace (work ++ ["paperFiles"; n]) with ((work ++ ["paperFiles"]) ++ [n])
        by (rewrite <- app_assoc; reflexivity).
      rewrite node_at_snoc, Hnew; [discriminate | | |].
      + rewrite <- app_assoc. apply prefix_app_r. reflexivity.
      + intros Heq. length_absurd Heq.
      + intros Heq. length_absurd Heq.
    - intros p t Hp Hlink.
      destruct (decide (p = work)) as [->|Hne1]; [exact (Hwork t Hlink)|].
      destruct (decide (p = work ++ ["paperFiles"])) as [->|Hne2]; [congruence|].
      destruct p as [|c p]; [discriminate|]. simpl in Hlink.
      rewrite (Hnew _ Hp Hne1 Hne2) in Hlink. discriminate. }
  apply (copy_assets_staging work ASSETS (assets_under_ieee work) w w1 Hst) in Hassets.
  assert (Hpd : work // "paperFiles" = work ++ ["paperFiles"])
    by (apply joinpath_plain; reflexivity).
  assert (Hmd : work // "paperFiles" // "paper.md" = work ++ ["paperFiles"; "paper.md"]).
  { rewrite Hpd, (joinpath_plain _ "paper.md") by reflexivity.
    rewrite <- app_assoc. reflexivity. }
  rewrite Hmd in Hsave. rewrite Hpd.
  unfold save, fs_do in Hsave.
  destruct (Os.write_file _ _ (w_fs w1)) as [fs2|] eqn:Hwr; [|discriminate].
  injection Hsave as <-. simpl.
  apply write_file_result in Hwr as [-> Hnd].
  2:{ intros t. apply (st_nolink _ _ Hassets).
      apply prefix_app_r. reflexivity. }
  assert (Hst2 : staging work (<[work ++ ["paperFiles"; "paper.md"] := File (stream md_file)]>
                                 (w_fs w1))).
  { apply staging_file; [exact Hassets | | | exact Hnd].
    - intros Heq. length_absurd Heq.
    - intros Heq. length_absurd Heq. }
  split; [apply (st_dir _ _ Hst2)|].
  intros n. unfold file_or_absent.
  pose proof (st_flat _ _ Hst2 n) as Hflat.
  pose proof (st_nolink _ _ Hst2 (work ++ ["paperFiles"; n])) as Hnl.
  rewrite <- app_assoc. simpl.
  destruct (Os.node_at _ (work ++ ["paperFiles"; n])) as [[d| |t]|]; try reflexivity.
  - congruence.
  - exfalso. apply (Hnl t); [apply prefix_app_r; reflexivity | reflexivity].
Qed.

End Staging.

Section StagedBibliography.

Context {P : Platform}.

(** C6 and C10 inside a request: in a workspace that has just been made,
    when the assets have been copied and the manuscript saved, staging a
    bibliography whose sanitized name is one path component ends normally
    and leaves the upload under that name and under [library.bib]. *)
Lemma bibliography_staged_in_request work md_file bib_file w w1 w2 :
  Os.node_at (w_fs w) (work ++ ["paperFiles"]) = Some Dir ->
  (forall p, work `prefix_of` p -> p <> work -> p <> work ++ ["paperFiles"] ->
             w_fs w !! p = None) ->
  (forall t, Os.node_at (w_fs w) work <> Some (Symlink t)) ->
  _copy_assets work w = (Ok tt, w1) ->
  save md_file (work // "paperFiles" // "paper.md") w1 = (Ok tt, w2) ->
  plain_name (bib_name_of bib_file) = true ->
  exists fs',
    stage_bibliography (work // "paperFiles") bib_file w2 = (Ok tt, set_fs w2 fs')
    /\ fs' !! (work // "paperFiles" // "library.bib") = Some (File (stream bib_file))
    /\ fs' !! (work // "paperFiles" // bib_name_of bib_file)
       = Some (File (stream bib_file)).
Proof.
  intros Hdir Hnew Hwork Hassets Hsave Hplain.
  destruct (manuscript_directory_when_staging _ _ _ _ _ Hdir Hnew Hwork Hassets Hsave)
    as [Hpd Hfree].
  rewrite (stage_bibliography_run _ _ _ Hpd Hplain (Hfree _) (Hfree _)).
  rewrite (joinpath_plain _ _ Hplain), (joinpath_plain _ "library.bib") by reflexivity.
  eexists. split; [reflexivity|].
  destruct (String.eqb (bib_name_of bib_file) "library.bib") eqn:Hname.
  - apply String.eqb_eq in Hname. rewrite Hname.
    split; apply lookup_insert_eq.
  - apply String.eqb_neq in Hname. split; [apply lookup_insert_eq|].
    rewrite lookup_insert_ne; [apply lookup_insert_eq|].
    intros Heq. apply app_inj_tail in Heq as [_ Heq]. congruence.
Qed.

End StagedBibliography.

(** An archive may name a file that staging has written: its entry
    replaces it.  So the two copies of the bibliography are the same when
    they are staged, and stay so unless the archive names one of them. *)
Example demo_archive_overwrites_bibliography :
  let P := Demo.platform None in
  let dest := Demo.workdir ++ ["paperFiles"] in
  let w := (_safe_extract_zip (Demo.workdir ++ ["figures.zip"]) dest
              (staged_world "PK:library.bib=@book{other};")).2 in
  w_fs w !! (dest ++ ["library.bib"]) = Some (File "@book{other}").
Proof. vm_compute. reflexivity. Qed.

(** An entry with an absolute name, as one that climbs out with [..], is
    outside the destination. *)
Example absolute_entry_unsafe :
  member_safe (staged_disk "PK:") (Demo.workdir ++ ["paperFiles"])
    {| zi_filename := "/etc/passwd"; zi_data := "root" |} = false
  /\ member_safe (staged_disk "PK:") (Demo.workdir ++ ["paperFiles"])
       {| zi_filename := "figs/../../up.txt"; zi_data := "" |} = false
  /\ member_safe (staged_disk "PK:") (Demo.workdir ++ ["paperFiles"])
       {| zi_filename := "figs/../in.txt"; zi_data := "" |} = true.
Proof. vm_compute. repeat split; reflexivity. Qed.


(** * Further properties of [app.py] *)

(** ** [_allowed]: the extension is what follows the last dot *)

Lemma chars_append (a b : string) : Str.chars (a +:+ b) = Str.chars a ++ Str.chars b.
Proof.
  unfold Str.chars. induction a as [|c a IH]; simpl; [reflexivity|].
  rewrite IH. reflexivity.
Qed.

Lemma of_chars_chars (s : string) : Str.of_chars (Str.chars s) = s.
Proof. apply string_of_list_ascii_of_string. Qed.

Lemma after_last_absent sep l :
  existsb (Ascii.eqb sep) l = false -> Str.after_last sep l = None.
Proof.
  induction l as [|c l IH]; simpl; [reflexivity|].
  intros H. apply orb_false_iff in H as [Hc Hl].
  rewrite (IH Hl), Ascii.eqb_sym, Hc. reflexivity.
Qed.

Lemma after_last_app sep l1 l2 :
  existsb (Ascii.eqb sep) l2 = false ->
  Str.after_last sep (l1 ++ sep :: l2) = Some l2.
Proof.
  intros H. induction l1 as [|c l1 IH]; simpl.
  - rewrite (after_last_absent _ _ H), Ascii.eqb_refl. reflexivity.
  - rewrite IH. reflexivity.
Qed.

(** A name is allowed exactly when the text after its last dot, in lower
    case, is one of the extensions: what comes before that dot does not
    matter, and a name without a dot is never allowed. *)
Theorem allowed_last_extension (stem ext : string) (exts : list string) :
  Str.contains Str.dot ext = false ->
  _allowed (stem +:+ "." +:+ ext) exts = bool_decide (Str.lower ext ∈ exts)
  /\ _allowed ext exts = false.
Proof.
  intros Hext. unfold _allowed, Str.contains in *. split.
  - rewrite !chars_append. change (Str.chars ".") with [Str.dot]. simpl app.
    rewrite after_last_app by exact Hext. rewrite of_chars_chars.
    rewrite existsb_app. cbn [existsb]. rewrite Ascii.eqb_refl.
    cbn [orb]. rewrite orb_true_r. reflexivity.
  - rewrite Hext. reflexivity.
Qed.

Lemma allowed_last_extension_witness :
  (_allowed ("camera.ready" +:+ "." +:+ "BiB") ALLOWED_BIB = bool_decide (Str.lower "BiB" ∈ ALLOWED_BIB)
   /\ _allowed "BiB" ALLOWED_BIB = false)
  /\ (_allowed ("refs.bib" +:+ "." +:+ "txt") ALLOWED_BIB = bool_decide (Str.lower "txt" ∈ ALLOWED_BIB)
      /\ _allowed "txt" ALLOWED_BIB = false).
Proof.
  split.
  - apply (allowed_last_extension "camera.ready" "BiB" ALLOWED_BIB). reflexivity.
  - apply (allowed_last_extension "refs.bib" "txt" ALLOWED_BIB). reflexivity.
Defined.

(** ** [index]: the guards *)

Section Guards.

Context {P : Platform}.

(** A request that does not pass the guards is answered with the page,
    without a log, and neither the disk nor the tools are touched: the
    page comes without a message for a GET and with one otherwise. *)
Theorem rejected_request_untouched (request : Request) (w : World) :
  accepted request = false ->
  exists error,
    index request w = (Ok (render_template "index.html" error None), w)
    /\ (error = None <-> req_method request = "GET").
Proof.
  unfold accepted, index. intros H.
  destruct (String.eqb (req_method request) "GET") eqn:Hget.
  - exists None. apply String.eqb_eq in Hget. split; [reflexivity | tauto].
  - apply String.eqb_neq in Hget. simpl in H.
    assert (Hno : forall msg : string, Some msg = None <-> req_method request = "GET")
      by (intros msg; split; [discriminate | contradiction]).
    destruct (is_missing (files_get (req_files request) "md_file")); [eauto|].
    destruct (is_missing (files_get (req_files request) "bib_file")); [eauto|].
    destruct (is_missing (files_get (req_files request) "fig_zip")); [eauto|].
    simpl in H.
    destruct (_allowed _ ALLOWED_MD); [|simpl; eauto].
    destruct (_allowed _ ALLOWED_BIB); [|simpl; eauto].
    destruct (_allowed _ ALLOWED_ZIP); [discriminate | simpl; eauto].
Qed.

(** When the three uploads are there, the first one whose name has not the
    extension of its kind is named in the answer, in the order manuscript,
    bibliography, figure archive. *)
Theorem wrong_extension_messages (request : Request) (w : World) :
  String.eqb (req_method request) "GET" = false ->
  let md_file := files_get (req_files request) "md_file" in
  let bib_file := files_get (req_files request) "bib_file" in
  let fig_zip := files_get (req_files request) "fig_zip" in
  is_missing md_file = false ->
  is_missing bib_file = false ->
  is_missing fig_zip = false ->
  (_allowed (filename (upload md_file)) ALLOWED_MD = false ->
   index request w
   = (Ok (render_template "index.html" (Some "Markdown file must be .md.") None), w))
  /\ (_allowed (filename (upload md_file)) ALLOWED_MD = true ->
      _allowed (filename (upload bib_file)) ALLOWED_BIB = false ->
      index request w
      = (Ok (render_template "index.html" (Some "Bibliography file must be .bib.") None), w))
  /\ (_allowed (filename (upload md_file)) ALLOWED_MD = true ->
      _allowed (filename (upload bib_file)) ALLOWED_BIB = true ->
      _allowed (filename (upload fig_zip)) ALLOWED_ZIP = false ->
      index request w
      = (Ok (render_template "index.html" (Some "Figures upload must be a .zip.") None), w)).
Proof.
  intros Hpost md_file bib_file fig_zip Hmd Hbib Hzip. unfold index.
  fold md_file bib_file fig_zip. rewrite Hpost, Hmd, Hbib, Hzip.
  repeat split.
  - intros ->. reflexivity.
  - intros -> ->. reflexivity.
  - intros -> -> ->. reflexivity.
Qed.

End Guards.

Lemma rejected_request_untouched_witness :
  let P := Demo.platform None in
  let request := Demo.post (Some Demo.md) (Some Demo.bib)
                   (Some {| filename := "figures.tar.gz"; stream := "" |}) in
  exists error,
    index request Demo.world = (Ok (render_template "index.html" error None), Demo.world)
    /\ (error = None <-> req_method request = "GET").
Proof.
  intros P request. apply (@rejected_request_untouched P request Demo.world).
  vm_compute. reflexivity.
Defined.

Lemma wrong_extension_messages_witness :
  let P := Demo.platform None in
  index (Demo.post (Some Demo.md) (Some {| filename := "refs.bib.txt"; stream := "" |})
           (Some Demo.figs)) Demo.world
  = (Ok (render_template "index.html" (Some "Bibliography file must be .bib.") None),
     Demo.world).
Proof.
  intros P.
  apply (@wrong_extension_messages P
           (Demo.post (Some Demo.md) (Some {| filename := "refs.bib.txt"; stream := "" |})
              (Some Demo.figs)) Demo.world); reflexivity.
Defined.

(** ** [index]: what it answers *)

Lemma bind_ok_inv {A B} (m : Py A) (k : A -> Py B) w b w' :
  bind m k w = (Ok b, w') -> exists a w1, m w = (Ok a, w1) /\ k a w1 = (Ok b, w').
Proof.
  unfold bind. destruct (m w) as [[a|e] w1]; [eauto | discriminate].
Qed.

Section Answers.

Context {P : Platform}.

Lemma send_artifact_ok work w resp w' :
  send_artifact work w = (Ok resp, w') ->
  exists bytes,
    Os.read_file (w_fs w) (work // "outputs" // "paper.pdf") = Ok bytes
    /\ resp = send_file bytes "application/pdf" true "paper.pdf".
Proof.
  unfold send_artifact, bind, fs_test, fs_get.
  destruct (negb (Os.exists_ _ _)); [discriminate|]. simpl.
  destruct (Os.read_file _ _) as [bytes|]; [|discriminate].
  intros H. injection H as <- _. eauto.
Qed.

Lemma convert_ok work paper_dir md_file bib_file fig_zip w resp w' :
  convert work paper_dir md_file bib_file fig_zip w = (Ok resp, w') ->
  exists bytes, resp = send_file bytes "application/pdf" true "paper.pdf".
Proof.
  unfold convert. intros H.
  do 6 (apply bind_ok_inv in H as (? & ? & _ & H)).
  apply send_artifact_ok in H as (bytes & _ & ->). eauto.
Qed.

(** Whatever the request, the disk and the tools: when [index] answers,
    the answer is the page or an attachment named [paper.pdf] of type
    [application/pdf]. *)
Theorem index_answers (request : Request) (w : World) (resp : Response) :
  (index request w).1 = Ok resp ->
  (exists error log, resp = render_template "index.html" error log)
  \/ (exists bytes, resp = send_file bytes "application/pdf" true "paper.pdf").
Proof.
  unfold index.
  repeat match goal with
         | |- context [if ?b then _ else _] =>
             destruct b; [simpl; intros H; injection H as <-; left; eauto|]
         end.
  unfold workspace, with_TemporaryDirectory.
  destruct (Os.mkdir _ _) as [fs1|]; [|discriminate].
  unfold bind at 1, fs_do at 1. simpl.
  destruct (Os.makedirs _ fs1) as [fs2|]; [|discriminate]. simpl.
  unfold try_except.
  destruct (convert _ _ _ _ _ _) as [[r|e] w1] eqn:Hconv.
  - simpl. intros H. injection H as <-. right. eapply convert_ok. exact Hconv.
  - destruct (handled e); simpl; [|discriminate].
    intros H. injection H as <-. left. eauto.
Qed.

(** Once the workspace and its manuscript directory have been made, no
    exception of the classes [index] handles leaves it: [OSError]s, failed
    tools and [ValueError]s all end as an answer. *)
Theorem handled_exceptions_answered (request : Request) (w : World) fs1 fs2 e :
  accepted request = true ->
  let tmpdir := mkdtemp_path "ieee-convert-" w in
  Os.mkdir tmpdir (w_fs w) = Ok fs1 ->
  Os.makedirs (tmpdir // "paperFiles") fs1 = Ok fs2 ->
  (index request w).1 = Raise e ->
  handled e = false.
Proof.
  intros Hacc tmpdir Hmk Hmkd. rewrite (index_accepted _ _ Hacc).
  unfold workspace, with_TemporaryDirectory. fold tmpdir. rewrite Hmk.
  unfold bind at 1, fs_do at 1. simpl. rewrite Hmkd. simpl.
  unfold try_except.
  destruct (convert _ _ _ _ _ _) as [[r|e'] w1]; [discriminate|].
  destruct (handled e') eqn:He; simpl; [discriminate|].
  intros H. injection H as <-. exact He.
Qed.

End Answers.

Lemma handled_exceptions_answered_witness :
  let P := Demo.platform None in
  let request := Demo.post (Some Demo.md) (Some Demo.bib)
                   (Some {| filename := "figures.zip"; stream := "GIF89a" |}) in
  (index request Demo.world).1 = Raise BadZipFile /\ handled BadZipFile = false.
Proof.
  intros P request.
  assert (H : (index request Demo.world).1 = Raise BadZipFile) by (vm_compute; reflexivity).
  split; [exact H|].
  apply (@handled_exceptions_answered P request Demo.world
           (<[Demo.workdir := Dir]> Demo.disk)
           (<[Demo.workdir ++ ["paperFiles"] := Dir]> (<[Demo.workdir := Dir]> Demo.disk))
           BadZipFile).
  - vm_compute. reflexivity.
  - reflexivity.
  - reflexivity.
  - exact H.
Defined.

Lemma index_answers_witness :
  let P := Demo.platform None in
  let request := Demo.post (Some Demo.md) (Some Demo.bib) (Some Demo.figs) in
  (exists error log, send_file "%PDF-1.5" "application/pdf" true "paper.pdf"
                     = render_template "index.html" error log)
  \/ (exists bytes, send_file "%PDF-1.5" "application/pdf" true "paper.pdf"
                    = send_file bytes "application/pdf" true "paper.pdf").
Proof.
  intros P request.
  apply (@index_answers P request Demo.world).
  vm_compute. reflexivity.
Defined.

(** ** [_copy_assets]: a missing asset *)

Lemma outcome_pair {A} (x : Outcome A * World) (r : Outcome A) :
  x.1 = r -> x = (r, x.2).
Proof. intros <-. destruct x; reflexivity. Qed.

Section Assets.

Context {P : Platform}.

(** The assets are taken in the order of the list.  When the ones before
    [name] have been copied and [name] is not installed, [_copy_assets]
    stops there with the [FileNotFoundError] that names it; the assets
    after it are not looked at, and [index] answers with that message and
    an empty log. *)
Theorem missing_asset_reported dest pre name post w w1 :
  ASSETS = pre ++ name :: post ->
  for_ pre (copy_asset dest) w = (Ok tt, w1) ->
  Os.exists_ (w_fs w1) (APP_ROOT // name) = false ->
  let missing := FileNotFoundError ("Missing required asset: " +:+ name) in
  _copy_assets dest w = (Raise missing, w1)
  /\ handled missing = true
  /\ forall w', report missing w'
       = (Ok (render_template "index.html"
                (Some ("Missing required asset: " +:+ name)) (Some "")), w').
Proof.
  intros Hassets Hpre Hmissing missing. split; [|split; reflexivity].
  change (_copy_assets dest w) with (for_ ASSETS (copy_asset dest) w).
  rewrite Hassets, for_app, Hpre. simpl.
  unfold bind at 1. unfold copy_asset at 1, bind at 1, fs_test at 1.
  rewrite Hmissing. reflexivity.
Qed.

End Assets.

Lemma missing_asset_reported_witness :
  let P := Demo.platform None in
  let w := {| w_fs := delete (["srv"; "app"] // "ieee/ieee.csl")
                        (<[Demo.workdir := Dir]> Demo.disk);
              w_calls := [] |} in
  let pre := ["ieee/ieee-conference.tex"; "ieee/IEEEtran.cls"; "ieee/IEEEtran.bst"] in
  _copy_assets Demo.workdir w
  = (Raise (FileNotFoundError "Missing required asset: ieee/ieee.csl"),
     (for_ pre (copy_asset Demo.workdir) w).2).
Proof.
  intros P w pre.
  apply (@missing_asset_reported P Demo.workdir pre "ieee/ieee.csl"
           ["ieee/pandoc-csl-fix.tex"] w (for_ pre (copy_asset Demo.workdir) w).2).
  - reflexivity.
  - apply outcome_pair. vm_compute. reflexivity.
  - vm_compute. reflexivity.
Defined.

(** ** [_run_conversion]: the environment of the tools *)

Section Environment.

Context {P : Platform}.

Lemma pipeline_environment work paper_dir :
  Forall (fun i => inv_env i = conversion_env work paper_dir) (pipeline work paper_dir).
Proof. repeat constructor. Qed.

(** Every tool [_run_conversion] starts gets the same environment: the
    ambient one, in which each of the three search paths is set to the
    directories of the workspace followed by its ambient value (nothing
    when it had none) and a final colon.  No other variable is changed. *)
Theorem tools_environment work paper_dir w :
  let env := conversion_env work paper_dir in
  let ieee_dir := PathLib.str (work // "ieee") in
  let out_dir := PathLib.str (work ++ ["outputs"]) in
  (exists new,
     w_calls (_run_conversion work paper_dir w).2 = w_calls w ++ new
     /\ Forall (fun c => inv_env (call_inv c) = env) new)
  /\ env !! "TEXINPUTS"
     = Some (ieee_dir +:+ ":" +:+ default "" (environ !! "TEXINPUTS") +:+ ":")
  /\ env !! "BIBINPUTS"
     = Some (PathLib.str paper_dir +:+ ":" +:+ out_dir +:+ ":"
             +:+ default "" (environ !! "BIBINPUTS") +:+ ":")
  /\ env !! "BSTINPUTS"
     = Some (ieee_dir +:+ ":" +:+ PathLib.str paper_dir +:+ ":" +:+ out_dir +:+ ":"
             +:+ default "" (environ !! "BSTINPUTS") +:+ ":")
  /\ forall k, k ∉ ["TEXINPUTS"; "BIBINPUTS"; "BSTINPUTS"] -> env !! k = environ !! k.
Proof.
  intros env ieee_dir out_dir. split; [|split; [|split; [|split]]].
  - destruct (run_conversion_traces work paper_dir w) as (new & Hcalls & Htrace).
    exists new. split; [exact Hcalls|].
    destruct (trace_prefix _ _ _ Htrace) as [_ Hmap].
    apply Forall_forall. intros c Hc.
    assert (Hin : call_inv c ∈ pipeline work paper_dir).
    { eapply (subseteq_take (length new)). rewrite <- Hmap.
      apply list_elem_of_fmap. exists c. split; [reflexivity | exact Hc]. }
    pose proof (pipeline_environment work paper_dir) as Henv.
    rewrite Forall_forall in Henv. apply Henv. exact Hin.
  - unfold env, conversion_env, env_get.
    rewrite !lookup_insert_ne by discriminate. apply lookup_insert_eq.
  - unfold env, conversion_env, env_get.
    rewrite lookup_insert_ne by discriminate. rewrite lookup_insert_eq.
    rewrite lookup_insert_ne by discriminate. reflexivity.
  - unfold env, conversion_env, env_get. rewrite lookup_insert_eq.
    rewrite !lookup_insert_ne by discriminate. reflexivity.
  - intros k Hk. unfold env, conversion_env.
    rewrite !lookup_insert_ne; [reflexivity | | |];
      intros <-; apply Hk; apply list_elem_of_In; simpl; tauto.
Qed.

End Environment.

(** ** [_link_paper_assets]: it only adds links *)






(** ** [index]: what a handled failure is answered with *)

Section Failures.

Context {P : Platform}.

(** When the body of the [try] raises an exception of a handled class,
    the request is answered with the page: the error is the text of the
    exception, the log is the stripped log of the failed tool, empty when
    the exception is not a [CalledProcessError]; and the workspace is
    removed from the disk the body left. *)
Theorem failure_page (request : Request) (w : World) fs1 fs2 e w1 :
  accepted request = true ->
  let tmpdir := mkdtemp_path "ieee-convert-" w in
  let file key := upload (files_get (req_files request) key) in
  Os.mkdir tmpdir (w_fs w) = Ok fs1 ->
  Os.makedirs (tmpdir // "paperFiles") fs1 = Ok fs2 ->
  convert tmpdir (tmpdir // "paperFiles") (file "md_file") (file "bib_file")
    (file "fig_zip") (set_fs w fs2) = (Raise e, w1) ->
  handled e = true ->
  index request w
  = (Ok (render_template "index.html" (Some (str_exn e))
           (Some (Str.strip (error_log e)))),
     set_fs w1 (Os.rmtree tmpdir (w_fs w1)))
  /\ ((forall rc cmd out err, e <> CalledProcessError rc cmd out err) ->
      Str.strip (error_log e) = "").
Proof.
  intros Hacc tmpdir file Hmk Hmkd Hconv Hh. split.
  - rewrite (index_accepted _ _ Hacc).
    unfold workspace, with_TemporaryDirectory. fold tmpdir. rewrite Hmk.
    unfold bind at 1, fs_do at 1. simpl. rewrite Hmkd. simpl.
    unfold try_except. unfold file in Hconv.
    change (set_fs (set_fs w fs1) fs2) with (set_fs w fs2).
    rewrite Hconv, Hh. reflexivity.
  - intros Hne. destruct e; try reflexivity. exfalso. eapply Hne. reflexivity.
Qed.

End Failures.

Lemma failure_page_witness :
  let P := Demo.platform None in
  let request := Demo.post (Some Demo.md) (Some Demo.bib)
                   (Some {| filename := "figures.zip";
                            stream := "PK:../evil.txt=nope;" |}) in
  (index request Demo.world).1
  = Ok (render_template "index.html" (Some "Zip file contains an unsafe path.")
          (Some "")).
Proof.
  intros P request.
  set (fs2 := <[Demo.workdir ++ ["paperFiles"] := Dir]> (<[Demo.workdir := Dir]> Demo.disk)).
  destruct (@failure_page P request Demo.world
              (<[Demo.workdir := Dir]> Demo.disk) fs2
              (ValueError "Zip file contains an unsafe path.")
              (convert Demo.workdir (Demo.workdir // "paperFiles") Demo.md Demo.bib
                 {| filename := "figures.zip"; stream := "PK:../evil.txt=nope;" |}
                 (set_fs Demo.world fs2)).2) as [H _].
  - vm_compute. reflexivity.
  - reflexivity.
  - reflexivity.
  - apply outcome_pair. vm_compute. reflexivity.
  - reflexivity.
  - rewrite H. reflexivity.
Defined.

(** ** [_safe_extract_zip]: where the extraction writes *)

Lemma extract_member_footprint fs dest m members :
  extractable fs dest (m :: members) ->
  exists fs1,
    Zip.extract_member dest m fs = Ok fs1
    /\ extractable fs1 dest members
    /\ forall p, ~ (dest `prefix_of` p /\ p `prefix_of` Zip.target dest m) ->
         Os.node_at fs1 p = Os.node_at fs p.
Proof.
  intros Hex.
  destruct (extract_member_spec fs dest m members Hex) as (fs1 & Hrun & Hex1 & _).
  destruct (extract_member_shape fs dest m members Hex)
    as (fsm & fs1' & Hrun' & Hgrown & _ & Helse).
  rewrite Hrun in Hrun'. injection Hrun' as <-.
  exists fs1. split; [exact Hrun|]. split; [exact Hex1|].
  intros p Hout.
  assert (Hne : p <> Zip.target dest m).
  { intros ->. apply Hout. split; [apply target_prefix | reflexivity]. }
  rewrite (Helse p Hne).
  destruct (Hgrown p) as [Heq|(Hnone & _ & Hpre)]; [exact Heq|].
  exfalso.
  assert (Hpt : p `prefix_of` Zip.target dest m).
  { etransitivity; [exact Hpre | apply parent_prefix]. }
  destruct (prefix_weak_total _ _ _ (target_prefix dest m) Hpt) as [Hd|Hd].
  - apply Hout. split; assumption.
  - rewrite (ex_dest _ _ _ Hex p Hd) in Hnone. discriminate.
Qed.

Lemma extractall_footprint dest members :
  forall w,
    extractable (w_fs w) dest members ->
    forall p,
      (forall m, m ∈ members -> dest `prefix_of` p -> ~ p `prefix_of` Zip.target dest m) ->
      Os.node_at (w_fs (Zip.extractall members dest w).2) p = Os.node_at (w_fs w) p.
Proof.
  induction members as [|m members IH]; intros w Hex p Hout; [reflexivity|].
  destruct (extract_member_footprint _ _ _ _ Hex) as (fs1 & Hrun & Hex1 & Hkeep).
  unfold Zip.extractall. simpl. unfold bind at 1, fs_do at 1. rewrite Hrun.
  change (Os.node_at (w_fs (Zip.extractall members dest (set_fs w fs1)).2) p
          = Os.node_at (w_fs w) p).
  rewrite (IH (set_fs w fs1) Hex1 p).
  - simpl. apply Hkeep. intros [Hd Hp]. apply (Hout m); [left | exact Hd | exact Hp].
  - intros m' Hm'. apply Hout. right. exact Hm'.
Qed.

Section Footprint.

Context {P : Platform}.

(** Whether the archive passes the check or not, [_safe_extract_zip]
    changes the disk only between the destination and the targets of the
    entries: a path that is not in the destination, or that is not on the
    way to the target of an entry, holds after the call what it held
    before (for the archives [extractall] gets through, see
    [extractable]). *)
Theorem extraction_footprint zip_path dest w bytes members p :
  Os.read_file (w_fs w) zip_path = Ok bytes ->
  zip_infolist bytes = Some members ->
  extractable (w_fs w) dest members ->
  (forall m, m ∈ members -> dest `prefix_of` p -> ~ p `prefix_of` Zip.target dest m) ->
  Os.node_at (w_fs (_safe_extract_zip zip_path dest w).2) p = Os.node_at (w_fs w) p.
Proof.
  intros Hread Hzip Hex Hout.
  rewrite (safe_extract_unfold _ _ _ _ _ Hread Hzip).
  destruct (forallb _ _); [|reflexivity].
  apply extractall_footprint; assumption.
Qed.

End Footprint.

Lemma extraction_footprint_witness :
  let P := Demo.platform None in
  let dest := Demo.workdir ++ ["paperFiles"] in
  let w := staged_world "PK:plots/a.png=PNG1;b.png=PNG2;" in
  let w' := (_safe_extract_zip (Demo.workdir ++ ["figures.zip"]) dest w).2 in
  Os.node_at (w_fs w') (dest ++ ["paper.md"]) = Os.node_at (w_fs w) (dest ++ ["paper.md"])
  /\ Os.node_at (w_fs w') ["srv"; "app"; "plots"] = Os.node_at (w_fs w) ["srv"; "app"; "plots"].
Proof.
  intros P dest w w'.
  set (m1 := {| zi_filename := "plots/a.png"; zi_data := "PNG1" |}).
  set (m2 := {| zi_filename := "b.png"; zi_data := "PNG2" |}).
  assert (Hex : extractable (w_fs w) dest [m1; m2]).
  { apply extractable_check_sound. vm_compute. reflexivity. }
  split.
  - apply (@extraction_footprint P (Demo.workdir ++ ["figures.zip"]) dest w
             "PK:plots/a.png=PNG1;b.png=PNG2;" [m1; m2]).
    + vm_compute. reflexivity.
    + vm_compute. reflexivity.
    + exact Hex.
    + intros m Hm _. apply list_elem_of_In in Hm. simpl in Hm.
      destruct Hm as [<-|[<-|[]]]; not_prefix.
  - apply (@extraction_footprint P (Demo.workdir ++ ["figures.zip"]) dest w
             "PK:plots/a.png=PNG1;b.png=PNG2;" [m1; m2]).
    + vm_compute. reflexivity.
    + vm_compute. reflexivity.
    + exact Hex.
    + intros m _ Hpre. exfalso. revert Hpre. not_prefix.
Defined.


(** ** [_safe_extract_zip]: the names the check lets through *)

Lemma resolve_from_plain fs hops rest :
  forall cur,
    ".." ∉ rest ->
    (forall q t, q <> [] -> q `prefix_of` rest ->
       Os.node_at fs (cur ++ q) <> Some (Symlink t)) ->
    resolve_from hops fs cur rest = cur ++ rest.
Proof.
  destruct hops as [|h]; simpl;
    induction rest as [|c rest IH]; intros cur Hdots Hnl;
    try (rewrite app_nil_r; reflexivity).
  - destruct (String.eqb_spec c "..") as [->|_]; [exfalso; apply Hdots; left|].
    rewrite IH.
    + destruct (Os.node_at fs (cur ++ [c])) as [[| |]|];
        rewrite <- app_assoc; reflexivity.
    + intros Hin. apply Hdots. right. exact Hin.
    + intros q t Hq Hpre. rewrite <- app_assoc. apply Hnl; [discriminate|].
      simpl. apply prefix_cons. exact Hpre.
  - destruct (String.eqb_spec c "..") as [->|_]; [exfalso; apply Hdots; left|].
    destruct (Os.node_at fs (cur ++ [c])) as [[d| |t]|] eqn:Hat.
    1,2,4: rewrite IH; [rewrite <- app_assoc; reflexivity | |];
      [intros Hin; apply Hdots; right; exact Hin |
       intros q t' Hq Hpre; rewrite <- app_assoc; apply Hnl; [discriminate|];
       simpl; apply prefix_cons; exact Hpre].
    exfalso. apply (Hnl [c] t); [discriminate | | exact Hat].
    exists rest. reflexivity.
Qed.

Lemma is_relative_to_app (base rest : Path) :
  PathLib.is_relative_to (base ++ rest) base = true.
Proof.
  induction base as [|b base IH]; simpl; [destruct rest; reflexivity|].
  rewrite String.eqb_refl. exact IH.
Qed.

Lemma plain_member_safe fs dest m :
  (forall q, q `prefix_of` dest -> Os.node_at fs q = Some Dir) ->
  (forall p t, dest `prefix_of` p -> Os.node_at fs p <> Some (Symlink t)) ->
  ".." ∉ dest ->
  PathLib.is_absolute (zi_filename m) = false ->
  ".." ∉ Str.split Str.slash (zi_filename m) ->
  member_safe fs dest m = true.
Proof.
  intros Hdest Hnolink Hdd Hrel Hname.
  unfold member_safe, resolve, PathLib.joinpath. rewrite Hrel.
  rewrite (resolve_from_plain fs Os.max_hops dest []); [|exact Hdd|].
  - rewrite resolve_from_plain; [rewrite !app_nil_l; apply is_relative_to_app | |].
    + intros Hin. apply elem_of_app in Hin as [Hin|Hin]; [exact (Hdd Hin)|].
      apply Hname. unfold PathLib.parse_parts in Hin.
      apply list_elem_of_filter in Hin as [_ Hin]. exact Hin.
    + intros q t _ Hq. simpl.
      destruct (prefix_weak_total _ _ _ (prefix_app_r dest dest _ (reflexivity _)) Hq)
        as [Hd|Hd].
      * apply Hnolink. exact Hd.
      * rewrite (Hdest q Hd). discriminate.
  - intros q t _ Hq. simpl. rewrite (Hdest q Hq). discriminate.
Qed.

Section Accepted.

Context {P : Platform}.

(** The check has no objection to an ordinary archive: when the
    destination is a directory written without [..] that holds no link,
    an archive all of whose entries have a relative name without a [..]
    component passes, and the call is the extraction of all its
    entries. *)
Theorem relative_entries_accepted zip_path dest w bytes members :
  Os.read_file (w_fs w) zip_path = Ok bytes ->
  zip_infolist bytes = Some members ->
  (forall q, q `prefix_of` dest -> Os.node_at (w_fs w) q = Some Dir) ->
  (forall p t, dest `prefix_of` p -> Os.node_at (w_fs w) p <> Some (Symlink t)) ->
  ".." ∉ dest ->
  (forall m, m ∈ members ->
     PathLib.is_absolute (zi_filename m) = false
     /\ ".." ∉ Str.split Str.slash (zi_filename m)) ->
  _safe_extract_zip zip_path dest w = Zip.extractall members dest w.
Proof.
  intros Hread Hzip Hdest Hnolink Hdd Hnames.
  rewrite (safe_extract_unfold _ _ _ _ _ Hread Hzip).
  rewrite (proj2 (forallb_forall _ _)); [reflexivity|].
  intros m Hm. apply list_elem_of_In in Hm. destruct (Hnames m Hm) as [Hrel Hname].
  apply plain_member_safe; assumption.
Qed.

End Accepted.

Lemma relative_entries_accepted_witness :
  let P := Demo.platform None in
  let dest := Demo.workdir ++ ["paperFiles"] in
  let w := staged_world "PK:plots/a.png=PNG1;b.png=PNG2;" in
  _safe_extract_zip (Demo.workdir ++ ["figures.zip"]) dest w
  = Zip.extractall [ {| zi_filename := "plots/a.png"; zi_data := "PNG1" |};
                     {| zi_filename := "b.png"; zi_data := "PNG2" |} ] dest w.
Proof.
  intros P dest w.
  set (m1 := {| zi_filename := "plots/a.png"; zi_data := "PNG1" |}).
  set (m2 := {| zi_filename := "b.png"; zi_data := "PNG2" |}).
  assert (Hex : extractable (w_fs w) dest [m1; m2]).
  { apply extractable_check_sound. vm_compute. reflexivity. }
  apply (@relative_entries_accepted P (Demo.workdir ++ ["figures.zip"]) dest w
           "PK:plots/a.png=PNG1;b.png=PNG2;" [m1; m2]).
  - vm_compute. reflexivity.
  - vm_compute. reflexivity.
  - apply (ex_dest _ _ _ Hex).
  - apply (ex_nolink _ _ _ Hex).
  - apply (bool_decide_eq_false_1 (".." ∈ dest)). vm_compute. reflexivity.
  - intros m Hm. apply list_elem_of_In in Hm. simpl in Hm.
    destruct Hm as [<-|[<-|[]]]; (split; [vm_compute; reflexivity|]).
    + apply (bool_decide_eq_false_1 (".." ∈ Str.split Str.slash (zi_filename m1))).
      vm_compute. reflexivity.
    + apply (bool_decide_eq_false_1 (".." ∈ Str.split Str.slash (zi_filename m2))).
      vm_compute. reflexivity.
Defined.

(** ** [index]: the tools of a request *)

Lemma starts_quiet_bind {A B} (q : Py A) (k : A -> Py B) invs :
  quiet q -> (forall a, starts (k a) invs) -> starts (bind q k) invs.
Proof.
  intros Hq Hk w. unfold bind. specialize (Hq w).
  destruct (q w) as [[a|e] w1]; simpl in *.
  - destruct (Hk a w1) as (new & Hcalls & Htrace & Hok).
    exists new. rewrite Hcalls, Hq. auto.
  - exists []. rewrite Hq, app_nil_r. split; [reflexivity|]. split.
    + exists (Raise e). constructor.
    + discriminate.
Qed.

Lemma starts_bind_quiet {A B} (m : Py A) (k : A -> Py B) invs :
  starts m invs -> (forall a, quiet (k a)) -> starts (bind m k) invs.
Proof.
  intros Hm Hk w. unfold bind. destruct (Hm w) as (new & Hcalls & Htrace & Hok).
  destruct (m w) as [[a|e] w1]; simpl in *.
  - exists new. rewrite (Hk a w1), Hcalls. split; [reflexivity|]. split; [exact Htrace|].
    intros _ _. apply (Hok a). reflexivity.
  - exists new. split; [exact Hcalls|]. split; [exact Htrace | discriminate].
Qed.

Lemma quiet_if {A} (b : bool) (m1 m2 : Py A) :
  quiet m1 -> quiet m2 -> quiet (if b then m1 else m2).
Proof. destruct b; auto. Qed.

Section Tools.

Context {P : Platform}.

Lemma quiet_copy_assets dest : quiet (_copy_assets dest).
Proof.
  apply quiet_for. intros name.
  apply quiet_bind; [auto with quiet | intros b].
  apply quiet_if; [auto with quiet|].
  apply quiet_bind; auto with quiet.
Qed.

Lemma quiet_stage_bibliography paper_dir bib_file :
  quiet (stage_bibliography paper_dir bib_file).
Proof.
  apply quiet_bind; [apply quiet_fs_do | intros _].
  apply quiet_if; auto with quiet.
Qed.

Lemma quiet_safe_extract_zip zip_path dest : quiet (_safe_extract_zip zip_path dest).
Proof.
  apply quiet_bind; [auto with quiet | intros dest_resolved].
  apply quiet_bind.
  { apply quiet_bind; [auto with quiet | intros bytes].
    destruct (zip_infolist bytes); auto with quiet. }
  intros members. apply quiet_bind.
  - apply quiet_for. intros m. apply quiet_bind; [auto with quiet | intros p].
    apply quiet_if; auto with quiet.
  - intros _. apply quiet_for. intros m. auto with quiet.
Qed.

Lemma quiet_send_artifact work : quiet (send_artifact work).
Proof.
  apply quiet_bind; [auto with quiet | intros b].
  apply quiet_if; [auto with quiet|].
  apply quiet_bind; auto with quiet.
Qed.

Lemma starts_linked_conversion work paper_dir :
  starts (linked_conversion work paper_dir) (pipeline work paper_dir).
Proof.
  intros w.
  pose proof (linked_conversion_ok work paper_dir w) as Hok.
  unfold linked_conversion, bind in *.
  pose proof (quiet_link_paper_assets paper_dir work w) as Hq0.
  destruct (_link_paper_assets paper_dir work w) as [[links|e] w0]; simpl in Hq0.
  - unfold try_finally in *.
    destruct (run_conversion_traces work paper_dir w0) as (new & Hcalls & Htrace).
    destruct (_run_conversion work paper_dir w0) as [r wr]. simpl in *.
    pose proof (quiet_remove_links links wr) as Hq1.
    destruct (remove_links links wr) as [[[]|e] w2]; simpl in *.
    + exists new. rewrite Hq1, Hcalls, Hq0. split; [reflexivity|]. split; [eauto|].
      intros [] Hr. destruct (Hok w2) as (new' & Hcalls' & Hrest); [congruence|].
      rewrite Hq1, Hcalls, Hq0 in Hcalls'. apply app_inv_head in Hcalls'.
      subst new'. exact Hrest.
    + exists new. rewrite Hq1, Hcalls, Hq0. split; [reflexivity|]. split; [eauto|].
      discriminate.
  - exists []. simpl. rewrite Hq0, app_nil_r. split; [reflexivity|]. split.
    + exists (Raise e). constructor.
    + discriminate.
Qed.

Lemma starts_convert work paper_dir md_file bib_file fig_zip :
  starts (convert work paper_dir md_file bib_file fig_zip) (pipeline work paper_dir).
Proof.
  unfold convert.
  apply starts_quiet_bind; [apply quiet_copy_assets | intros _].
  apply starts_quiet_bind; [apply quiet_fs_do | intros _].
  apply starts_quiet_bind; [apply quiet_stage_bibliography | intros _].
  apply starts_quiet_bind; [apply quiet_fs_do | intros _].
  apply starts_quiet_bind; [apply quiet_safe_extract_zip | intros _].
  apply starts_bind_quiet; [apply starts_linked_conversion | intros _].
  apply quiet_send_artifact.
Qed.

(** Whatever the request, the disk and the tools do: the tools a request
    starts are the first ones of the five of the pipeline, in order, in its
    own workspace; all but the last one have exited with status zero; and
    when the answer is a file, all five have run and each has exited with
    status zero.  No other tool is ever started. *)
Theorem request_tools (request : Request) (w : World) :
  let work := mkdtemp_path "ieee-convert-" w in
  let tools := pipeline work (work // "paperFiles") in
  exists new,
    w_calls (index request w).2 = w_calls w ++ new
    /\ map call_inv new = take (length new) tools
    /\ (forall pre c, new = pre ++ [c] -> Forall exits_zero pre)
    /\ (forall bytes mimetype attachment name,
          (index request w).1 = Ok (send_file bytes mimetype attachment name) ->
          map call_inv new = tools /\ Forall exits_zero new).
Proof.
  intros work tools.
  assert (Hquiet : forall (r : Outcome Response) w',
            w_calls w' = w_calls w ->
            (forall bytes mimetype attachment name,
               r <> Ok (send_file bytes mimetype attachment name)) ->
            exists new,
              w_calls (r, w').2 = w_calls w ++ new
              /\ map call_inv new = take (length new) tools
              /\ (forall pre c, new = pre ++ [c] -> Forall exits_zero pre)
              /\ (forall bytes mimetype attachment name,
                    (r, w').1 = Ok (send_file bytes mimetype attachment name) ->
                    map call_inv new = tools /\ Forall exits_zero new)).
  { intros r w' Hcalls Hpage. exists []. simpl. rewrite app_nil_r.
    split; [exact Hcalls|]. split; [reflexivity|]. split.
    - intros pre c Heq. destruct pre; discriminate.
    - intros bytes mt att nm Hr. destruct (Hpage _ _ _ _ Hr). }
  unfold index.
  repeat match goal with
         | |- context [if ?b then _ else _] =>
             destruct b; [apply Hquiet; [reflexivity | intros ? ? ? ? Heq; simpl in Heq; discriminate Heq]|]
         end.
  unfold workspace, with_TemporaryDirectory. fold work.
  destruct (Os.mkdir work (w_fs w)) as [fs1|e1];
    [|apply Hquiet; [reflexivity | intros ? ? ? ? Heq; simpl in Heq; discriminate Heq]].
  unfold bind, fs_do. cbn [w_fs set_fs].
  destruct (Os.makedirs _ fs1) as [fs2|e2];
    [|apply (Hquiet (Raise e2)); [reflexivity | discriminate]].
  clear Hquiet.
  unfold try_except.
  match goal with
  | |- context [convert ?a ?b ?c ?d ?f ?w2] =>
      destruct (starts_convert a b c d f w2) as (new & Hcalls & [r Htrace] & Hok);
      destruct (convert a b c d f w2) as [[resp|e] w3]
  end; simpl in *.
  - exists new. split; [exact Hcalls|].
    split; [apply (trace_prefix _ _ _ Htrace)|]. split.
    + intros pre c Heq. apply (trace_last _ _ _ _ _ Htrace Heq).
    + intros bytes mt att nm _. apply (Hok resp). reflexivity.
  - destruct (handled e); simpl.
    + exists new. split; [exact Hcalls|].
      split; [apply (trace_prefix _ _ _ Htrace)|]. split.
      * intros pre c Heq. apply (trace_last _ _ _ _ _ Htrace Heq).
      * discriminate.
    + exists new. split; [exact Hcalls|].
      split; [apply (trace_prefix _ _ _ Htrace)|]. split.
      * intros pre c Heq. apply (trace_last _ _ _ _ _ Htrace Heq).
      * discriminate.
Qed.

End Tools.

(** ** [index]: a request leaves the disk as it found it

    Every step of a request writes inside its workspace, and the workspace
    is removed at the end.  What the steps keep is [confined]: outside the
    workspace the disk is the one the request started on, and inside it
    the entries have ordinary names and the links point into it, so that a
    write through a link stays inside as well. *)

(** *** Paths of the workspace *)

Lemma inside_prefix work p : inside work p -> work `prefix_of` p.
Proof. intros (rest & -> & _). apply prefix_app_r. reflexivity. Qed.

Lemma inside_refl work : inside work work.
Proof. exists []. rewrite app_nil_r. split; [reflexivity | constructor]. Qed.

Lemma inside_app work p l :
  inside work p -> Forall (fun c => PathLib.is_absolute c = false) l ->
  inside work (p ++ l).
Proof.
  intros (rest & -> & Hrest) Hl. exists (rest ++ l).
  rewrite app_assoc. split; [reflexivity | apply Forall_app; auto].
Qed.

Lemma inside_between work p t :
  inside work t -> work `prefix_of` p -> p `prefix_of` t -> inside work p.
Proof.
  intros (rest & -> & Hrest) [k ->] [k' Hk]. exists k. split; [reflexivity|].
  rewrite <- app_assoc in Hk. apply app_inv_head in Hk. subst rest.
  apply Forall_app in Hrest. tauto.
Qed.

Lemma inside_not_nil work p : work <> [] -> inside work p -> p <> [].
Proof. intros Hw (rest & -> & _) Heq. apply app_eq_nil in Heq as [? _]. contradiction. Qed.

Lemma Forall_removelast {A} (Q : A -> Prop) (l : list A) :
  Forall Q l -> Forall Q (removelast l).
Proof.
  induction 1 as [|x l Hx Hl IH]; simpl; [constructor|].
  destruct l; [constructor | constructor; assumption].
Qed.

Lemma inside_parent work rest :
  rest <> [] -> inside work (work ++ rest) -> inside work (PathLib.parent (work ++ rest)).
Proof.
  intros Hne (rest' & Heq & Hrest). apply app_inv_head in Heq. subst rest'.
  exists (removelast rest). split.
  - unfold PathLib.parent. apply removelast_app. exact Hne.
  - apply Forall_removelast. exact Hrest.
Qed.

Lemma inside_name work p n :
  inside work (p ++ [n]) -> work `prefix_of` p -> PathLib.is_absolute n = false.
Proof.
  intros (rest & Heq & Hrest) [k ->]. rewrite <- app_assoc in Heq.
  apply app_inv_head in Heq. subst rest. apply Forall_app in Hrest as [_ Hn].
  inversion Hn. assumption.
Qed.

(** The fields of a text split at the slashes do not begin with one. *)
Lemma of_chars_relative l :
  Forall (fun c => c <> Str.slash) l -> PathLib.is_absolute (Str.of_chars l) = false.
Proof.
  intros H. destruct H as [|c l Hc _]; [reflexivity|].
  unfold PathLib.is_absolute, Str.starts_with, Str.of_chars.
  cbn [string_of_list_ascii String.prefix].
  destruct (ascii_dec "/" c) as [Heq|_]; [|reflexivity].
  exfalso. apply Hc. symmetry. exact Heq.
Qed.

Lemma split_chars_relative l :
  forall cur, Forall (fun c => c <> Str.slash) cur ->
  Forall (fun c => PathLib.is_absolute c = false) (Str.split_chars Str.slash cur l).
Proof.
  induction l as [|c l IH]; intros cur Hcur; simpl.
  - constructor; [|constructor]. apply of_chars_relative.
    apply Forall_rev. exact Hcur.
  - destruct (Ascii.eqb_spec c Str.slash) as [->|Hne].
    + constructor; [|apply IH; constructor].
      apply of_chars_relative. apply Forall_rev. exact Hcur.
    + apply IH. constructor; assumption.
Qed.

Lemma split_relative s :
  Forall (fun c => PathLib.is_absolute c = false) (Str.split Str.slash s).
Proof. apply split_chars_relative. constructor. Qed.

Lemma Forall_filter_keep {A} (Q R : A -> Prop) `{!forall x, Decision (R x)} (l : list A) :
  Forall Q l -> Forall Q (filter R l).
Proof.
  rewrite !Forall_forall. intros HQ x Hx.
  apply list_elem_of_filter in Hx as [_ Hx]. auto.
Qed.

Lemma parse_parts_relative s :
  Forall (fun c => PathLib.is_absolute c = false) (PathLib.parse_parts s).
Proof. apply Forall_filter_keep. apply split_relative. Qed.

Lemma arcname_parts_relative s :
  Forall (fun c => PathLib.is_absolute c = false) (Zip.arcname_parts s).
Proof. apply Forall_filter_keep. apply split_relative. Qed.

Lemma inside_joinpath work p s :
  inside work p -> PathLib.is_absolute s = false -> inside work (p // s).
Proof.
  intros Hp Hs. unfold PathLib.joinpath. rewrite Hs.
  apply inside_app; [exact Hp | apply parse_parts_relative].
Qed.

(** *** The operations on the disk, inside the workspace *)

Lemma node_at_delete (fs : FS) p q :
  p <> [] -> Os.node_at (delete p fs) q = if decide (p = q) then None else Os.node_at fs q.
Proof.
  intros Hp. destruct (decide (p = q)) as [<-|Hne].
  - destruct p; [congruence|]. simpl. apply lookup_delete_eq.
  - destruct q; [reflexivity|]. simpl. apply lookup_delete_ne. exact Hne.
Qed.

Section Confined.

Variables (work : Path) (fs0 : FS).
Hypothesis Hwork : work <> [].
Hypothesis Habove :
  forall q, q `prefix_of` work -> q <> work -> Os.node_at fs0 q = Some Dir.

Lemma follow_inside fs p hops q :
  confined work fs0 fs -> inside work p ->
  Os.follow hops fs p = Ok q -> inside work q.
Proof.
  intros Hcf. revert p. induction hops as [|h IH]; intros p Hp; simpl.
  - destruct (Os.node_at fs p) as [[d| |t]|]; intros H; try discriminate;
      injection H as <-; exact Hp.
  - destruct (Os.node_at fs p) as [[d| |t]|] eqn:Hat; intros H;
      try (injection H as <-; exact Hp).
    apply (IH t); [|exact H].
    apply (cf_inside _ _ _ Hcf p _ (inside_prefix _ _ Hp) Hat). reflexivity.
Qed.

Lemma confined_insert fs p x :
  confined work fs0 fs -> inside work p ->
  (forall t, x = Symlink t -> inside work t) ->
  confined work fs0 (<[p := x]> fs).
Proof.
  intros Hcf Hp Hx. pose proof (inside_not_nil _ _ Hwork Hp) as Hne. constructor.
  - intros q Hq. rewrite node_at_insert by exact Hne.
    case_decide as Heq; [|apply (cf_outside _ _ _ Hcf); exact Hq].
    subst q. destruct Hq. apply inside_prefix. exact Hp.
  - intros q y Hq. rewrite node_at_insert by exact Hne.
    case_decide as Heq; [|apply (cf_inside _ _ _ Hcf); exact Hq].
    subst q. intros Hy. injection Hy as <-. split; assumption.
Qed.

Lemma confined_delete fs p :
  confined work fs0 fs -> inside work p -> confined work fs0 (delete p fs).
Proof.
  intros Hcf Hp. pose proof (inside_not_nil _ _ Hwork Hp) as Hne. constructor.
  - intros q Hq. rewrite node_at_delete by exact Hne.
    case_decide as Heq; [|apply (cf_outside _ _ _ Hcf); exact Hq].
    subst q. destruct Hq. apply inside_prefix. exact Hp.
  - intros q y Hq. rewrite node_at_delete by exact Hne.
    case_decide as Heq; [discriminate|]. apply (cf_inside _ _ _ Hcf). exact Hq.
Qed.

Lemma confined_grown fs fs' t :
  confined work fs0 fs -> inside work t -> grown fs fs' t -> confined work fs0 fs'.
Proof.
  intros Hcf Ht Hgrown. constructor.
  - intros p Hp. destruct (Hgrown p) as [->|(Hnone & _ & Hpre)];
      [apply (cf_outside _ _ _ Hcf); exact Hp|].
    exfalso.
    destruct (prefix_weak_total _ _ _ (inside_prefix _ _ Ht) Hpre) as [Hd|Hd];
      [contradiction|].
    rewrite (cf_outside _ _ _ Hcf p Hp) in Hnone.
    rewrite Habove in Hnone; [discriminate | exact Hd |].
    intros ->. apply Hp. reflexivity.
  - intros p x Hp Hx. destruct (Hgrown p) as [Heq|(_ & Hnew & Hpre)].
    + rewrite Heq in Hx. apply (cf_inside _ _ _ Hcf p x Hp Hx).
    + rewrite Hnew in Hx. injection Hx as <-. split; [|discriminate].
      apply (inside_between work p t); assumption.
Qed.

Lemma makedirs_confined fs fs' t :
  confined work fs0 fs -> inside work t ->
  Os.makedirs t fs = Ok fs' -> confined work fs0 fs'.
Proof.
  intros Hcf Ht Hrun. apply mkdirs_from_grown in Hrun.
  apply (confined_grown fs fs' t); assumption.
Qed.

Lemma mkdir_confined fs fs' p :
  confined work fs0 fs -> inside work p ->
  Os.mkdir p fs = Ok fs' -> confined work fs0 fs'.
Proof.
  intros Hcf Hp. unfold Os.mkdir.
  destruct (Os.node_at fs p); [discriminate|].
  destruct (Os.check_parent fs p); [|discriminate].
  intros H. injection H as <-. apply confined_insert; [assumption..|discriminate].
Qed.

Lemma write_file_confined fs fs' p d :
  confined work fs0 fs -> inside work p ->
  Os.write_file p d fs = Ok fs' -> confined work fs0 fs'.
Proof.
  intros Hcf Hp. unfold Os.write_file.
  destruct (Os.follow Os.max_hops fs p) as [q|] eqn:Hq; [|discriminate].
  apply (follow_inside _ _ _ _ Hcf Hp) in Hq.
  destruct (Os.node_at fs q) as [[d0| |t]|]; try discriminate.
  - intros H. injection H as <-. apply confined_insert; [assumption..|discriminate].
  - destruct (Os.check_parent fs q); [|discriminate].
    intros H. injection H as <-. apply confined_insert; [assumption..|discriminate].
Qed.

Lemma unlink_confined fs fs' p b :
  confined work fs0 fs -> inside work p ->
  Os.unlink b p fs = Ok fs' -> confined work fs0 fs'.
Proof.
  intros Hcf Hp. unfold Os.unlink.
  destruct (Os.node_at fs p) as [[d| |t]|]; try discriminate.
  - intros H. injection H as <-. apply confined_delete; assumption.
  - intros H. injection H as <-. apply confined_delete; assumption.
  - destruct b; [|discriminate]. intros H. injection H as <-. exact Hcf.
Qed.

Lemma symlink_confined fs fs' link target :
  confined work fs0 fs -> inside work link -> inside work target ->
  Os.symlink_to link target fs = Ok fs' -> confined work fs0 fs'.
Proof.
  intros Hcf Hl Ht. unfold Os.symlink_to.
  destruct (Os.node_at fs link); [discriminate|].
  destruct (Os.check_parent fs link); [|discriminate].
  intros H. injection H as <-. apply confined_insert; [assumption..|].
  intros t Heq. injection Heq as <-. exact Ht.
Qed.

Lemma copy_confined fs fs' src dst :
  confined work fs0 fs -> inside work dst ->
  PathLib.is_absolute (PathLib.name src) = false ->
  Os.copy src dst fs = Ok fs' -> confined work fs0 fs'.
Proof.
  intros Hcf Hdst Hname Hrun. unfold Os.copy in Hrun.
  set (dst' := if Os.is_dir fs dst then dst ++ [PathLib.name src] else dst) in *.
  assert (Hin : inside work dst').
  { unfold dst'. destruct (Os.is_dir fs dst); [|exact Hdst].
    apply inside_app; [exact Hdst | constructor; [exact Hname | constructor]]. }
  assert (Hwrite : exists d, Os.write_file dst' d fs = Ok fs').
  { destruct (Os.follow Os.max_hops fs src), (Os.follow Os.max_hops fs dst');
      try (destruct (bool_decide _); [discriminate|]);
      destruct (Os.read_file fs src) as [d|]; try discriminate; eauto. }
  destruct Hwrite as [d Hwrite].
  apply (write_file_confined fs fs' dst' d); assumption.
Qed.

Lemma extract_member_confined fs fs' d m :
  confined work fs0 fs -> d <> [] -> inside work (work ++ d) ->
  Zip.extract_member (work ++ d) m fs = Ok fs' -> confined work fs0 fs'.
Proof.
  intros Hcf Hd Hdest. unfold Zip.extract_member, Zip.target.
  set (parts := Zip.arcname_parts (zi_filename m)).
  assert (Ht : inside work ((work ++ d) ++ parts)).
  { apply inside_app; [exact Hdest | apply arcname_parts_relative]. }
  assert (Hup : inside work (PathLib.parent ((work ++ d) ++ parts))).
  { rewrite <- app_assoc in Ht |- *. apply inside_parent; [|exact Ht].
    intros Heq. apply app_eq_nil in Heq as [? _]. contradiction. }
  destruct (bool_decide (parts = []) && negb (Zip.is_dir m)); [discriminate|].
  destruct (if bool_decide _ && negb _ then _ else _) as [fs1|] eqn:Hmk; [|discriminate].
  assert (Hcf1 : confined work fs0 fs1).
  { destruct (bool_decide _ && negb _).
    - eapply makedirs_confined; [exact Hcf | exact Hup | exact Hmk].
    - injection Hmk as <-. exact Hcf. }
  destruct (Zip.is_dir m).
  - destruct (Os.is_dir fs1 _).
    + intros H. injection H as <-. exact Hcf1.
    + apply mkdir_confined; assumption.
  - apply write_file_confined; assumption.
Qed.

Lemma listdir_relative fs dir names :
  confined work fs0 fs -> inside work dir ->
  Os.listdir fs dir = Ok names ->
  Forall (fun n => PathLib.is_absolute n = false) names.
Proof.
  intros Hcf Hdir. unfold Os.listdir.
  destruct (Os.follow Os.max_hops fs dir) as [q|] eqn:Hq; [|discriminate].
  apply (follow_inside _ _ _ _ Hcf Hdir) in Hq.
  destruct (Os.node_at fs q) as [[d| |t]|]; try discriminate.
  intros H. injection H as <-. apply Forall_forall. intros n Hn.
  apply elem_of_children in Hn as [x Hx].
  assert (Hpre : work `prefix_of` q ++ [n]).
  { etransitivity; [apply inside_prefix; exact Hq | apply prefix_app_r; reflexivity]. }
  rewrite <- node_at_snoc in Hx.
  destruct (cf_inside _ _ _ Hcf _ _ Hpre Hx) as [Hin _].
  apply (inside_name work q n Hin). apply inside_prefix. exact Hq.
Qed.

End Confined.

(** *** Computations that keep a property of the disk *)

Lemma keeps_ret {A : Type} (I : FS -> Prop) (a : A) : keeps I (ret a).
Proof. intros w H. exact H. Qed.

Lemma keeps_raise {A : Type} (I : FS -> Prop) (e : exn) : keeps I (@raise A e).
Proof. intros w H. exact H. Qed.

Lemma keeps_bind {A B : Type} (I : FS -> Prop) (m : Py A) (k : A -> Py B) :
  keeps I m -> (forall a, keeps I (k a)) -> keeps I (bind m k).
Proof.
  intros Hm Hk w H. unfold bind. specialize (Hm w H).
  destruct (m w) as [[a|e] w1]; simpl in *; [apply Hk; exact Hm | exact Hm].
Qed.

Lemma keeps_if {A : Type} (I : FS -> Prop) (b : bool) (m1 m2 : Py A) :
  keeps I m1 -> keeps I m2 -> keeps I (if b then m1 else m2).
Proof. destruct b; auto. Qed.

Lemma keeps_for {A : Type} (I : FS -> Prop) (l : list A) (body : A -> Py unit) :
  (forall x, x ∈ l -> keeps I (body x)) -> keeps I (for_ l body).
Proof.
  induction l as [|x l IH]; intros Hbody; simpl; [apply keeps_ret|].
  apply keeps_bind; [apply Hbody; left|intros _].
  apply IH. intros y Hy. apply Hbody. right. exact Hy.
Qed.

Lemma keeps_fs_do (I : FS -> Prop) op :
  (forall fs fs', I fs -> op fs = Ok fs' -> I fs') -> keeps I (fs_do op).
Proof.
  intros Hop w H. unfold fs_do. destruct (op (w_fs w)) as [fs'|] eqn:Hrun; simpl;
    [eapply Hop; eassumption | exact H].
Qed.

Lemma keeps_fs_get {A : Type} (I : FS -> Prop) (op : FS -> Outcome A) : keeps I (fs_get op).
Proof. intros w H. unfold fs_get. destruct (op (w_fs w)); exact H. Qed.

Lemma keeps_fs_test (I : FS -> Prop) op : keeps I (fs_test op).
Proof. intros w H. exact H. Qed.

Lemma keeps_try_finally {A : Type} (I : FS -> Prop) (body : Py A) (fin : Py unit) :
  keeps I body -> keeps I fin -> keeps I (try_finally body fin).
Proof.
  intros Hb Hf w H. unfold try_finally. specialize (Hb w H).
  destruct (body w) as [r w1]. specialize (Hf w1 Hb).
  destruct (fin w1) as [[[]|e] w2]; exact Hf.
Qed.

Lemma keeps_try_except {A : Type} (I : FS -> Prop) (body : Py A) caught (handler : exn -> Py A) :
  keeps I body -> (forall e, keeps I (handler e)) -> keeps I (try_except body caught handler).
Proof.
  intros Hb Hh w H. unfold try_except. specialize (Hb w H).
  destruct (body w) as [[a|e] w1]; simpl in *; [exact Hb|].
  destruct (caught e); [apply Hh; exact Hb | exact Hb].
Qed.

#[local] Hint Resolve keeps_ret keeps_raise keeps_fs_get keeps_fs_test : keeps.

(** *** The steps of a request stay in the workspace *)

Lemma name_app_last (p : Path) (l : list string) n :
  PathLib.name (p ++ l ++ [n]) = n.
Proof. rewrite app_assoc. apply name_snoc. Qed.

Section Frame.

Context {P : Platform}.

Variables (work : Path) (fs0 : FS).
Hypothesis Hwork : work <> [].
Hypothesis Habove :
  forall q, q `prefix_of` work -> q <> work -> Os.node_at fs0 q = Some Dir.
Hypothesis Htools :
  forall inv w, inv_cwd inv = work ->
    confined work fs0 (w_fs w) -> confined work fs0 (subprocess_run inv w).2.

Let I := confined work fs0.

Lemma inside_work_app l :
  Forall (fun c => PathLib.is_absolute c = false) l -> inside work (work ++ l).
Proof. intros Hl. apply inside_app; [apply inside_refl | exact Hl]. Qed.

Lemma keeps_write p d : inside work p -> keeps I (fs_do (Os.write_file p d)).
Proof.
  intros Hp. apply keeps_fs_do. intros fs fs' Hcf Hrun.
  eapply write_file_confined; eassumption.
Qed.

Lemma keeps_makedirs p : inside work p -> keeps I (fs_do (Os.makedirs p)).
Proof.
  intros Hp. apply keeps_fs_do. intros fs fs' Hcf Hrun.
  eapply makedirs_confined; eassumption.
Qed.

Lemma keeps_copy src dst :
  inside work dst -> PathLib.is_absolute (PathLib.name src) = false ->
  keeps I (fs_do (Os.copy src dst)).
Proof.
  intros Hp Hn. apply keeps_fs_do. intros fs fs' Hcf Hrun.
  eapply copy_confined; eassumption.
Qed.

Lemma keeps_copy_assets : keeps I (_copy_assets work).
Proof.
  apply keeps_for. intros name Hname.
  assert (Hcase : exists x, PathLib.is_absolute x = false
                            /\ work // name = work ++ ["ieee"; x]
                            /\ APP_ROOT // name = APP_ROOT ++ ["ieee"; x]).
  { apply list_elem_of_In in Hname. simpl in Hname.
    repeat destruct Hname as [<-|Hname]; try contradiction;
      eexists; (split; [|split; reflexivity]); reflexivity. }
  destruct Hcase as (x & Hx & -> & ->).
  apply keeps_bind; [auto with keeps | intros b].
  apply keeps_if; [auto with keeps|].
  apply keeps_bind; [|intros _].
  - apply keeps_makedirs.
    change (work ++ ["ieee"; x]) with (work ++ ["ieee"] ++ [x]).
    rewrite app_assoc. unfold PathLib.parent. rewrite removelast_last.
    apply inside_work_app. repeat constructor.
  - apply keeps_copy.
    + apply inside_work_app. repeat constructor. exact Hx.
    + change (APP_ROOT ++ ["ieee"; x]) with (APP_ROOT ++ ["ieee"] ++ [x]).
      rewrite name_app_last. exact Hx.
Qed.

Lemma keeps_stage_bibliography bib_file :
  PathLib.is_absolute (bib_name_of bib_file) = false ->
  keeps I (stage_bibliography (work ++ ["paperFiles"]) bib_file).
Proof.
  intros Hname. unfold stage_bibliography.
  assert (Hdir : inside work (work ++ ["paperFiles"])).
  { apply inside_work_app. repeat constructor. }
  apply keeps_bind; [|intros _].
  - apply keeps_write. apply inside_joinpath; assumption.
  - apply keeps_if; [|auto with keeps].
    apply keeps_copy; [apply inside_joinpath; [exact Hdir | reflexivity]|].
    unfold PathLib.joinpath. rewrite Hname.
    pose proof (parse_parts_relative (bib_name_of bib_file)) as Hparts.
    destruct (PathLib.parse_parts (bib_name_of bib_file)) as [|c l] eqn:Hpp
      using rev_ind.
    + rewrite app_nil_r. rewrite name_snoc. reflexivity.
    + rewrite app_assoc, name_snoc.
      apply Forall_app in Hparts as [_ Hc]. inversion Hc. assumption.
Qed.

Lemma keeps_safe_extract_zip zip_path :
  keeps I (_safe_extract_zip zip_path (work ++ ["paperFiles"])).
Proof.
  apply keeps_bind; [auto with keeps | intros dest_resolved].
  apply keeps_bind.
  { apply keeps_bind; [auto with keeps | intros bytes].
    destruct (zip_infolist bytes); auto with keeps. }
  intros members. apply keeps_bind.
  - apply keeps_for. intros m _. apply keeps_bind; [auto with keeps | intros p].
    apply keeps_if; auto with keeps.
  - intros _. apply keeps_for. intros m _. apply keeps_fs_do.
    intros fs fs' Hcf Hrun.
    eapply (extract_member_confined work fs0 Hwork Habove fs fs' ["paperFiles"]);
      [exact Hcf | discriminate | | exact Hrun].
    apply inside_work_app. repeat constructor.
Qed.

Lemma keeps_link_entry src_rest links n :
  Forall (fun c => PathLib.is_absolute c = false) src_rest ->
  PathLib.is_absolute n = false ->
  keeps I (link_entry (work ++ src_rest) work links n).
Proof.
  intros Hsrc Hn. unfold link_entry. case_bool_decide as Hsuf; [apply keeps_ret|].
  rewrite name_snoc.
  apply keeps_bind; [auto with keeps | intros b].
  apply keeps_if; [auto with keeps|].
  apply keeps_bind; [|auto with keeps].
  apply keeps_fs_do. intros fs fs' Hcf Hrun.
  eapply (symlink_confined work fs0 Hwork); [exact Hcf | | | exact Hrun].
  - apply inside_joinpath; [apply inside_refl | exact Hn].
  - rewrite <- app_assoc. apply inside_work_app.
    apply Forall_app. split; [exact Hsrc | repeat constructor; exact Hn].
Qed.

Lemma keeps_link_entries src_rest names :
  Forall (fun c => PathLib.is_absolute c = false) src_rest ->
  Forall (fun c => PathLib.is_absolute c = false) names ->
  forall links, keeps I (link_entries (work ++ src_rest) work links names).
Proof.
  intros Hsrc Hnames. induction Hnames as [|n names Hn _ IH]; intros links; simpl.
  - apply keeps_ret.
  - apply keeps_bind; [apply keeps_link_entry; assumption | intros links'; apply IH].
Qed.

Lemma keeps_link_paper_assets src_rest :
  Forall (fun c => PathLib.is_absolute c = false) src_rest ->
  keeps I (_link_paper_assets (work ++ src_rest) work).
Proof.
  intros Hsrc w Hcf. unfold _link_paper_assets, bind, fs_test, fs_get.
  destruct (negb (Os.exists_ (w_fs w) (work ++ src_rest))); [exact Hcf|].
  destruct (Os.listdir (w_fs w) (work ++ src_rest)) as [names|] eqn:Hls; [|exact Hcf].
  apply keeps_link_entries; [exact Hsrc | | exact Hcf].
  eapply (listdir_relative work fs0); [exact Hcf | | exact Hls].
  apply inside_work_app. exact Hsrc.
Qed.

(** The links [_link_paper_assets] returns are paths of the workspace. *)
Lemma link_entries_inside src names :
  Forall (fun c => PathLib.is_absolute c = false) names ->
  forall links w links',
    Forall (inside work) links ->
    (link_entries src work links names w).1 = Ok links' ->
    Forall (inside work) links'.
Proof.
  induction 1 as [|n names Hn _ IH]; intros links w links' Hlinks; simpl.
  - intros H. injection H as <-. exact Hlinks.
  - unfold bind.
    destruct (link_entry src work links n w) as [[links1|e] w1] eqn:Hstep;
      [|discriminate].
    apply IH.
    revert Hstep. unfold link_entry. case_bool_decide as Hsuf.
    + intros H. injection H as <- _. exact Hlinks.
    + unfold bind, fs_test. destruct (Os.exists_ _ _).
      * intros H. injection H as <- _. exact Hlinks.
      * unfold fs_do. destruct (Os.symlink_to _ _ _); [|discriminate].
        intros H. injection H as <- _. apply Forall_app. split; [exact Hlinks|].
        constructor; [|constructor]. rewrite name_snoc.
        apply inside_joinpath; [apply inside_refl | exact Hn].
Qed.

Lemma keeps_remove_links links :
  Forall (inside work) links -> keeps I (remove_links links).
Proof.
  intros Hlinks. apply keeps_for. intros l Hl. apply keeps_fs_do.
  intros fs fs' Hcf Hrun. rewrite Forall_forall in Hlinks.
  eapply (unlink_confined work fs0 Hwork); [exact Hcf | apply Hlinks; exact Hl | exact Hrun].
Qed.

Lemma keeps_run cmd env : keeps I (_run cmd work env).
Proof.
  intros w Hcf. unfold _run.
  pose proof (Htools {| inv_cmd := cmd; inv_cwd := work; inv_env := env |} w
                eq_refl Hcf) as Hafter.
  destruct (subprocess_run _ w) as [[c|e] fs']; simpl in *.
  - destruct (returncode c =? 0)%Z; exact Hafter.
  - exact Hafter.
Qed.

Lemma keeps_glob_star_bind {B : Type} dir_rest ext (k : list Path -> Py B) :
  Forall (fun c => PathLib.is_absolute c = false) dir_rest ->
  (forall bibs,
     Forall (fun bib => PathLib.is_absolute (PathLib.name bib) = false) bibs ->
     keeps I (k bibs)) ->
  keeps I (bind (glob_star (work ++ dir_rest) ext) k).
Proof.
  intros Hdir Hk w Hcf. unfold bind, glob_star.
  destruct (Os.listdir (w_fs w) (work ++ dir_rest)) as [names|] eqn:Hls.
  - apply Hk; [|exact Hcf].
    assert (Hnames : Forall (fun n => PathLib.is_absolute n = false) names).
    { eapply (listdir_relative work fs0); [exact Hcf | | exact Hls].
      apply inside_work_app. exact Hdir. }
    apply Forall_forall. intros bib Hbib.
    apply list_elem_of_fmap in Hbib as (n & -> & Hn).
    apply list_elem_of_filter in Hn as [_ Hn].
    rewrite Forall_forall in Hnames. rewrite name_snoc. apply Hnames. exact Hn.
  - apply Hk; [constructor | exact Hcf].
Qed.

Lemma keeps_run_conversion :
  keeps I (_run_conversion work (work ++ ["paperFiles"])).
Proof.
  unfold _run_conversion.
  assert (Hout : inside work (work ++ ["outputs"])).
  { apply inside_work_app. repeat constructor. }
  apply keeps_bind; [apply keeps_makedirs; exact Hout | intros _].
  apply keeps_bind; [apply keeps_run | intros _].
  apply keeps_bind; [auto with keeps | intros text].
  apply keeps_bind; [|intros _].
  { apply keeps_write. apply inside_joinpath; [exact Hout | reflexivity]. }
  apply keeps_bind; [|intros _].
  { apply keeps_for. intros ext Hext. apply keeps_fs_do. intros fs fs' Hcf Hrun.
    eapply (unlink_confined work fs0 Hwork); [exact Hcf | | exact Hrun].
    apply list_elem_of_In in Hext. simpl in Hext.
    repeat destruct Hext as [<-|Hext]; try contradiction;
      (apply inside_joinpath; [exact Hout | reflexivity]). }
  apply keeps_glob_star_bind; [repeat constructor | intros bibs Hbibs].
  apply keeps_bind; [|intros _].
  { apply keeps_for. intros bib Hbib. rewrite Forall_forall in Hbibs.
    apply keeps_copy; [|apply Hbibs; exact Hbib].
    apply inside_joinpath; [exact Hout | apply Hbibs; exact Hbib]. }
  repeat (apply keeps_bind; [apply keeps_run | intros _]). apply keeps_run.
Qed.

Lemma keeps_linked_conversion :
  keeps I (linked_conversion work (work ++ ["paperFiles"])).
Proof.
  intros w Hcf. unfold linked_conversion, bind.
  pose proof (keeps_link_paper_assets ["paperFiles"] ltac:(repeat constructor) w Hcf)
    as Hcf1.
  destruct (_link_paper_assets (work ++ ["paperFiles"]) work w) as [[links|e] w1] eqn:Hlink;
    [|exact Hcf1].
  simpl in Hcf1.
  apply keeps_try_finally; [apply keeps_run_conversion | | exact Hcf1].
  apply keeps_remove_links.
  revert Hlink. unfold _link_paper_assets, bind, fs_test, fs_get.
  destruct (negb (Os.exists_ (w_fs w) (work ++ ["paperFiles"])));
    [intros H; injection H as <- _; constructor|].
  destruct (Os.listdir (w_fs w) (work ++ ["paperFiles"])) as [names|] eqn:Hls;
    [|discriminate].
  intros Hrun.
  apply (link_entries_inside (work ++ ["paperFiles"]) names) with (links := []) (w := w).
  - eapply (listdir_relative work fs0); [exact Hcf | | exact Hls].
    apply inside_work_app. repeat constructor.
  - constructor.
  - rewrite Hrun. reflexivity.
Qed.

Lemma keeps_send_artifact : keeps I (send_artifact work).
Proof.
  apply keeps_bind; [auto with keeps | intros b].
  apply keeps_if; [auto with keeps|].
  apply keeps_bind; auto with keeps.
Qed.

Lemma keeps_convert md_file bib_file fig_zip :
  PathLib.is_absolute (bib_name_of bib_file) = false ->
  keeps I (convert work (work // "paperFiles") md_file bib_file fig_zip).
Proof.
  intros Hname. change (work // "paperFiles") with (work ++ ["paperFiles"]).
  unfold convert.
  assert (Hdir : inside work (work ++ ["paperFiles"])).
  { apply inside_work_app. repeat constructor. }
  apply keeps_bind; [apply keeps_copy_assets | intros _].
  apply keeps_bind; [|intros _].
  { apply keeps_write. apply inside_joinpath; [exact Hdir | reflexivity]. }
  apply keeps_bind; [apply keeps_stage_bibliography; exact Hname | intros _].
  apply keeps_bind; [|intros _].
  { apply keeps_write. apply inside_joinpath; [apply inside_refl | reflexivity]. }
  apply keeps_bind; [apply keeps_safe_extract_zip | intros _].
  apply keeps_bind; [apply keeps_linked_conversion | intros _].
  apply keeps_send_artifact.
Qed.

End Frame.

Section LeavesDisk.

Context {P : Platform}.

(** Suppose the name drawn for the workspace is new (nothing is at or
    below its path, and the directories above it exist), the sanitized
    name of the bibliography is not an absolute path, and the tools, run
    in the workspace, keep the disk [confined]: they change nothing
    outside it and leave no link that points out of it.  Then, whatever
    the request and however it ends, every path holds after the request
    what it held before: the uploads, the assets, the extracted archive,
    the links and the outputs are all gone, and nothing else has been
    touched. *)
Theorem request_leaves_disk (request : Request) (w : World) :
  let work := mkdtemp_path "ieee-convert-" w in
  let bib_file := upload (files_get (req_files request) "bib_file") in
  (forall p, work `prefix_of` p -> Os.node_at (w_fs w) p = None) ->
  (forall q, q `prefix_of` work -> q <> work -> Os.node_at (w_fs w) q = Some Dir) ->
  PathLib.is_absolute (bib_name_of bib_file) = false ->
  (forall inv w', inv_cwd inv = work ->
     confined work (w_fs w) (w_fs w') ->
     confined work (w_fs w) (subprocess_run inv w').2) ->
  forall p, Os.node_at (w_fs (index request w).2) p = Os.node_at (w_fs w) p.
Proof.
  intros work bib_file Hnew Habove Hname Htools p.
  assert (Hwork : work <> []).
  { unfold work, mkdtemp_path. apply snoc_not_nil. }
  unfold index.
  repeat match goal with
         | |- context [if ?b then _ else _] => destruct b; [reflexivity|]
         end.
  unfold workspace, with_TemporaryDirectory. fold work.
  destruct (Os.mkdir work (w_fs w)) as [fs1|] eqn:Hmk; [|reflexivity].
  assert (Hcf1 : confined work (w_fs w) fs1).
  { apply (mkdir_confined work (w_fs w) Hwork (w_fs w) fs1 work);
      [|apply inside_refl | exact Hmk].
    constructor; [reflexivity|]. intros q x Hq Hx. rewrite (Hnew q Hq) in Hx.
    discriminate. }
  match goal with
  | |- context [(fs_do ?op ;; ?k) (set_fs w fs1)] =>
      assert (Hbody : keeps (confined work (w_fs w)) (fs_do op ;; k))
  end.
  { apply keeps_bind; [|intros _].
    - apply keeps_makedirs; try assumption.
      apply inside_joinpath; [apply inside_refl | reflexivity].
    - apply keeps_try_except.
      + apply keeps_convert; assumption.
      + intros e. apply keeps_ret. }
  specialize (Hbody (set_fs w fs1) Hcf1).
  match goal with
  | H : confined _ _ (w_fs (?m ?w1).2) |- _ => destruct (m w1) as [r w2]
  end.
  simpl in *.
  destruct (decide (work `prefix_of` p)) as [Hin|Hout].
  - rewrite (Hnew p Hin). destruct p as [|c p'].
    + apply prefix_nil_inv in Hin. contradiction.
    + simpl. apply rmtree_below. exact Hin.
  - rewrite <- (cf_outside _ _ _ Hbody p Hout). destruct p as [|c p']; [reflexivity|].
    simpl. apply rmtree_elsewhere. exact Hout.
Qed.

End LeavesDisk.

(** The tools of the demonstration platform write in the [outputs] directory
    of their working directory. *)
Lemma tool_writes_cases pdf inv fs :
  Demo.tool_writes pdf inv fs = fs
  \/ exists n d, PathLib.is_absolute n = false
       /\ Demo.tool_writes pdf inv fs = <[inv_cwd inv ++ ["outputs"; n] := File d]> fs.
Proof.
  unfold Demo.tool_writes.
  repeat case_match; auto; right; do 2 eexists; (split; [|reflexivity]); reflexivity.
Qed.

Lemma demo_disk_keys p x :
  Demo.disk !! p = Some x -> hd "" p = "srv" \/ p = ["tmp"].
Proof.
  intros H. apply elem_of_list_to_map_2 in H. apply list_elem_of_In in H.
  vm_compute in H. 
  repeat destruct H as [H|H]; try contradiction; injection H as <- _; auto.
Qed.

Lemma request_leaves_disk_witness :
  let P := Demo.platform None in
  let request := Demo.post (Some Demo.md) (Some Demo.bib) (Some Demo.figs) in
  let after := w_fs (index request Demo.world).2 in
  Os.node_at after (Demo.workdir ++ ["outputs"; "paper.pdf"]) = None
  /\ Os.node_at after ["srv"; "app"; "ieee"; "ieee.csl"]
     = Some (File "asset ieee/ieee.csl").
Proof.
  intros P request after.
  assert (H : forall p, Os.node_at after p = Os.node_at Demo.disk p).
  { apply (@request_leaves_disk P request Demo.world).
    - intros p [k ->]. change (Demo.disk !! ("tmp" :: "ieee-convert-k3x9" :: k) = None).
      destruct (Demo.disk !! _) as [x|] eqn:Hx; [|reflexivity].
      apply demo_disk_keys in Hx as [Hx|Hx]; discriminate.
    - intros q Hq Hne. apply elem_of_inits in Hq.
      apply list_elem_of_In in Hq. simpl in Hq.
      destruct Hq as [<-|[<-|[<-|[]]]]; [reflexivity | reflexivity | contradiction].
    - reflexivity.
    - intros inv w' Hcwd Hcf. unfold subprocess_run, P, Demo.platform, Demo.platform_with.
      unfold Demo.run. rewrite bool_decide_eq_false_2 by discriminate. simpl.
      destruct (tool_writes_cases true inv (w_fs w')) as [->|(n & d & Hn & ->)];
        [exact Hcf|].
      apply confined_insert; [discriminate | exact Hcf | | discriminate].
      rewrite Hcwd. apply inside_app; [apply inside_refl|].
      repeat constructor. exact Hn. }
  split; rewrite H; reflexivity.
Defined.

(** ** [index]: the request from end to end *)

Lemma follow_insert_file fs q d hops :
  q <> [] ->
  forall p, Os.follow hops fs p = Ok q ->
            Os.follow hops (<[q := File d]> fs) p = Ok q.
Proof.
  intros Hq. induction hops as [|h IH]; intros p; simpl;
    rewrite node_at_insert by exact Hq; case_decide as Heq;
    try (subst p; reflexivity).
  - destruct (Os.node_at fs p) as [[| |t]|]; intros H; congruence.
  - destruct (Os.node_at fs p) as [[| |t]|]; intros H; try congruence.
    apply IH. exact H.
Qed.

Lemma write_then_read fs fs' p d :
  Os.write_file p d fs = Ok fs' -> Os.read_file fs' p = Ok d.
Proof.
  unfold Os.write_file, Os.read_file.
  destruct (Os.follow Os.max_hops fs p) as [q|] eqn:Hq; [|discriminate].
  assert (Hdone : q <> [] -> fs' = <[q := File d]> fs ->
                  match Os.follow Os.max_hops fs' p with
                  | Ok q0 => match Os.node_at fs' q0 with
                             | Some (File d0) => Ok d0
                             | Some Dir => Raise (OSError EISDIR p)
                             | _ => Raise (OSError ENOENT p)
                             end
                  | Raise e => Raise e
                  end = Ok d).
  { intros Hne ->. rewrite (follow_insert_file fs q d _ Hne p Hq).
    rewrite node_at_insert_eq by exact Hne. reflexivity. }
  destruct (Os.node_at fs q) as [[d0| |t]|] eqn:Hat; try discriminate.
  - intros H. injection H as <-. apply Hdone; [|reflexivity].
    intros ->. discriminate.
  - destruct (Os.check_parent fs q); [|discriminate].
    intros H. injection H as <-. apply Hdone; [|reflexivity].
    intros ->. discriminate.
Qed.

Section EndToEnd.

Context {P : Platform}.

(** The workspace of a request that passes the guards: the outcome of
    [index] is that of the body of the [try], answered by the handler when
    it is a handled exception, and the workspace is removed from the disk
    the body left. *)
Lemma index_in_workspace (request : Request) (w : World) fs1 fs2 r w1 :
  accepted request = true ->
  let work := mkdtemp_path "ieee-convert-" w in
  let file key := upload (files_get (req_files request) key) in
  Os.mkdir work (w_fs w) = Ok fs1 ->
  Os.makedirs (work // "paperFiles") fs1 = Ok fs2 ->
  try_except (convert work (work // "paperFiles") (file "md_file") (file "bib_file")
                (file "fig_zip")) handled report (set_fs w fs2) = (r, w1) ->
  index request w = (r, set_fs w1 (Os.rmtree work (w_fs w1))).
Proof.
  intros Hacc work file Hmk Hmkd Htry.
  rewrite (index_accepted _ _ Hacc).
  unfold workspace, with_TemporaryDirectory. fold work. rewrite Hmk.
  unfold bind at 1, fs_do at 1. simpl. rewrite Hmkd. simpl.
  change (set_fs (set_fs w fs1) fs2) with (set_fs w fs2).
  unfold file in Htry. rewrite Htry. reflexivity.
Qed.

(** Once the uploads are staged, what is left of the body of the [try] is
    the extraction, the pipeline and the artifact; no tool has run yet,
    and the archive on disk holds the bytes of the upload. *)
Lemma convert_staged work paper_dir md_file bib_file fig_zip w2 w3 :
  (_copy_assets work ;;
   save md_file (paper_dir // "paper.md") ;;
   stage_bibliography paper_dir bib_file ;;
   save fig_zip (work // "figures.zip")) w2 = (Ok tt, w3) ->
  convert work paper_dir md_file bib_file fig_zip w2
  = (_safe_extract_zip (work // "figures.zip") paper_dir ;;
     linked_conversion work paper_dir ;;
     send_artifact work) w3
  /\ w_calls w3 = w_calls w2
  /\ Os.read_file (w_fs w3) (work // "figures.zip") = Ok (stream fig_zip).
Proof.
  intros Hstage.
  apply bind_ok_inv in Hstage as ([] & wa & Hcopy & Hstage).
  apply bind_ok_inv in Hstage as ([] & wb & Hmd & Hstage).
  apply bind_ok_inv in Hstage as ([] & wc & Hbib & Hfig).
  split; [|split].
  - unfold convert.
    erewrite bind_ok by exact Hcopy. erewrite bind_ok by exact Hmd.
    erewrite bind_ok by exact Hbib. erewrite bind_ok by exact Hfig. reflexivity.
  - pose proof (quiet_copy_assets work w2) as H1. rewrite Hcopy in H1.
    pose proof (quiet_fs_do (Os.write_file (paper_dir // "paper.md") (stream md_file)) wa)
      as H2.
    unfold save in Hmd. rewrite Hmd in H2.
    pose proof (quiet_stage_bibliography paper_dir bib_file wb) as H3. rewrite Hbib in H3.
    pose proof (quiet_fs_do (Os.write_file (work // "figures.zip") (stream fig_zip)) wc)
      as H4.
    unfold save in Hfig. rewrite Hfig in H4.
    simpl in *. congruence.
  - unfold save, fs_do in Hfig.
    destruct (Os.write_file _ _ (w_fs wc)) as [fs'|] eqn:Hw; [|discriminate].
    injection Hfig as <-. simpl. eapply write_then_read. exact Hw.
Qed.

(** When the uploads have been staged and the bytes of the figures upload
    are not those of an archive, the request does not end with an answer:
    [BadZipFile] is not one of the handled classes, so it leaves [index].
    No tool has run, and the workspace is removed all the same. *)
Theorem archive_not_a_zip (request : Request) (w : World) fs1 fs2 w3 :
  accepted request = true ->
  let work := mkdtemp_path "ieee-convert-" w in
  let paper_dir := work // "paperFiles" in
  let file key := upload (files_get (req_files request) key) in
  Os.mkdir work (w_fs w) = Ok fs1 ->
  Os.makedirs paper_dir fs1 = Ok fs2 ->
  (_copy_assets work ;;
   save (file "md_file") (paper_dir // "paper.md") ;;
   stage_bibliography paper_dir (file "bib_file") ;;
   save (file "fig_zip") (work // "figures.zip")) (set_fs w fs2) = (Ok tt, w3) ->
  zip_infolist (stream (file "fig_zip")) = None ->
  index request w = (Raise BadZipFile, set_fs w3 (Os.rmtree work (w_fs w3)))
  /\ handled BadZipFile = false
  /\ w_calls w3 = w_calls w.
Proof.
  intros Hacc work paper_dir file Hmk Hmkd Hstage Hzip.
  subst work paper_dir file. cbv beta in *.
  apply convert_staged in Hstage as (Hconv & Hcalls & Hread).
  split; [|split; [reflexivity | exact Hcalls]].
  apply (index_in_workspace request w fs1 fs2 (Raise BadZipFile) w3 Hacc Hmk Hmkd).
  unfold try_except. rewrite Hconv.
  erewrite (bind_raise _ _ _ BadZipFile w3); [reflexivity|].
  unfold _safe_extract_zip. unfold bind at 1. unfold fs_get at 1. simpl.
  apply bind_raise. unfold ZipFile, bind, fs_get. rewrite Hread, Hzip. reflexivity.
Qed.

(** The request that [test_zip_path_traversal_rejected] makes, for any
    uploads: when the uploads have been staged and the archive has an entry
    whose resolved destination is outside the manuscript directory, the
    answer is the page with the unsafe-path message and an empty log; no
    entry has been extracted, no tool has run, and the workspace is
    removed. *)
Theorem unsafe_archive_answer (request : Request) (w : World) fs1 fs2 w3 members m :
  accepted request = true ->
  let work := mkdtemp_path "ieee-convert-" w in
  let paper_dir := work // "paperFiles" in
  let file key := upload (files_get (req_files request) key) in
  Os.mkdir work (w_fs w) = Ok fs1 ->
  Os.makedirs paper_dir fs1 = Ok fs2 ->
  (_copy_assets work ;;
   save (file "md_file") (paper_dir // "paper.md") ;;
   stage_bibliography paper_dir (file "bib_file") ;;
   save (file "fig_zip") (work // "figures.zip")) (set_fs w fs2) = (Ok tt, w3) ->
  zip_infolist (stream (file "fig_zip")) = Some members ->
  m ∈ members ->
  member_safe (w_fs w3) paper_dir m = false ->
  index request w
  = (Ok (render_template "index.html" (Some "Zip file contains an unsafe path.")
           (Some "")),
     set_fs w3 (Os.rmtree work (w_fs w3)))
  /\ w_calls w3 = w_calls w.
Proof.
  intros Hacc work paper_dir file Hmk Hmkd Hstage Hzip Hin Hunsafe.
  subst work paper_dir file. cbv beta in *.
  apply convert_staged in Hstage as (Hconv & Hcalls & Hread).
  split; [|exact Hcalls].
  apply (index_in_workspace request w fs1 fs2
           (Ok (render_template "index.html" (Some "Zip file contains an unsafe path.")
                  (Some ""))) w3 Hacc Hmk Hmkd).
  unfold try_except. rewrite Hconv.
  erewrite (bind_raise _ _ _ (ValueError unsafe_path_message) w3); [reflexivity|].
  rewrite (safe_extract_unfold _ _ _ _ _ Hread Hzip).
  destruct (forallb _ _) eqn:Hall; [|reflexivity].
  rewrite forallb_forall in Hall. apply list_elem_of_In in Hin.
  rewrite (Hall m Hin) in Hunsafe. discriminate.
Qed.

(** The request that [test_upload_converts_to_pdf] makes, for any uploads:
    when the uploads have been staged, the archive extracted, the block of
    the pipeline has ended normally and [outputs/paper.pdf] can be read,
    the answer is that file as an attachment named [paper.pdf] of type
    [application/pdf]; the five tools have run, in order, each with
    status zero; and the workspace is removed. *)
Theorem converted_answer (request : Request) (w : World) fs1 fs2 w3 w4 w5 bytes :
  accepted request = true ->
  let work := mkdtemp_path "ieee-convert-" w in
  let paper_dir := work // "paperFiles" in
  let file key := upload (files_get (req_files request) key) in
  Os.mkdir work (w_fs w) = Ok fs1 ->
  Os.makedirs paper_dir fs1 = Ok fs2 ->
  (_copy_assets work ;;
   save (file "md_file") (paper_dir // "paper.md") ;;
   stage_bibliography paper_dir (file "bib_file") ;;
   save (file "fig_zip") (work // "figures.zip")) (set_fs w fs2) = (Ok tt, w3) ->
  _safe_extract_zip (work // "figures.zip") paper_dir w3 = (Ok tt, w4) ->
  linked_conversion work paper_dir w4 = (Ok tt, w5) ->
  Os.read_file (w_fs w5) (work // "outputs" // "paper.pdf") = Ok bytes ->
  index request w
  = (Ok (send_file bytes "application/pdf" true "paper.pdf"),
     set_fs w5 (Os.rmtree work (w_fs w5)))
  /\ exists new,
       w_calls w5 = w_calls w ++ new
       /\ map call_inv new = pipeline work paper_dir
       /\ Forall exits_zero new.
Proof.
  intros Hacc work paper_dir file Hmk Hmkd Hstage Hzip Hrun Hpdf.
  subst work paper_dir file. cbv beta in *.
  apply convert_staged in Hstage as (Hconv & Hcalls & _).
  split.
  - apply (index_in_workspace request w fs1 fs2
             (Ok (send_file bytes "application/pdf" true "paper.pdf")) w5 Hacc Hmk Hmkd).
    unfold try_except. rewrite Hconv.
    erewrite bind_ok by exact Hzip. erewrite bind_ok by exact Hrun.
    unfold send_artifact, bind, fs_test, fs_get.
    rewrite (read_file_exists _ _ _ Hpdf). simpl. rewrite Hpdf. reflexivity.
  - destruct (linked_conversion_ok _ _ w4 w5 Hrun) as (new & Hnew & Hrest).
    exists new. split; [|exact Hrest]. rewrite Hnew. f_equal.
    match type of Hzip with
    | _safe_extract_zip ?zip_path ?dest _ = _ =>
        pose proof (quiet_safe_extract_zip zip_path dest w3) as Hquiet
    end.
    rewrite Hzip in Hquiet. simpl in *. congruence.
Qed.

End EndToEnd.

Lemma archive_not_a_zip_witness :
  let P := Demo.platform None in
  let request := Demo.post (Some Demo.md) (Some Demo.bib)
                   (Some {| filename := "figures.zip"; stream := "GIF89a" |}) in
  (index request Demo.world).1 = Raise BadZipFile.
Proof.
  intros P request.
  set (fs2 := <[Demo.workdir ++ ["paperFiles"] := Dir]> (<[Demo.workdir := Dir]> Demo.disk)).
  set (stage := (_copy_assets Demo.workdir ;;
                 save Demo.md (Demo.workdir // "paperFiles" // "paper.md") ;;
                 stage_bibliography (Demo.workdir // "paperFiles") Demo.bib ;;
                 save {| filename := "figures.zip"; stream := "GIF89a" |}
                   (Demo.workdir // "figures.zip"))).
  destruct (@archive_not_a_zip P request Demo.world
              (<[Demo.workdir := Dir]> Demo.disk) fs2
              (stage (set_fs Demo.world fs2)).2) as [H _].
  - vm_compute. reflexivity.
  - reflexivity.
  - reflexivity.
  - apply outcome_pair. vm_compute. reflexivity.
  - reflexivity.
  - rewrite H. reflexivity.
Defined.


Lemma unsafe_archive_answer_witness :
  let P := Demo.platform None in
  let request := Demo.post (Some Demo.md) (Some Demo.bib)
                   (Some {| filename := "figures.zip";
                            stream := "PK:../evil.txt=nope;" |}) in
  (index request Demo.world).1
  = Ok (render_template "index.html" (Some "Zip file contains an unsafe path.")
          (Some "")).
Proof.
  intros P request.
  set (fs2 := <[Demo.workdir ++ ["paperFiles"] := Dir]> (<[Demo.workdir := Dir]> Demo.disk)).
  set (zip := {| filename := "figures.zip"; stream := "PK:../evil.txt=nope;" |}).
  set (stage := (_copy_assets Demo.workdir ;;
                 save Demo.md (Demo.workdir // "paperFiles" // "paper.md") ;;
                 stage_bibliography (Demo.workdir // "paperFiles") Demo.bib ;;
                 save zip (Demo.workdir // "figures.zip"))).
  destruct (@unsafe_archive_answer P request Demo.world
              (<[Demo.workdir := Dir]> Demo.disk) fs2
              (stage (set_fs Demo.world fs2)).2
              [ {| zi_filename := "../evil.txt"; zi_data := "nope" |} ]
              {| zi_filename := "../evil.txt"; zi_data := "nope" |}) as [H _].
  - vm_compute. reflexivity.
  - reflexivity.
  - reflexivity.
  - apply outcome_pair. vm_compute. reflexivity.
  - reflexivity.
  - left.
  - vm_compute. reflexivity.
  - rewrite H. reflexivity.
Defined.

Lemma converted_answer_witness :
  let P := Demo.platform None in
  let request := Demo.post (Some Demo.md) (Some Demo.bib) (Some Demo.figs) in
  (index request Demo.world).1
  = Ok (send_file "%PDF-1.5" "application/pdf" true "paper.pdf").
Proof.
  intros P request.
  set (fs2 := <[Demo.workdir ++ ["paperFiles"] := Dir]> (<[Demo.workdir := Dir]> Demo.disk)).
  set (paper_dir := Demo.workdir // "paperFiles").
  set (stage := (_copy_assets Demo.workdir ;;
                 save Demo.md (paper_dir // "paper.md") ;;
                 stage_bibliography paper_dir Demo.bib ;;
                 save Demo.figs (Demo.workdir // "figures.zip"))).
  set (w3 := (stage (set_fs Demo.world fs2)).2).
  set (w4 := (_safe_extract_zip (Demo.workdir // "figures.zip") paper_dir w3).2).
  set (w5 := (linked_conversion Demo.workdir paper_dir w4).2).
  destruct (@converted_answer P request Demo.world
              (<[Demo.workdir := Dir]> Demo.disk) fs2 w3 w4 w5 "%PDF-1.5") as [H _].
  - vm_compute. reflexivity.
  - reflexivity.
  - reflexivity.
  - apply outcome_pair. vm_compute. reflexivity.
  - apply outcome_pair. vm_compute. reflexivity.
  - apply outcome_pair. vm_compute. reflexivity.
  - vm_compute. reflexivity.
  - rewrite H. reflexivity.
Defined.

(** ** [_copy_assets]: the assets arrive as they are installed *)

Lemma copy_new (fs : FS) src dst d :
  Os.node_at fs src = Some (File d) ->
  Os.node_at fs dst = None ->
  Os.node_at fs (PathLib.parent dst) = Some Dir ->
  Os.copy src dst fs = Ok (<[dst := File d]> fs).
Proof.
  intros Hsrc Hdst Hparent. unfold Os.copy.
  assert (Hfd : file_or_absent fs dst = true).
  { unfold file_or_absent. rewrite Hdst. reflexivity. }
  assert (Hfs : file_or_absent fs src = true).
  { unfold file_or_absent. rewrite Hsrc. reflexivity. }
  assert (Hnd : Os.is_dir fs dst = false).
  { unfold Os.is_dir. rewrite (follow_file_or_absent _ _ Hfd), Hdst. reflexivity. }
  rewrite Hnd, (follow_file_or_absent _ _ Hfs), (follow_file_or_absent _ _ Hfd).
  rewrite bool_decide_eq_false_2 by (intros [Heq _]; congruence).
  unfold Os.read_file, Os.write_file.
  rewrite (follow_file_or_absent _ _ Hfs), (follow_file_or_absent _ _ Hfd), Hsrc, Hdst.
  unfold Os.check_parent. rewrite Hparent. reflexivity.
Qed.

Lemma prefix_snoc_inv {A} (q l : list A) a :
  q `prefix_of` l ++ [a] -> q `prefix_of` l \/ q = l ++ [a].
Proof.
  intros [k Hk]. destruct k as [|b k] using rev_ind.
  - right. rewrite app_nil_r in Hk. symmetry. exact Hk.
  - left. rewrite app_assoc in Hk. apply app_inj_tail in Hk as [-> _].
    apply prefix_app_r. reflexivity.
Qed.

Section AssetsCopied.

Context {P : Platform}.

Lemma copy_assets_loop work (base : string -> string) names :
  NoDup (base <$> names) ->
  (forall name, name ∈ names ->
     work // name = work ++ ["ieee"; base name]
     /\ APP_ROOT // name = APP_ROOT ++ ["ieee"; base name]) ->
  forall w,
    (forall q, q `prefix_of` work -> Os.node_at (w_fs w) q = Some Dir) ->
    dir_or_absent (w_fs w) (work ++ ["ieee"]) ->
    (forall name, name ∈ names ->
       Os.node_at (w_fs w) (work ++ ["ieee"; base name]) = None) ->
    (forall name, name ∈ names ->
       exists d, Os.node_at (w_fs w) (APP_ROOT ++ ["ieee"; base name]) = Some (File d)) ->
    exists fs',
      for_ names (copy_asset work) w = (Ok tt, set_fs w fs')
      /\ (forall name, name ∈ names ->
            Os.node_at fs' (work ++ ["ieee"; base name])
            = Os.node_at (w_fs w) (APP_ROOT ++ ["ieee"; base name]))
      /\ (forall p, ~ (work ++ ["ieee"]) `prefix_of` p ->
            Os.node_at fs' p = Os.node_at (w_fs w) p)
      /\ (forall p x, Os.node_at (w_fs w) p = Some x -> Os.node_at fs' p = Some x).
Proof.
  induction names as [|name names IH]; intros Hnodup Hnames w Habove Hieee Hfree Hsrc.
  - exists (w_fs w). destruct w. split; [reflexivity|]. split; [|auto].
    intros name Hin. inversion Hin.
  - rewrite fmap_cons in Hnodup. apply NoDup_cons in Hnodup as [Hfresh Hnodup].
    destruct (Hnames name) as [Htarget Hsource]; [left|].
    destruct (Hsrc name) as [d Hd]; [left|].
    pose proof (Hfree name ltac:(left)) as Hnone.
    (* the directory of the assets *)
    destruct (mkdirs_from_spec (work ++ ["ieee"]) [] (w_fs w)) as (fs1 & Hmk & Hdirs & Hgrown).
    { intros q _ Hq. simpl. apply prefix_snoc_inv in Hq as [Hq| ->]; [|exact Hieee].
      unfold dir_or_absent. rewrite (Habove q Hq). exact I. }
    simpl in Hdirs, Hgrown.
    assert (Hkeep1 : forall p x, Os.node_at (w_fs w) p = Some x -> Os.node_at fs1 p = Some x).
    { intros p x Hp. destruct (Hgrown p) as [->|(Hno & _)]; congruence. }
    assert (Hlong : forall x, ~ (work ++ ["ieee"; x]) `prefix_of` work ++ ["ieee"]).
    { intros x Hpre. apply prefix_length in Hpre. rewrite !length_app in Hpre.
      simpl in Hpre. lia. }
    assert (Hnone1 : forall name', name' ∈ name :: names ->
              Os.node_at fs1 (work ++ ["ieee"; base name']) = None).
    { intros name' Hin. destruct (Hgrown (work ++ ["ieee"; base name'])) as [->|(_ & _ & Hpre)];
        [apply Hfree; exact Hin|]. destruct (Hlong _ Hpre). }
    assert (Hparent : PathLib.parent (work ++ ["ieee"; base name]) = work ++ ["ieee"]).
    { change (work ++ ["ieee"; base name]) with (work ++ ["ieee"] ++ [base name]).
      rewrite app_assoc. apply parent_snoc. }
    assert (Hcopy : Os.copy (APP_ROOT ++ ["ieee"; base name]) (work ++ ["ieee"; base name]) fs1
                    = Ok (<[work ++ ["ieee"; base name] := File d]> fs1)).
    { apply copy_new; [apply Hkeep1; exact Hd | apply Hnone1; left|].
      rewrite Hparent. apply Hdirs; [|reflexivity].
      intros Heq. apply app_eq_nil in Heq as [_ Heq]. discriminate. }
    set (t := work ++ ["ieee"; base name]) in *.
    assert (Ht : t <> []).
    { unfold t. intros Heq. apply app_eq_nil in Heq as [_ Heq]. discriminate. }
    set (fs2 := <[t := File d]> fs1) in *.
    assert (Hkeep2 : forall p x, Os.node_at (w_fs w) p = Some x -> Os.node_at fs2 p = Some x).
    { intros p x Hp. unfold fs2. rewrite node_at_insert by exact Ht.
      case_decide as Heq; [subst p; congruence | apply Hkeep1; exact Hp]. }
    assert (Hdir1 : Os.node_at fs1 (work ++ ["ieee"]) = Some Dir).
    { apply Hdirs; [|reflexivity].
      intros Heq. apply app_eq_nil in Heq as [_ Heq]. discriminate. }
    assert (Hdir2 : Os.node_at fs2 (work ++ ["ieee"]) = Some Dir).
    { unfold fs2. rewrite node_at_insert by exact Ht. case_decide as Heq; [|exact Hdir1].
      exfalso. apply (Hlong (base name)). fold t. rewrite Heq. reflexivity. }
    destruct (IH Hnodup (fun n Hn => Hnames n ltac:(right; exact Hn)) (set_fs w fs2))
      as (fs' & Hrun & Hcopied & Hout & Hkeep).
    { intros q Hq. apply Hkeep2, Habove, Hq. }
    { unfold dir_or_absent. simpl. rewrite Hdir2. exact I. }
    { intros n Hn. simpl. unfold fs2. rewrite node_at_insert by exact Ht.
      case_decide as Heq; [|apply Hnone1; right; exact Hn].
      exfalso. apply Hfresh. unfold t in Heq. apply app_inv_head in Heq.
      injection Heq as ->. apply list_elem_of_fmap. exists n. auto. }
    { intros n Hn. destruct (Hsrc n) as [d' Hd']; [right; exact Hn|].
      exists d'. apply Hkeep2. exact Hd'. }
    simpl in Hcopied, Hout, Hkeep.
    exists fs'. split; [|split; [|split]].
    + assert (Hex : Os.exists_ (w_fs w) (APP_ROOT ++ ["ieee"; base name]) = true).
      { rewrite exists_not_link by (intros t'; rewrite Hd; discriminate).
        apply bool_decide_eq_true. rewrite Hd. eauto. }
      simpl. unfold bind at 1. unfold copy_asset at 1.
      rewrite Hsource, Htarget. unfold bind at 1, fs_test at 1. rewrite Hex. simpl.
      unfold bind at 1, fs_do at 1.
      rewrite Hparent. unfold Os.makedirs. rewrite Hmk.
      unfold fs_do. simpl. rewrite Hcopy.
      change (set_fs (set_fs w fs1) fs2) with (set_fs w fs2).
      rewrite Hrun. reflexivity.
    + intros n Hn. apply elem_of_cons in Hn as [->|Hn].
      * rewrite Hd. apply Hkeep. unfold fs2. apply node_at_insert_eq. exact Ht.
      * rewrite (Hcopied n Hn). destruct (Hsrc n) as [d' Hd']; [right; exact Hn|].
        rewrite Hd'. apply Hkeep2. exact Hd'.
    + intros p Hp. rewrite (Hout p Hp). unfold fs2. rewrite node_at_insert by exact Ht.
      case_decide as Heq.
      { exfalso. apply Hp. rewrite <- Heq. unfold t.
        exists [base name]. rewrite <- app_assoc. reflexivity. }
      destruct (Hgrown p) as [->|(Hno & _ & Hpre)]; [reflexivity|].
      exfalso. apply prefix_snoc_inv in Hpre as [Hpre| ->]; [|apply Hp; reflexivity].
      rewrite (Habove p Hpre) in Hno. discriminate.
    + intros p x Hp. apply Hkeep, Hkeep2, Hp.
Qed.

(** In a workspace whose [ieee] directory is still to be made, and with
    the five assets installed as regular files, [_copy_assets] ends
    normally; every asset is then in the workspace, under its own name and
    with the bytes of the installed one, and nothing has changed outside
    the [ieee] directory of the workspace. *)
Theorem assets_copied work w :
  (forall q, q `prefix_of` work -> Os.node_at (w_fs w) q = Some Dir) ->
  (forall p, (work // "ieee") `prefix_of` p -> Os.node_at (w_fs w) p = None) ->
  (forall name, name ∈ ASSETS ->
     exists d, Os.node_at (w_fs w) (APP_ROOT // name) = Some (File d)) ->
  exists fs',
    _copy_assets work w = (Ok tt, set_fs w fs')
    /\ (forall name, name ∈ ASSETS ->
          Os.node_at fs' (work // name) = Os.node_at (w_fs w) (APP_ROOT // name))
    /\ (forall p, ~ (work // "ieee") `prefix_of` p ->
          Os.node_at fs' p = Os.node_at (w_fs w) p).
Proof.
  intros Habove Hnew Hinstalled.
  change (work // "ieee") with (work ++ ["ieee"]) in *.
  set (base := fun name => PathLib.name (PathLib.parse_parts name)).
  assert (Hnames : forall name, name ∈ ASSETS ->
            work // name = work ++ ["ieee"; base name]
            /\ APP_ROOT // name = APP_ROOT ++ ["ieee"; base name]).
  { intros name Hin. apply list_elem_of_In in Hin. simpl in Hin.
    repeat destruct Hin as [<-|Hin]; try contradiction; split; reflexivity. }
  destruct (copy_assets_loop work base ASSETS) with (w := w)
    as (fs' & Hrun & Hcopied & Hout & _).
  - apply (bool_decide_unpack _). vm_compute. reflexivity.
  - exact Hnames.
  - exact Habove.
  - unfold dir_or_absent. rewrite Hnew by reflexivity. exact I.
  - intros name Hin. apply Hnew. exists [base name]. rewrite <- app_assoc. reflexivity.
  - intros name Hin. destruct (Hnames name Hin) as [_ <-]. apply Hinstalled. exact Hin.
  - exists fs'. split; [exact Hrun|]. split; [|exact Hout].
    intros name Hin. destruct (Hnames name Hin) as [-> ->]. apply Hcopied. exact Hin.
Qed.

End AssetsCopied.

Lemma assets_copied_witness :
  let P := Demo.platform None in
  let w := {| w_fs := <[Demo.workdir := Dir]> Demo.disk; w_calls := [] |} in
  exists fs',
    _copy_assets Demo.workdir w = (Ok tt, set_fs w fs')
    /\ Os.node_at fs' (Demo.workdir ++ ["ieee"; "IEEEtran.cls"])
       = Some (File "asset ieee/IEEEtran.cls").
Proof.
  intros P w.
  destruct (@assets_copied P Demo.workdir w) as (fs' & Hrun & Hcopied & _).
  - intros q Hq. apply elem_of_inits in Hq. apply list_elem_of_In in Hq. simpl in Hq.
    destruct Hq as [<-|[<-|[<-|[]]]]; reflexivity.
  - intros p [k ->]. change (w_fs w !! ("tmp" :: "ieee-convert-k3x9" :: "ieee" :: k) = None).
    unfold w. simpl. rewrite lookup_insert_ne by discriminate.
    destruct (Demo.disk !! _) as [x|] eqn:Hx; [|reflexivity].
    apply demo_disk_keys in Hx as [Hx|Hx]; discriminate.
  - intros name Hin. apply list_elem_of_In in Hin. simpl in Hin.
    repeat destruct Hin as [<-|Hin]; try contradiction; eexists; reflexivity.
  - exists fs'. split; [exact Hrun|].
    exact (Hcopied "ieee/IEEEtran.cls" ltac:(right; left)).
Defined.

(** ** [index]: what the names of the uploads are used for *)

Section UploadNames.

Context {P : Platform}.

(** The names of the manuscript and of the figure archive are looked at by
    the guards and by nothing else: both uploads are saved under fixed
    names.  So two requests that pass the guards with the same
    bibliography and the same bytes for the manuscript and for the
    archive are treated alike, whatever the names of these two uploads:
    same answer, same tools, same disk. *)
Theorem upload_names_unused (request request' : Request) (w : World) :
  let file (r : Request) key := upload (files_get (req_files r) key) in
  accepted request = true ->
  accepted request' = true ->
  stream (file request "md_file") = stream (file request' "md_file") ->
  file request "bib_file" = file request' "bib_file" ->
  stream (file request "fig_zip") = stream (file request' "fig_zip") ->
  index request w = index request' w.
Proof.
  intros file Hacc Hacc' Hmd Hbib Hzip.
  rewrite (index_accepted _ _ Hacc), (index_accepted _ _ Hacc').
  unfold workspace, convert, save. fold (file request "md_file").
  fold (file request "bib_file") (file request "fig_zip").
  fold (file request' "md_file") (file request' "bib_file") (file request' "fig_zip").
  rewrite Hmd, Hbib, Hzip. reflexivity.
Qed.

End UploadNames.

Lemma upload_names_unused_witness :
  let P := Demo.platform None in
  index (Demo.post (Some Demo.md) (Some Demo.bib) (Some Demo.figs)) Demo.world
  = index (Demo.post (Some {| filename := "Thesis draft.MD"; stream := "# Title" |})
             (Some Demo.bib)
             (Some {| filename := "../pics.Zip";
                      stream := "PK:plots/a.png=PNG1;b.png=PNG2;" |})) Demo.world.
Proof.
  intros P.
  apply (@upload_names_unused P); vm_compute; reflexivity.
Defined.

(** ** [_run_conversion]: what the compiler is given *)

Lemma bind_assoc_at {A B C} (m : Py A) (k : A -> Py B) (k' : B -> Py C) w :
  bind (bind m k) k' w = bind m (fun a => bind (k a) k') w.
Proof. unfold bind. destruct (m w) as [[a|e] w1]; reflexivity. Qed.

Lemma bind_ext {A B} (m : Py A) (k k' : A -> Py B) w :
  (forall a w1, k a w1 = k' a w1) -> bind m k w = bind m k' w.
Proof. intros H. unfold bind. destruct (m w) as [[a|e] w1]; [apply H | reflexivity]. Qed.

Section Stages.

Context {P : Platform}.

Lemma run_conversion_stages work paper_dir w :
  _run_conversion work paper_dir w
  = (fs_do (Os.makedirs (work ++ ["outputs"])) ;;
     _run (pandoc_cmd paper_dir ["outputs"]) work (conversion_env work paper_dir) ;;
     before_latex work paper_dir ;;
     _run (pdflatex_cmd ["outputs"]) work (conversion_env work paper_dir) ;;
     _run (bibtex_cmd ["outputs"]) work (conversion_env work paper_dir) ;;
     _run (pdflatex_cmd ["outputs"]) work (conversion_env work paper_dir) ;;
     _run (pdflatex_cmd ["outputs"]) work (conversion_env work paper_dir)) w.
Proof.
  unfold _run_conversion.
  apply bind_ext. intros _ w1. apply bind_ext. intros _ w2.
  symmetry. unfold before_latex.
  rewrite bind_assoc_at. apply bind_ext. intros text w3.
  rewrite bind_assoc_at. apply bind_ext. intros _ w4.
  rewrite bind_assoc_at. apply bind_ext. intros _ w5.
  rewrite bind_assoc_at. apply bind_ext. intros bibs w6.
  reflexivity.
Qed.

End Stages.






